(** * Open3D tensor registration: transformation estimation and LineSet

    A shallow embedding of
      - cpp/open3d/t/pipelines/registration/TransformationEstimation.cpp
      - cpp/open3d/t/geometry/LineSet.h
    Tensors are handles (blob address, dtype, device) into a store of
    buffers, so that in-place arithmetic ([Mul_], [Add_]) and aliasing are
    visible.  Exceptions ([utility::LogError], [Tensor::Assert...],
    [std::map::at]) are the [Err] branch of [result]; a raised exception
    leaves the store as it was at the point of the throw. *)

From Stdlib Require Import ZArith Uint63 PrimFloat SpecFloat FloatOps Lia.
From stdpp Require Import gmap strings list fin_maps.

Local Open Scope Z_scope.
Local Open Scope nat_scope.

(** ** Scalars

    The element type of floating tensors and of C++ [double].  The
    estimators only add, subtract, multiply, divide and take square roots,
    so the arithmetic is an interface.  The operations are those of
    [double]; [fround32] rounds a [double] to the nearest [float], which is
    what an operation on Float32 elements does to its result. *)

Class Scalar (F : Type) := {
  fzero : F;
  fone : F;
  fadd : F → F → F;
  fsub : F → F → F;
  fmul : F → F → F;
  fdiv : F → F → F;
  fsqrt : F → F;
  feqb : F → F → bool;
  of_int : Z → F;
  fround32 : F → F;
}.

(** Rounding of a binary64 value to the nearest binary32 value, ties to
    even, overflow to infinity, gradual underflow (precision 24, exponents
    below 128); the result is held as the binary64 value it widens to. *)
Definition round32 (x : float) : float :=
  match Prim2SF x with
  | S754_finite s m e => SF2Prim (binary_round 24 128 s m e)
  | _ => x
  end.

(** IEEE binary64, the meaning of [double] and of dtype Float64. *)
#[export] Instance float_Scalar : Scalar PrimFloat.float := {|
  fzero := 0%float;
  fone := 1%float;
  fadd := PrimFloat.add;
  fsub := PrimFloat.sub;
  fmul := PrimFloat.mul;
  fdiv := PrimFloat.div;
  fsqrt := PrimFloat.sqrt;
  feqb := PrimFloat.eqb;
  of_int := λ z, match z with
                 | Z0 => 0%float
                 | Zpos p => PrimFloat.of_uint63 (Uint63.of_Z (Zpos p))
                 | Zneg p => PrimFloat.opp (PrimFloat.of_uint63 (Uint63.of_Z (Zpos p)))
                 end;
  fround32 := round32;
|}.

(** Exact integer arithmetic, where nothing is rounded. *)
#[export] Instance Z_Scalar : Scalar Z := {|
  fzero := 0%Z;
  fone := 1%Z;
  fadd := Z.add;
  fsub := Z.sub;
  fmul := Z.mul;
  fdiv := Z.div;
  fsqrt := Z.sqrt;
  feqb := Z.eqb;
  of_int := λ z, z;
  fround32 := λ z, z;
|}.

(** ** Devices, dtypes, errors *)

Inductive DeviceType := CPU | CUDA.

Record Device := mkDevice { device_type : DeviceType; device_id : nat }.

Inductive Dtype := Float32 | Float64 | Int32 | Int64 | Bool.

#[export] Instance DeviceType_eq_dec : EqDecision DeviceType.
Proof. solve_decision. Defined.
#[export] Instance Device_eq_dec : EqDecision Device.
Proof. solve_decision. Defined.
#[export] Instance Dtype_eq_dec : EqDecision Dtype.
Proof. solve_decision. Defined.

(** The value an operation on elements of [dtype] stores: rounded to
    binary32 for Float32, as computed for Float64. *)
Definition round_to {F} `{!Scalar F} (dtype : Dtype) (x : F) : F :=
  match dtype with
  | Float32 => fround32 x
  | _ => x
  end.

(** An element-wise operation at the precision of [dtype]. *)
Definition rounded {F} `{!Scalar F} (dtype : Dtype) (f : F → F → F) : F → F → F :=
  λ a b, round_to dtype (f a b).

Definition CPU0 : Device := mkDevice CPU 0.
Definition CUDA0 : Device := mkDevice CUDA 0.

Definition DeviceType_ToString (d : DeviceType) : string :=
  match d with CPU => "CPU" | CUDA => "CUDA" end.

(** The exceptions the modelled code can raise, by origin. *)
Inductive error :=
  (** [utility::LogError(fmt, args...)] written in the sources: the format
      string and the devices it is given. *)
  | LogError (fmt : string) (args : list Device)
  (** [Tensor::AssertDevice], [Tensor::AssertDtype],
      [Tensor::AssertShapeCompatible]. *)
  | AssertDeviceFailed (have want : Device)
  | AssertDtypeFailed (have want : Dtype)
  | AssertShapeFailed (have : list nat)
  (** [TensorMap::at] on a missing key ([std::out_of_range]). *)
  | KeyNotFound (key : string)
  (** [TensorMap::Erase] of the primary key. *)
  | PrimaryKeyErase (key : string)
  (** Raised inside the tensor library. *)
  | BroadcastError (l r : list nat)
  | DimOutOfRange (dim ndims : nat)
  | RepeatedDim (dim : nat)
  | IndexOutOfBounds (i : Z) (len : nat)
  | IndexDtypeError (have : Dtype)
  | DeviceMismatch (l r : Device)
  | DtypeMismatch (l r : Dtype)
  | DtypeNotSupported
  | ScalarShapeError (have : list nat)
  | InvalidBlob (addr : nat).

Inductive result (A : Type) := Ok (a : A) | Err (e : error).
Arguments Ok {A} a.
Arguments Err {A} e.

Definition is_Ok {A} (r : result A) : Prop :=
  match r with Ok _ => True | Err _ => False end.

#[export] Instance result_ret : MRet result := λ A a, Ok a.
#[export] Instance result_bind : MBind result :=
  λ A B f r, match r with Ok a => f a | Err e => Err e end.

#[export] Instance result_fmap : FMap result :=
  λ A B f r, match r with Ok a => Ok (f a) | Err e => Err e end.

Definition from_option {A} (e : error) (o : option A) : result A :=
  match o with Some a => Ok a | None => Err e end.

(** ** Buffers

    A buffer holds the elements of a tensor of rank 0, 1 or 2 (the ranks
    the estimators and the LineSet attributes use), of one of the three
    element kinds. *)

Inductive Arr (A : Type) :=
  | A0 (x : A)
  | A1 (v : list A)
  | A2 (cols : nat) (rows : list (list A)).
Arguments A0 {A} x.
Arguments A1 {A} v.
Arguments A2 {A} cols rows.

Definition arr_shape {A} (a : Arr A) : list nat :=
  match a with
  | A0 _ => []
  | A1 v => [length v]
  | A2 c rows => [length rows; c]
  end.

Definition arr_map {A B} (f : A → B) (a : Arr A) : Arr B :=
  match a with
  | A0 x => A0 (f x)
  | A1 v => A1 (map f v)
  | A2 c rows => A2 c (map (map f) rows)
  end.

(** Row-major elements. *)
Definition arr_flat {A} (a : Arr A) : list A :=
  match a with
  | A0 x => [x]
  | A1 v => v
  | A2 _ rows => concat rows
  end.

(** Every row of a rank-2 buffer has [cols] elements. *)
Definition arr_wf {A} (a : Arr A) : Prop :=
  match a with
  | A2 c rows => Forall (λ r, length r = c) rows
  | _ => True
  end.

Lemma arr_shape_map {A B} (f : A → B) (a : Arr A) :
  arr_shape (arr_map f a) = arr_shape a.
Proof. destruct a; simpl; by rewrite ?length_map. Qed.

Definition arr_zip {A B C} (f : A → B → C) (a : Arr A) (b : Arr B) : option (Arr C) :=
  match a, b with
  | A0 x, A0 y => Some (A0 (f x y))
  | A1 u, A1 v => Some (A1 (zip_with f u v))
  | A2 c r, A2 _ r' => Some (A2 c (zip_with (zip_with f) r r'))
  | _, _ => None
  end.

Inductive Data (F : Type) :=
  | DF (a : Arr F)        (** Float32, Float64 *)
  | DI (a : Arr Z)        (** Int32, Int64 *)
  | DB (a : Arr bool).    (** Bool *)
Arguments DF {F} a.
Arguments DI {F} a.
Arguments DB {F} a.

Definition shape {F} (d : Data F) : list nat :=
  match d with
  | DF a => arr_shape a
  | DI a => arr_shape a
  | DB a => arr_shape a
  end.

Definition flat {F} (d : Data F) : Data F :=
  match d with
  | DF a => DF (A1 (arr_flat a))
  | DI a => DI (A1 (arr_flat a))
  | DB a => DB (A1 (arr_flat a))
  end.

(** ** The store and its monad

    The store is the list of live buffers; a tensor's [blob_] is an index
    into it.  An allocation appends, so addresses below the length of the
    store at the start of a call are exactly the caller's buffers. *)

Abbreviation heap F := (list (Data F)).

Definition M (F : Type) (A : Type) : Type := heap F → result A * heap F.

#[export] Instance M_ret {F} : MRet (M F) := λ A a h, (Ok a, h).
#[export] Instance M_bind {F} : MBind (M F) :=
  λ A B f m h,
    match m h with
    | (Ok a, h') => f a h'
    | (Err e, h') => (Err e, h')
    end.

Definition lift {F A} (r : result A) : M F A := λ h, (r, h).

(** A step that only reads the store. *)
Definition reading {F A} (f : heap F → result A) : M F A := λ h, (f h, h).

(** ** core::Tensor *)

(** Modelled from the spec: open3d/core/Tensor.h is not among the sources;
    the spec names the tensor primitives (element-wise arithmetic,
    reductions, gather/indexing, device and dtype metadata, GetLength)
    without defining them.  The definitions below give each primitive the
    estimators call its NumPy-style meaning: binary operations broadcast
    shapes aligned at the last dimension, a reduction names dimensions of
    its operand, indexing with a tensor gathers along dimension 0 into a
    new tensor, and only the [_]-suffixed operations write to their
    receiver.  Arithmetic has the dtype of its operands: an operation on
    Float32 elements rounds its result to Float32, and a Sum adds the
    elements to its accumulator one after the other, in index order. *)

Module Tensor.

Record t := mk { blob_ : nat; dtype_ : Dtype; device_ : Device }.

Definition GetDtype (x : t) : Dtype := dtype_ x.
Definition GetDevice (x : t) : Device := device_ x.

Definition AssertDtype (x : t) (dtype : Dtype) : result unit :=
  if decide (dtype_ x = dtype) then Ok () else Err (AssertDtypeFailed (dtype_ x) dtype).

Definition AssertDevice (x : t) (device : Device) : result unit :=
  if decide (device_ x = device) then Ok () else Err (AssertDeviceFailed (device_ x) device).

Section ops.
Context {F : Type} `{!Scalar F}.

Definition deref (x : t) (h : heap F) : result (Data F) :=
  from_option (InvalidBlob (blob_ x)) (h !! blob_ x).

(** A step that returns a new tensor: nothing but the new buffer is written. *)
Definition allocating (dtype : Dtype) (device : Device)
    (f : heap F → result (Data F)) : M F t :=
  λ h, match f h with
       | Ok d => (Ok (mk (length h) dtype device), h ++ [d])
       | Err e => (Err e, h)
       end.

(** An in-place step: the receiver's buffer is overwritten. *)
Definition updating (x : t) (f : heap F → result (Data F)) : M F t :=
  λ h, match f h with
       | Ok d => (Ok x, <[blob_ x := d]> h)
       | Err e => (Err e, h)
       end.

(** [SizeVector::GetLength]: the first dimension; a 0-dimensional shape has none. *)
Definition shape_length (s : list nat) : result nat :=
  match s with
  | [] => Err (ScalarShapeError [])
  | n :: _ => Ok n
  end.

Definition GetLength (x : t) (h : heap F) : result nat :=
  d ← deref x h; shape_length (shape d).

Definition GetShape (x : t) (h : heap F) : result (list nat) :=
  d ← deref x h; Ok (shape d).

(** *** Broadcasting *)

Definition broadcast_dim (a b : nat) : option nat :=
  if decide (a = b) then Some a
  else if decide (a = 1) then Some b
  else if decide (b = 1) then Some a
  else None.

(** Shapes compared from the last dimension. *)
Fixpoint broadcast_rev (l r : list nat) : option (list nat) :=
  match l, r with
  | [], _ => Some r
  | _, [] => Some l
  | a :: l', b :: r' =>
      d ← broadcast_dim a b; s ← broadcast_rev l' r'; Some (d :: s)
  end.

Definition BroadcastedShape (l r : list nat) : option (list nat) :=
  reverse <$> broadcast_rev (reverse l) (reverse r).

(** A dimension of size one is repeated. *)
Definition expand_list {A} (n : nat) (l : list A) : list A :=
  match l with
  | [x] => replicate n x
  | _ => l
  end.

Definition expand {A} (s : list nat) (a : Arr A) : option (Arr A) :=
  match s, a with
  | [], A0 x => Some (A0 x)
  | [m], A0 x => Some (A1 (replicate m x))
  | [m], A1 v => Some (A1 (expand_list m v))
  | [n; c], A0 x => Some (A2 c (replicate n (replicate c x)))
  | [n; c], A1 v => Some (A2 c (replicate n (expand_list c v)))
  | [n; c], A2 _ rows => Some (A2 c (expand_list n (map (expand_list c) rows)))
  | _, _ => None
  end.

(** The operation [f] on the elements of [dtype]: every result is rounded
    to the dtype. *)
Definition BinaryEW (dtype : Dtype) (f : F → F → F) (l r : Data F) : result (Data F) :=
  match l, r with
  | DF a, DF b =>
      match BroadcastedShape (arr_shape a) (arr_shape b) with
      | None => Err (BroadcastError (arr_shape a) (arr_shape b))
      | Some s =>
          from_option DtypeNotSupported
            (a' ← expand s a; b' ← expand s b; DF <$> arr_zip (rounded dtype f) a' b')
      end
  | _, _ => Err DtypeNotSupported
  end.

Definition binary (f : F → F → F) (l r : t) (h : heap F) : result (Data F) :=
  if decide (device_ l = device_ r) then
    if decide (dtype_ l = dtype_ r) then
      a ← deref l h; b ← deref r h; BinaryEW (dtype_ l) f a b
    else Err (DtypeMismatch (dtype_ l) (dtype_ r))
  else Err (DeviceMismatch (device_ l) (device_ r)).

(** In place: the broadcast result must have the receiver's shape. *)
Definition binary_ (f : F → F → F) (l r : t) (h : heap F) : result (Data F) :=
  d ← binary f l r h;
  a ← deref l h;
  if decide (shape d = shape a) then Ok d else Err (BroadcastError (shape a) (shape d)).

Definition Add (l r : t) : M F t := allocating (dtype_ l) (device_ l) (binary fadd l r).
Definition Sub (l r : t) : M F t := allocating (dtype_ l) (device_ l) (binary fsub l r).
Definition Mul (l r : t) : M F t := allocating (dtype_ l) (device_ l) (binary fmul l r).
Definition Add_ (l r : t) : M F t := updating l (binary_ fadd l r).
Definition Mul_ (l r : t) : M F t := updating l (binary_ fmul l r).

(** [Mul(Scalar)]: every element times a C++ double, which is first
    converted to the dtype of the tensor. *)
Definition scaled (x : t) (v : F) (h : heap F) : result (Data F) :=
  d ← deref x h;
  match d with
  | DF a => Ok (DF (arr_map (λ y, rounded (dtype_ x) fmul y (round_to (dtype_ x) v)) a))
  | _ => Err DtypeNotSupported
  end.

Definition MulScalar (x : t) (v : F) : M F t :=
  allocating (dtype_ x) (device_ x) (scaled x v).

(** *** Reductions *)

(** The sum reduction of elements of [dtype]: the elements are added to
    the accumulator in index order, starting from 0, and the accumulator
    has the dtype of the elements. *)
Definition fsum (dtype : Dtype) (l : list F) : F :=
  foldl (rounded dtype fadd) fzero l.

(** The mean reduction: the sum, divided by the number of elements, which
    is first converted to the dtype. *)
Definition fmean (dtype : Dtype) (l : list F) : F :=
  rounded dtype fdiv (fsum dtype l) (round_to dtype (of_int (Z.of_nat (length l)))).

(** [shape_util::ReductionShape]: every reduced dimension is a dimension
    of the operand, and none is named twice. *)
Fixpoint ReductionDims (ndims : nat) (dims : list nat) : result unit :=
  match dims with
  | [] => Ok ()
  | k :: ks =>
      if decide (ndims ≤ k) then Err (DimOutOfRange k ndims)
      else if decide (k ∈ ks) then Err (RepeatedDim k)
      else ReductionDims ndims ks
  end.

Definition columns {A} (c : nat) (rows : list (list A)) : list (list A) :=
  map (λ j, omap (λ r : list A, r !! j) rows) (seq 0 c).

Definition reduce (g : list F → F) (dims : list nat) (a : Arr F) : result (Arr F) :=
  _ ← ReductionDims (length (arr_shape a)) dims;
  Ok match a with
     | A0 x => A0 x
     | A1 v => if bool_decide (0 ∈ dims) then A0 (g v) else A1 v
     | A2 c rows =>
         match bool_decide (0 ∈ dims), bool_decide (1 ∈ dims) with
         | true, true => A0 (g (concat rows))
         | false, true => A1 (map g rows)
         | true, false => A1 (map g (columns c rows))
         | false, false => A2 c rows
         end
     end.

Definition reduced (g : list F → F) (x : t) (dims : list nat) (h : heap F) : result (Data F) :=
  d ← deref x h;
  match d with
  | DF a => DF <$> reduce g dims a
  | _ => Err DtypeNotSupported
  end.

Definition reduction (g : list F → F) (x : t) (dims : list nat) : M F t :=
  allocating (dtype_ x) (device_ x) (reduced g x dims).

Definition Sum (x : t) (dims : list nat) : M F t := reduction (fsum (dtype_ x)) x dims.
Definition Mean (x : t) (dims : list nat) : M F t := reduction (fmean (dtype_ x)) x dims.

(** *** Comparison, reshaping, conversion *)

(** [Ne(v)] against an integer scalar: a new Bool tensor. *)
Definition not_equal (x : t) (v : Z) (h : heap F) : result (Data F) :=
  d ← deref x h;
  match d with
  | DI a => Ok (DB (arr_map (λ z, negb (z =? v)%Z) a))
  | DF a => Ok (DB (arr_map (λ y, negb (feqb y (of_int v))) a))
  | DB a => Ok (DB (arr_map (λ b, negb (Z.b2z b =? v)%Z) a))
  end.

Definition Ne (x : t) (v : Z) : M F t := allocating Bool (device_ x) (not_equal x v).

(** [Reshape({-1})]: a view; of a 1-dimensional tensor, the tensor itself.
    For the other ranks the flattened view is materialised, which no
    caller can tell apart: the estimators never write through it. *)
Definition Reshape (x : t) : M F t :=
  λ h, match deref x h with
       | Ok d =>
           if decide (length (shape d) = 1) then (Ok x, h)
           else (Ok (mk (length h) (dtype_ x) (device_ x)), h ++ [flat d])
       | Err e => (Err e, h)
       end.

Definition is_float (dtype : Dtype) : bool :=
  match dtype with Float32 | Float64 => true | _ => false end.

(** A floating value converted to Float32 is rounded; converted to
    Float64 it is kept: every binary32 value is a binary64 value, so the
    widening of a Float32 tensor changes no element. *)
Definition convert (dtype : Dtype) (d : Data F) : result (Data F) :=
  match dtype, d with
  | Float32, DF a => Ok (DF (arr_map (round_to Float32) a))
  | Float64, DF a => Ok (DF a)
  | Float32, DI a => Ok (DF (arr_map (λ z, round_to Float32 (of_int z)) a))
  | Float64, DI a => Ok (DF (arr_map of_int a))
  | (Float32 | Float64), DB a => Ok (DF (arr_map (λ b : bool, if b then fone else fzero) a))
  | (Int32 | Int64), DI a => Ok (DI a)
  | (Int32 | Int64), DB a => Ok (DI (arr_map Z.b2z a))
  | Bool, DB a => Ok (DB a)
  | Bool, DI a => Ok (DB (arr_map (λ z, negb (z =? 0)%Z) a))
  | _, DF _ => Err DtypeNotSupported
  end.

Definition converted (x : t) (dtype : Dtype) (h : heap F) : result (Data F) :=
  d ← deref x h; convert dtype d.

(** [To(dtype)] with [copy = false]: the tensor itself when it already has
    the dtype. *)
Definition To (x : t) (dtype : Dtype) : M F t :=
  if decide (dtype_ x = dtype) then mret x
  else allocating dtype (device_ x) (converted x dtype).

(** [Item<double>()]: the element of a 0-dimensional Float64 tensor. *)
Definition item (x : t) (h : heap F) : result F :=
  d ← deref x h;
  match shape d with
  | [] =>
      _ ← AssertDtype x Float64;
      match d with
      | DF (A0 v) => Ok v
      | _ => Err DtypeNotSupported
      end
  | s => Err (ScalarShapeError s)
  end.

Definition Item (x : t) : M F F := reading (item x).

(** *** Advanced indexing

    [IndexGet({index})] with one index tensor: rows of dimension 0 are
    copied into a new tensor.  A Bool index selects the positions where it
    is true ([NonZero]); an Int64 index lists the positions. *)

Fixpoint NonZero_from (i : nat) (bs : list bool) : list nat :=
  match bs with
  | [] => []
  | b :: bs' => (if b then [i] else []) ++ NonZero_from (S i) bs'
  end.

Definition NonZero (bs : list bool) : list nat := NonZero_from 0 bs.

Definition index_at (len : nat) (i : Z) : result nat :=
  if decide (0 ≤ i < Z.of_nat len)%Z then Ok (Z.to_nat i)
  else Err (IndexOutOfBounds i len).

Fixpoint traverse {A B} (f : A → result B) (l : list A) : result (list B) :=
  match l with
  | [] => Ok []
  | x :: l' => y ← f x; ys ← traverse f l'; Ok (y :: ys)
  end.

Definition gather {A} (ix : list nat) (l : list A) : result (list A) :=
  traverse (λ i, from_option (IndexOutOfBounds (Z.of_nat i) (length l)) (l !! i)) ix.

Definition arr_gather {A} (ix : list nat) (a : Arr A) : result (Arr A) :=
  match a with
  | A0 _ => Err (ScalarShapeError [])
  | A1 v => A1 <$> gather ix v
  | A2 c rows => A2 c <$> gather ix rows
  end.

Definition indices (index : t) (len : nat) (h : heap F) : result (list nat) :=
  d ← deref index h;
  match d with
  | DB (A1 bs) => Ok (NonZero bs)
  | DI (A1 zs) =>
      if decide (dtype_ index = Int64) then traverse (index_at len) zs
      else Err (IndexDtypeError (dtype_ index))
  | DF _ => Err (IndexDtypeError (dtype_ index))
  | _ => Err (AssertShapeFailed (shape d))
  end.

Definition data_gather (ix : list nat) (d : Data F) : result (Data F) :=
  match d with
  | DF a => DF <$> arr_gather ix a
  | DI a => DI <$> arr_gather ix a
  | DB a => DB <$> arr_gather ix a
  end.

(** The index tensor is brought to the device of the indexed tensor, so
    its own device does not matter. *)
Definition index_get (x index : t) (h : heap F) : result (Data F) :=
  d ← deref x h;
  len ← shape_length (shape d);
  ix ← indices index len h;
  data_gather ix d.

Definition IndexGet (x : t) (index : t) : M F t :=
  allocating (dtype_ x) (device_ x) (index_get x index).

End ops.
End Tensor.

(** ** TensorMap *)

(** Modelled from the spec: open3d/t/geometry/TensorMap.h is not among the
    sources; the "generic mapping from attribute name to a tensor" of the
    spec, with the primary key LineSet.h documents ("Primary attribute
    cannot be removed"). *)

Module TensorMap.

Record t := mk { primary_key_ : string; map_ : gmap string Tensor.t }.

Definition Contains (m : t) (key : string) : bool :=
  bool_decide (is_Some (map_ m !! key)).

(** [at(key)] throws when the key is missing. *)
Definition at_ (m : t) (key : string) : result Tensor.t :=
  from_option (KeyNotFound key) (map_ m !! key).

(** [m[key] = value] *)
Definition assign (m : t) (key : string) (value : Tensor.t) : t :=
  mk (primary_key_ m) (<[key := value]> (map_ m)).

Definition Erase (m : t) (key : string) : result t :=
  if decide (key = primary_key_ m) then Err (PrimaryKeyErase key)
  else Ok (mk (primary_key_ m) (delete key (map_ m))).

Definition clear (m : t) : t := mk (primary_key_ m) ∅.

End TensorMap.

(** [Tensor::AssertShapeCompatible]: [None] stands for [utility::nullopt]. *)
Fixpoint shape_compatible (s : list nat) (expected : list (option nat)) : bool :=
  match s, expected with
  | [], [] => true
  | n :: s', e :: expected' =>
      match e with
      | None => true
      | Some m => bool_decide (n = m)
      end && shape_compatible s' expected'
  | _, _ => false
  end.

Definition AssertShapeCompatible {F} (value : Tensor.t) (expected : list (option nat))
    (h : heap F) : result unit :=
  s ← Tensor.GetShape value h;
  if shape_compatible s expected then Ok () else Err (AssertShapeFailed s).

(** ** t::geometry::LineSet (LineSet.h) *)

Module LineSet.

Record t := mk {
  device_ : Device;
  point_attr_ : TensorMap.t;
  line_attr_ : TensorMap.t;
}.

(** [LineSet(device)]: an empty LineSet. *)
Definition empty (device : Device) : t :=
  mk device (TensorMap.mk "positions" ∅) (TensorMap.mk "indices" ∅).

Definition GetDevice (ls : t) : Device := device_ ls.

Definition GetPointAttr (ls : t) (key : string) : result Tensor.t :=
  TensorMap.at_ (point_attr_ ls) key.

Definition GetPointPositions (ls : t) : result Tensor.t := GetPointAttr ls "positions".

Definition GetLineAttr (ls : t) (key : string) : result Tensor.t :=
  TensorMap.at_ (line_attr_ ls) key.

Definition GetLineIndices (ls : t) : result Tensor.t := GetLineAttr ls "indices".

Definition GetLineColors (ls : t) : result Tensor.t := GetLineAttr ls "colors".

Definition RemovePointAttr (ls : t) (key : string) : result t :=
  m ← TensorMap.Erase (point_attr_ ls) key;
  Ok (mk (device_ ls) m (line_attr_ ls)).

Definition RemoveLineAttr (ls : t) (key : string) : result t :=
  m ← TensorMap.Erase (line_attr_ ls) key;
  Ok (mk (device_ ls) (point_attr_ ls) m).

Definition SetPointAttr (ls : t) (key : string) (value : Tensor.t) : result t :=
  _ ← Tensor.AssertDevice value (device_ ls);
  Ok (mk (device_ ls) (TensorMap.assign (point_attr_ ls) key value) (line_attr_ ls)).

Definition SetLineAttr (ls : t) (key : string) (value : Tensor.t) : result t :=
  _ ← Tensor.AssertDevice value (device_ ls);
  Ok (mk (device_ ls) (point_attr_ ls) (TensorMap.assign (line_attr_ ls) key value)).

Definition Clear (ls : t) : t :=
  mk (device_ ls) (TensorMap.clear (point_attr_ ls)) (TensorMap.clear (line_attr_ ls)).

Section reading.
Context {F : Type} `{!Scalar F}.

Definition SetPointPositions (ls : t) (value : Tensor.t) (h : heap F) : result t :=
  _ ← AssertShapeCompatible value [None; Some 3] h;
  SetPointAttr ls "positions" value.

Definition SetLineIndices (ls : t) (value : Tensor.t) (h : heap F) : result t :=
  _ ← AssertShapeCompatible value [None; Some 2] h;
  SetLineAttr ls "indices" value.

Definition SetLineColors (ls : t) (value : Tensor.t) (h : heap F) : result t :=
  _ ← AssertShapeCompatible value [None; Some 3] h;
  SetLineAttr ls "colors" value.

(** [a && b && c] evaluates left to right and stops at the first false. *)
Definition HasPointAttr (ls : t) (key : string) (h : heap F) : result bool :=
  if TensorMap.Contains (point_attr_ ls) key then
    a ← GetPointAttr ls key;
    n ← Tensor.GetLength a h;
    if bool_decide (0 < n) then
      a' ← GetPointAttr ls key;
      n' ← Tensor.GetLength a' h;
      p ← GetPointPositions ls;
      m ← Tensor.GetLength p h;
      Ok (bool_decide (n' = m))
    else Ok false
  else Ok false.

Definition HasPointPositions (ls : t) (h : heap F) : result bool :=
  HasPointAttr ls "positions" h.

Definition HasLineAttr (ls : t) (key : string) (h : heap F) : result bool :=
  if TensorMap.Contains (line_attr_ ls) key then
    a ← GetLineAttr ls key;
    n ← Tensor.GetLength a h;
    if bool_decide (0 < n) then
      a' ← GetLineAttr ls key;
      n' ← Tensor.GetLength a' h;
      p ← GetLineIndices ls;
      m ← Tensor.GetLength p h;
      Ok (bool_decide (n' = m))
    else Ok false
  else Ok false.

Definition HasLineIndices (ls : t) (h : heap F) : result bool :=
  HasLineAttr ls "indices" h.

Definition HasLineColors (ls : t) (h : heap F) : result bool :=
  HasLineAttr ls "colors" h.

Definition IsEmpty (ls : t) (h : heap F) : result bool :=
  negb <$> HasPointPositions ls h.

(** [GetPointPositions().Mean({0})] *)
Definition GetCenter (ls : t) : M F Tensor.t :=
  positions ← lift (GetPointPositions ls);
  Tensor.Mean positions [0].

End reading.

(** Every stored attribute resides on the LineSet's device. *)
Definition on_device (ls : t) : Prop :=
  (∀ key x, TensorMap.map_ (point_attr_ ls) !! key = Some x →
            Tensor.device_ x = device_ ls) ∧
  (∀ key x, TensorMap.map_ (line_attr_ ls) !! key = Some x →
            Tensor.device_ x = device_ ls).

End LineSet.

(** ** t::geometry::PointCloud *)

(** Modelled from the spec: open3d/t/geometry/PointCloud.h is not among the
    sources.  The point cloud is the attribute store of the spec ("an
    attribute is valid only if present, non-empty, and of length equal to
    the point count"), written as LineSet.h writes the same accessors. *)

Module PointCloud.

Record t := mk { device_ : Device; point_attr_ : TensorMap.t }.

Definition GetDevice (pc : t) : Device := device_ pc.

Definition GetPointAttr (pc : t) (key : string) : result Tensor.t :=
  TensorMap.at_ (point_attr_ pc) key.

Definition GetPoints (pc : t) : result Tensor.t := GetPointAttr pc "positions".
Definition GetPointNormals (pc : t) : result Tensor.t := GetPointAttr pc "normals".
Definition GetPointColors (pc : t) : result Tensor.t := GetPointAttr pc "colors".

Section reading.
Context {F : Type} `{!Scalar F}.

Definition HasPointAttr (pc : t) (key : string) (h : heap F) : result bool :=
  if TensorMap.Contains (point_attr_ pc) key then
    a ← GetPointAttr pc key;
    n ← Tensor.GetLength a h;
    if bool_decide (0 < n) then
      p ← GetPoints pc;
      m ← Tensor.GetLength p h;
      Ok (bool_decide (n = m))
    else Ok false
  else Ok false.

Definition HasPointNormals (pc : t) (h : heap F) : result bool := HasPointAttr pc "normals" h.
Definition HasPointColors (pc : t) (h : heap F) : result bool := HasPointAttr pc "colors" h.

End reading.
End PointCloud.

(** ** pipelines::kernel

    open3d/t/pipelines/kernel/ComputeTransform.h and
    TransformationConverter.h are not among the sources: the estimators are
    parameterised by the kernels they call. *)

Class Kernels (F : Type) := {
  RobustKernel : Type;
  ComputeRtPointToPoint :
    Tensor.t → Tensor.t → Tensor.t → M F (Tensor.t * Tensor.t);
  RtToTransformation : Tensor.t → Tensor.t → M F Tensor.t;
  ComputePosePointToPlane :
    Tensor.t → Tensor.t → Tensor.t → Tensor.t → RobustKernel → M F Tensor.t;
  ComputePoseColoredICP :
    Tensor.t → Tensor.t → Tensor.t → Tensor.t → Tensor.t → Tensor.t →
    Tensor.t → RobustKernel → F → M F Tensor.t;
  PoseToTransformation : Tensor.t → M F Tensor.t;
}.

(** [if (cond) utility::LogError(msg);] *)
Definition LogError_if {F} (cond : bool) (fmt : string) (args : list Device) : M F unit :=
  if cond then lift (Err (LogError fmt args)) else mret ().

(** ** TransformationEstimation.cpp *)

Module TransformationEstimationPointToPoint.
Section methods.
Context {F : Type} `{!Scalar F} `{!Kernels F}.

Definition ComputeRMSE (source target : PointCloud.t) (correspondences : Tensor.t) : M F F :=
  let device := PointCloud.GetDevice source in
  target_points ← lift (PointCloud.GetPoints target);
  source_points ← lift (PointCloud.GetPoints source);
  _ ← lift (Tensor.AssertDtype target_points (Tensor.GetDtype source_points));
  _ ← LogError_if (bool_decide (PointCloud.GetDevice target ≠ device))
        "Target Pointcloud device {} != Source Pointcloud's device {}."
        [PointCloud.GetDevice target; device];
  ne ← Tensor.Ne correspondences (-1);
  valid ← Tensor.Reshape ne;
  neighbours ← Tensor.IndexGet correspondences valid;
  neighbour_indices ← Tensor.Reshape neighbours;
  source_points_indexed ← Tensor.IndexGet source_points valid;
  target_points_indexed ← Tensor.IndexGet target_points neighbour_indices;
  error_t ← Tensor.Sub source_points_indexed target_points_indexed;
  _ ← Tensor.Mul_ error_t error_t;
  sum ← Tensor.Sum error_t [0; 1];
  sum64 ← Tensor.To sum Float64;
  error ← Tensor.Item sum64;
  n ← reading (Tensor.GetLength neighbour_indices);
  mret (fsqrt (fdiv error (of_int (Z.of_nat n)))).

Definition ComputeTransformation (source target : PointCloud.t)
    (correspondences : Tensor.t) : M F Tensor.t :=
  source_points ← lift (PointCloud.GetPoints source);
  target_points ← lift (PointCloud.GetPoints target);
  Rt ← ComputeRtPointToPoint source_points target_points correspondences;
  RtToTransformation Rt.1 Rt.2.

End methods.
End TransformationEstimationPointToPoint.

Module TransformationEstimationPointToPlane.
Section methods.
Context {F : Type} `{!Scalar F} `{!Kernels F}.

Record t := mk { kernel_ : RobustKernel }.

Definition ComputeRMSE (this : t) (source target : PointCloud.t)
    (correspondences : Tensor.t) : M F F :=
  has_normals ← reading (PointCloud.HasPointNormals target);
  _ ← LogError_if (negb has_normals) "Target pointcloud missing normals attribute." [];
  let device := PointCloud.GetDevice source in
  target_points ← lift (PointCloud.GetPoints target);
  _ ← lift (Tensor.AssertDevice target_points device);
  _ ← lift (Tensor.AssertDevice correspondences device);
  source_points ← lift (PointCloud.GetPoints source);
  let dtype := Tensor.GetDtype source_points in
  _ ← lift (Tensor.AssertDtype target_points dtype);
  target_normals ← lift (PointCloud.GetPointNormals target);
  _ ← lift (Tensor.AssertDtype target_normals dtype);
  _ ← lift (Tensor.AssertDtype correspondences Int64);
  ne ← Tensor.Ne correspondences (-1);
  valid ← Tensor.Reshape ne;
  neighbours ← Tensor.IndexGet correspondences valid;
  neighbour_indices ← Tensor.Reshape neighbours;
  source_points_indexed ← Tensor.IndexGet source_points valid;
  target_points_indexed ← Tensor.IndexGet target_points neighbour_indices;
  target_normals_indexed ← Tensor.IndexGet target_normals neighbour_indices;
  diff ← Tensor.Sub source_points_indexed target_points_indexed;
  error_t ← Tensor.Mul_ diff target_normals_indexed;
  _ ← Tensor.Mul_ error_t error_t;
  sum ← Tensor.Sum error_t [0; 1];
  sum64 ← Tensor.To sum Float64;
  error ← Tensor.Item sum64;
  n ← reading (Tensor.GetLength neighbour_indices);
  mret (fsqrt (fdiv error (of_int (Z.of_nat n)))).

Definition ComputeTransformation (this : t) (source target : PointCloud.t)
    (correspondences : Tensor.t) : M F Tensor.t :=
  has_normals ← reading (PointCloud.HasPointNormals target);
  _ ← LogError_if (negb has_normals) "Target pointcloud missing normals attribute." [];
  source_points ← lift (PointCloud.GetPoints source);
  target_points ← lift (PointCloud.GetPoints target);
  target_normals ← lift (PointCloud.GetPointNormals target);
  pose ← ComputePosePointToPlane source_points target_points target_normals
           correspondences (kernel_ this);
  PoseToTransformation pose.

End methods.
End TransformationEstimationPointToPlane.

Module TransformationEstimationForColoredICP.
Section methods.
Context {F : Type} `{!Scalar F} `{!Kernels F}.

Record t := mk { kernel_ : RobustKernel; lambda_geometric_ : F }.

(** The three attribute checks both methods start with; [||] evaluates the
    source only when the target has colors. *)
Definition check_attributes (source target : PointCloud.t) : M F unit :=
  target_colors ← reading (PointCloud.HasPointColors target);
  source_colors ← (if target_colors then reading (PointCloud.HasPointColors source)
                   else mret false);
  _ ← LogError_if (negb target_colors || negb source_colors)
        "Source and/or Target pointcloud missing colors attribute." [];
  has_normals ← reading (PointCloud.HasPointNormals target);
  _ ← LogError_if (negb has_normals) "Target pointcloud missing normals attribute." [];
  has_gradients ← reading (PointCloud.HasPointAttr target "color_gradients");
  LogError_if (negb has_gradients) "Target pointcloud missing color_gradients attribute." [].

Definition ComputeRMSE (this : t) (source target : PointCloud.t)
    (correspondences : Tensor.t) : M F F :=
  _ ← check_attributes source target;
  source_points ← lift (PointCloud.GetPoints source);
  let device := Tensor.GetDevice source_points in
  target_points ← lift (PointCloud.GetPoints target);
  _ ← lift (Tensor.AssertDevice target_points device);
  _ ← lift (Tensor.AssertDevice correspondences device);
  let dtype := Tensor.GetDtype source_points in
  source_colors ← lift (PointCloud.GetPointColors source);
  _ ← lift (Tensor.AssertDtype source_colors dtype);
  _ ← lift (Tensor.AssertDtype target_points dtype);
  target_normals ← lift (PointCloud.GetPointNormals target);
  _ ← lift (Tensor.AssertDtype target_normals dtype);
  target_colors ← lift (PointCloud.GetPointColors target);
  _ ← lift (Tensor.AssertDtype target_colors dtype);
  target_gradients ← lift (PointCloud.GetPointAttr target "color_gradients");
  _ ← lift (Tensor.AssertDtype target_gradients dtype);
  _ ← lift (Tensor.AssertDtype correspondences Int64);
  let sqrt_lambda_geometric := fsqrt (lambda_geometric_ this) in
  let lambda_photometric := fsub fone (lambda_geometric_ this) in
  let sqrt_lambda_photometric := fsqrt lambda_photometric in
  ne ← Tensor.Ne correspondences (-1);
  valid ← Tensor.Reshape ne;
  neighbours ← Tensor.IndexGet correspondences valid;
  neighbour_indices ← Tensor.Reshape neighbours;
  vs ← Tensor.IndexGet source_points valid;
  cs ← Tensor.IndexGet source_colors valid;
  vt ← Tensor.IndexGet target_points neighbour_indices;
  nt ← Tensor.IndexGet target_normals neighbour_indices;
  ct ← Tensor.IndexGet target_colors neighbour_indices;
  dit ← Tensor.IndexGet target_gradients neighbour_indices;
  (* d = (vs - vt).Mul(nt).Sum({1}) *)
  vs_vt ← Tensor.Sub vs vt;
  vs_vt_nt ← Tensor.Mul vs_vt nt;
  d ← Tensor.Sum vs_vt_nt [1];
  (* vs_proj = vs - d.Mul(nt) *)
  d_nt ← Tensor.Mul d nt;
  vs_proj ← Tensor.Sub vs d_nt;
  is_ ← Tensor.Mean cs [1];
  it_ ← Tensor.Mean ct [1];
  (* is_proj = (dit.Mul(vs_proj - vt)).Sum({1}).Add(it) *)
  vs_proj_vt ← Tensor.Sub vs_proj vt;
  dit_proj ← Tensor.Mul dit vs_proj_vt;
  dit_dot ← Tensor.Sum dit_proj [1];
  is_proj ← Tensor.Add dit_dot it_;
  (* residual_geometric = d.Mul(sqrt_lambda_geometric).Sum({1}) *)
  d_scaled ← Tensor.MulScalar d sqrt_lambda_geometric;
  residual_geometric ← Tensor.Sum d_scaled [1];
  sq_residual_geometric ← Tensor.Mul residual_geometric residual_geometric;
  (* residual_photometric = (is - is_proj).Mul(sqrt_lambda_photometric).Sum({1}) *)
  is_diff ← Tensor.Sub is_ is_proj;
  is_scaled ← Tensor.MulScalar is_diff sqrt_lambda_photometric;
  residual_photometric ← Tensor.Sum is_scaled [1];
  sq_residual_photometric ← Tensor.Mul residual_photometric residual_photometric;
  total ← Tensor.Add_ sq_residual_geometric sq_residual_photometric;
  sum ← Tensor.Sum total [0];
  sum64 ← Tensor.To sum Float64;
  Tensor.Item sum64.

Definition ComputeTransformation (this : t) (source target : PointCloud.t)
    (correspondences : Tensor.t) : M F Tensor.t :=
  _ ← check_attributes source target;
  source_points ← lift (PointCloud.GetPoints source);
  source_colors ← lift (PointCloud.GetPointColors source);
  target_points ← lift (PointCloud.GetPoints target);
  target_normals ← lift (PointCloud.GetPointNormals target);
  target_colors ← lift (PointCloud.GetPointColors target);
  target_gradients ← lift (PointCloud.GetPointAttr target "color_gradients");
  pose ← ComputePoseColoredICP source_points source_colors target_points
           target_normals target_colors target_gradients correspondences
           (kernel_ this) (lambda_geometric_ this);
  PoseToTransformation pose.

End methods.
End TransformationEstimationForColoredICP.

(** ** What the estimators are specified to compute

    The correspondence array pairs source row [i] with target row [C_i]
    unless [C_i] is the sentinel -1. *)

Definition sentinel : Z := (-1)%Z.

(** The source rows that have a correspondence, in order. *)
Definition valid_sources {A} (S : list A) (C : list Z) : list A :=
  fst <$> filter (λ pc, pc.2 ≠ sentinel) (zip S C).

(** The non-sentinel entries, in order. *)
Definition valid_indices (C : list Z) : list Z := filter (λ c, c ≠ sentinel) C.

(** The target rows they name. *)
Definition valid_targets {A} (T : list A) (C : list Z) : list A :=
  omap (λ c, T !! Z.to_nat c) (valid_indices C).

Definition n_valid (C : list Z) : nat := length (valid_indices C).

(** Every entry is the sentinel or an index into a target of [len] rows. *)
Definition in_range (len : nat) (C : list Z) : Prop :=
  Forall (λ c, c = sentinel ∨ (0 ≤ c < Z.of_nat len)%Z) C.

Section formulas.
Context {F : Type} `{!Scalar F}.

Definition sq (x : F) : F := fmul x x.

(** Σ_j a_j *)
Fixpoint total (l : list F) : F :=
  match l with
  | [] => fzero
  | a :: l => fadd a (total l)
  end.

(** n · (p − q) *)
Definition plane_distance (p q n : list F) : F :=
  total (zip_with fmul (zip_with fsub p q) n).

(** sqrt(Σ(n_i · (p_i − q_i))² / n_valid) over the valid correspondences. *)
Definition rmse_point_to_plane (S T N : list (list F)) (C : list Z) : F :=
  fsqrt (fdiv (total (zip_with (λ pq n, sq (plane_distance pq.1 pq.2 n))
                        (zip (valid_sources S C) (valid_targets T C))
                        (valid_targets N C)))
              (of_int (Z.of_nat (n_valid C)))).

(** *** The formulas in the arithmetic of the points

    The points are Float32 or Float64 and so are their differences,
    products and sums: each is the nearest value of the dtype.  A sum is
    taken in the order of its terms, pair after pair and coordinate after
    coordinate, from 0.  The quotient by n_valid and the square root are
    those of [double]. *)

(** acc + ‖p − q‖²: the squares (p_j − q_j)² added to [acc], j = 0, 1, 2. *)
Fixpoint add_squared_distance (dtype : Dtype) (acc : F) (p q : list F) : F :=
  match p, q with
  | a :: p, b :: q =>
      let d := round_to dtype (fsub a b) in
      add_squared_distance dtype (round_to dtype (fadd acc (round_to dtype (fmul d d)))) p q
  | _, _ => acc
  end.

(** acc + Σ_i ‖p_i − q_i‖² over the pairs of [P] and [Q]. *)
Fixpoint add_squared_distances (dtype : Dtype) (acc : F) (P Q : list (list F)) : F :=
  match P, Q with
  | p :: P, q :: Q => add_squared_distances dtype (add_squared_distance dtype acc p q) P Q
  | _, _ => acc
  end.

(** sqrt(Σ‖p_i − q_i‖² / n_valid) over the valid correspondences. *)
Definition rmse_point_to_point (dtype : Dtype) (S T : list (list F)) (C : list Z) : F :=
  fsqrt (fdiv (add_squared_distances dtype fzero (valid_sources S C) (valid_targets T C))
              (of_int (Z.of_nat (n_valid C)))).

(** acc + Σ_j ((p_j − q_j) n_j)²: each product of a component of the
    displacement with the component of the normal is squared on its own. *)
Fixpoint add_squared_components (dtype : Dtype) (acc : F) (p q n : list F) : F :=
  match p, q, n with
  | a :: p, b :: q, c :: n =>
      let e := round_to dtype (fmul (round_to dtype (fsub a b)) c) in
      add_squared_components dtype (round_to dtype (fadd acc (round_to dtype (fmul e e)))) p q n
  | _, _, _ => acc
  end.

(** acc + Σ_i Σ_j ((p_ij − q_ij) n_ij)² over the triples of [P], [Q], [N]. *)
Fixpoint add_squared_components_all (dtype : Dtype) (acc : F) (P Q N : list (list F)) : F :=
  match P, Q, N with
  | p :: P, q :: Q, n :: N =>
      add_squared_components_all dtype (add_squared_components dtype acc p q n) P Q N
  | _, _, _ => acc
  end.

(** What PointToPlane::ComputeRMSE adds up instead of the squared
    residuals (n_i · (p_i − q_i))². *)
Definition rmse_squared_components (dtype : Dtype) (S T N : list (list F)) (C : list Z) : F :=
  fsqrt (fdiv (add_squared_components_all dtype fzero
                 (valid_sources S C) (valid_targets T C) (valid_targets N C))
              (of_int (Z.of_nat (n_valid C)))).

(** [a − a] is 0 in the arithmetic of [dtype]: so it is for a finite [a],
    and not for an infinity or a NaN. *)
Definition cancels (dtype : Dtype) (a : F) : Prop :=
  rounded dtype fsub a a = fzero.

(** The square of [0 · c] is 0 in the arithmetic of [dtype]: so it is for
    a finite [c]. *)
Definition annihilated (dtype : Dtype) (c : F) : Prop :=
  rounded dtype fmul (rounded dtype fmul fzero c) (rounded dtype fmul fzero c) = fzero.

End formulas.

(** The three messages of the attribute checks. *)
Definition missing_colors : error :=
  LogError "Source and/or Target pointcloud missing colors attribute." [].
Definition missing_normals : error :=
  LogError "Target pointcloud missing normals attribute." [].
Definition missing_color_gradients : error :=
  LogError "Target pointcloud missing color_gradients attribute." [].

(** ** Inputs as the data model of the spec has them

    Positions, normals, colors and color gradients are N×3 floating
    tensors on the device of their point cloud; the correspondence array
    is a 1-dimensional Int64 tensor with one entry per source point, each
    the sentinel or an index into the target. *)

Section inputs.
Context {F : Type} `{!Scalar F}.

(** The attribute [key] of [pc] is the tensor [x], which holds [rows]. *)
Record attribute (h : heap F) (pc : PointCloud.t) (key : string) (x : Tensor.t)
    (rows : list (list F)) : Prop := {
  attr_key : PointCloud.GetPointAttr pc key = Ok x;
  attr_data : Tensor.deref x h = Ok (DF (A2 3 rows));
  attr_rows : Forall (λ r, length r = 3) rows;
  attr_device : Tensor.device_ x = PointCloud.GetDevice pc;
}.

Record PointToPointInput (h : heap F) (source target : PointCloud.t)
    (correspondences sp tp : Tensor.t) (S T : list (list F)) (C : list Z) : Prop := {
  source_points : attribute h source "positions" sp S;
  target_points : attribute h target "positions" tp T;
  target_dtype : Tensor.dtype_ tp = Tensor.dtype_ sp;
  target_device : PointCloud.GetDevice target = PointCloud.GetDevice source;
  corr_data : Tensor.deref correspondences h = Ok (DI (A1 C));
  corr_length : length C = length S;
  corr_range : in_range (length T) C;
  corr_dtype : Tensor.dtype_ correspondences = Int64;
  corr_device : Tensor.device_ correspondences = PointCloud.GetDevice source;
}.

Record PointToPlaneInput (h : heap F) (source target : PointCloud.t)
    (correspondences sp tp tn : Tensor.t) (S T N : list (list F)) (C : list Z) : Prop := {
  plane_points : PointToPointInput h source target correspondences sp tp S T C;
  has_normals : PointCloud.HasPointNormals target h = Ok true;
  target_normals : attribute h target "normals" tn N;
  normals_length : length N = length T;
  normals_dtype : Tensor.dtype_ tn = Tensor.dtype_ sp;
}.

Record ColoredICPInput (h : heap F) (source target : PointCloud.t)
    (correspondences sp sc tp tn tc tg : Tensor.t)
    (S SC T N TC G : list (list F)) (C : list Z) : Prop := {
  colored_points : PointToPlaneInput h source target correspondences sp tp tn S T N C;
  has_source_colors : PointCloud.HasPointColors source h = Ok true;
  has_target_colors : PointCloud.HasPointColors target h = Ok true;
  has_gradients : PointCloud.HasPointAttr target "color_gradients" h = Ok true;
  source_colors : attribute h source "colors" sc SC;
  target_colors : attribute h target "colors" tc TC;
  target_gradients : attribute h target "color_gradients" tg G;
  source_colors_length : length SC = length S;
  target_colors_length : length TC = length T;
  gradients_length : length G = length T;
  source_colors_dtype : Tensor.dtype_ sc = Tensor.dtype_ sp;
  target_colors_dtype : Tensor.dtype_ tc = Tensor.dtype_ sp;
  gradients_dtype : Tensor.dtype_ tg = Tensor.dtype_ sp;
}.

(** What is left of a run for a caller that holds the result: the data of
    the returned tensor, or the exception. *)
Definition value_of (r : result Tensor.t * heap F) : result (Data F) :=
  match r.1 with
  | Ok x => Tensor.deref x r.2
  | Err e => Err e
  end.

End inputs.

(** ** Stores that grow, and column buffers *)

(** [h'] holds the buffers of [h] at their addresses. *)
Definition extends {F} (h h' : heap F) : Prop := ∀ l, l < length h → h' !! l = h !! l.

(** An N×1 buffer holding the elements of [l], one per row. *)
Definition column {A} (l : list A) : Arr A := A2 1 (map (λ a, [a]) l).

(** ** The kernels as the spec describes them *)

(** Modelled from the spec: kernel/ComputeTransform.h and
    kernel/TransformationConverter.h are not among the sources.  Section
    4.4 of the spec: ComputeTransformation performs "the same gather step"
    as ComputeRMSE, "then delegates to the matching kernel", after the
    validation of devices and dtypes; section 3: "kernels allocate new
    tensors for intermediate gathered subsets and the final transform".
    The solvers of sections 4.1 to 4.3 (SVD, normal equations) and the two
    conversions to a 4×4 matrix stay parameters. *)

Record Solvers (F : Type) := {
  Loss : Type;
  SolveRt : list (list F) → list (list F) → result (Arr F * Arr F);
  SolvePosePointToPlane :
    list (list F) → list (list F) → list (list F) → Loss → result (Arr F);
  SolvePoseColoredICP :
    list (list F) → list (list F) → list (list F) → list (list F) →
    list (list F) → list (list F) → Loss → F → result (Arr F);
  EmbedRt : Arr F → Arr F → result (Arr F);
  EmbedPose : Arr F → result (Arr F);
}.
Arguments Loss {F} _.
Arguments SolveRt {F} _.
Arguments SolvePosePointToPlane {F} _.
Arguments SolvePoseColoredICP {F} _.
Arguments EmbedRt {F} _.
Arguments EmbedPose {F} _.

Section spec_kernels.
Context {F : Type} `{!Scalar F} (solvers : Solvers F).

Definition rows_of (x : Tensor.t) : M F (list (list F)) :=
  reading (λ h, d ← Tensor.deref x h;
                match d with
                | DF (A2 _ rows) => Ok rows
                | _ => Err (AssertShapeFailed (shape d))
                end).

Definition floats_of (x : Tensor.t) : M F (Arr F) :=
  reading (λ h, d ← Tensor.deref x h;
                match d with
                | DF a => Ok a
                | _ => Err DtypeNotSupported
                end).

Definition fresh (dtype : Dtype) (device : Device) (a : Arr F) : M F Tensor.t :=
  Tensor.allocating dtype device (λ _, Ok (DF a)).

(** The valid mask and the indices of the matched target points. *)
Definition gather_step (correspondences : Tensor.t) : M F (Tensor.t * Tensor.t) :=
  ne ← Tensor.Ne correspondences (-1);
  valid ← Tensor.Reshape ne;
  neighbours ← Tensor.IndexGet correspondences valid;
  neighbour_indices ← Tensor.Reshape neighbours;
  mret (valid, neighbour_indices).

Definition validate (source_points target_points correspondences : Tensor.t) : M F unit :=
  let device := Tensor.GetDevice source_points in
  _ ← lift (Tensor.AssertDevice target_points device);
  _ ← lift (Tensor.AssertDevice correspondences device);
  _ ← lift (Tensor.AssertDtype target_points (Tensor.GetDtype source_points));
  lift (Tensor.AssertDtype correspondences Int64).

Definition spec_ComputeRtPointToPoint (source_points target_points correspondences : Tensor.t)
    : M F (Tensor.t * Tensor.t) :=
  _ ← validate source_points target_points correspondences;
  vn ← gather_step correspondences;
  P ← Tensor.IndexGet source_points vn.1;
  Q ← Tensor.IndexGet target_points vn.2;
  p ← rows_of P;
  q ← rows_of Q;
  Rt ← lift (SolveRt solvers p q);
  R ← fresh Float64 (Tensor.GetDevice source_points) Rt.1;
  t ← fresh Float64 (Tensor.GetDevice source_points) Rt.2;
  mret (R, t).

Definition spec_RtToTransformation (R t : Tensor.t) : M F Tensor.t :=
  r ← floats_of R;
  v ← floats_of t;
  T ← lift (EmbedRt solvers r v);
  fresh Float64 CPU0 T.

Definition spec_ComputePosePointToPlane
    (source_points target_points target_normals correspondences : Tensor.t)
    (kernel : Loss solvers) : M F Tensor.t :=
  _ ← validate source_points target_points correspondences;
  _ ← lift (Tensor.AssertDtype target_normals (Tensor.GetDtype source_points));
  vn ← gather_step correspondences;
  P ← Tensor.IndexGet source_points vn.1;
  Q ← Tensor.IndexGet target_points vn.2;
  N ← Tensor.IndexGet target_normals vn.2;
  p ← rows_of P;
  q ← rows_of Q;
  n ← rows_of N;
  pose ← lift (SolvePosePointToPlane solvers p q n kernel);
  fresh Float64 (Tensor.GetDevice source_points) pose.

Definition spec_ComputePoseColoredICP
    (source_points source_colors target_points target_normals target_colors
     target_gradients correspondences : Tensor.t)
    (kernel : Loss solvers) (lambda_geometric : F) : M F Tensor.t :=
  _ ← validate source_points target_points correspondences;
  let dtype := Tensor.GetDtype source_points in
  _ ← lift (Tensor.AssertDtype source_colors dtype);
  _ ← lift (Tensor.AssertDtype target_normals dtype);
  _ ← lift (Tensor.AssertDtype target_colors dtype);
  _ ← lift (Tensor.AssertDtype target_gradients dtype);
  vn ← gather_step correspondences;
  P ← Tensor.IndexGet source_points vn.1;
  PC ← Tensor.IndexGet source_colors vn.1;
  Q ← Tensor.IndexGet target_points vn.2;
  N ← Tensor.IndexGet target_normals vn.2;
  QC ← Tensor.IndexGet target_colors vn.2;
  G ← Tensor.IndexGet target_gradients vn.2;
  p ← rows_of P;
  pc ← rows_of PC;
  q ← rows_of Q;
  n ← rows_of N;
  qc ← rows_of QC;
  g ← rows_of G;
  pose ← lift (SolvePoseColoredICP solvers p pc q n qc g kernel lambda_geometric);
  fresh Float64 (Tensor.GetDevice source_points) pose.

Definition spec_PoseToTransformation (pose : Tensor.t) : M F Tensor.t :=
  x ← floats_of pose;
  T ← lift (EmbedPose solvers x);
  fresh Float64 CPU0 T.

Definition spec_kernels : Kernels F := {|
  RobustKernel := Loss solvers;
  ComputeRtPointToPoint := spec_ComputeRtPointToPoint;
  RtToTransformation := spec_RtToTransformation;
  ComputePosePointToPlane := spec_ComputePosePointToPlane;
  ComputePoseColoredICP := spec_ComputePoseColoredICP;
  PoseToTransformation := spec_PoseToTransformation;
|}.

(** The transform each variant is specified to return, from the matched rows. *)
Definition transform_point_to_point (S T : list (list F)) (C : list Z) : result (Data F) :=
  Rt ← SolveRt solvers (valid_sources S C) (valid_targets T C);
  DF <$> EmbedRt solvers Rt.1 Rt.2.

Definition transform_point_to_plane (kernel : Loss solvers)
    (S T N : list (list F)) (C : list Z) : result (Data F) :=
  pose ← SolvePosePointToPlane solvers (valid_sources S C) (valid_targets T C)
           (valid_targets N C) kernel;
  DF <$> EmbedPose solvers pose.

Definition transform_colored_icp (kernel : Loss solvers) (lambda_geometric : F)
    (S SC T N TC G : list (list F)) (C : list Z) : result (Data F) :=
  pose ← SolvePoseColoredICP solvers (valid_sources S C) (valid_sources SC C)
           (valid_targets T C) (valid_targets N C) (valid_targets TC C)
           (valid_targets G C) kernel lambda_geometric;
  DF <$> EmbedPose solvers pose.

End spec_kernels.

(** ** A small scene

    Two source points, three target points with normals, colors and color
    gradients, and a third source point for the scenes that append one.
    The first source point is matched with the first target point:
    p = (1, 1, 0), q = (0, 0, 0), n = (1, 1, 0). *)

Section scene.
Context {F : Type} `{!Scalar F}.

Definition row (x y z : Z) : list F := [of_int x; of_int y; of_int z].

Definition scene_S : list (list F) := [row 1 1 0; row 2 0 0].
Definition scene_S' : list (list F) := [row 7 7 7].
Definition scene_SC : list (list F) := [row 1 0 0; row 0 1 0].
Definition scene_SC' : list (list F) := [row 0 0 1].
Definition scene_T : list (list F) := [row 0 0 0; row 5 5 5; row 1 0 0].
Definition scene_N : list (list F) := [row 1 1 0; row 0 0 1; row 0 0 1].
Definition scene_TC : list (list F) := [row 1 1 1; row 0 1 0; row 0 0 1].
Definition scene_G : list (list F) := [row 0 0 0; row 1 0 0; row 0 1 0].

(** Buffers 0 to 6: source positions, target positions, target normals,
    correspondences, source colors, target colors, target gradients. *)
Definition scene_store (S SC : list (list F)) (C : list Z) : heap F :=
  [DF (A2 3 S); DF (A2 3 scene_T); DF (A2 3 scene_N); DI (A1 C);
   DF (A2 3 SC); DF (A2 3 scene_TC); DF (A2 3 scene_G)].

Definition scene_tensor (blob : nat) : Tensor.t := Tensor.mk blob Float64 CPU0.

Definition scene_cloud (attrs : list (string * Tensor.t)) : PointCloud.t :=
  PointCloud.mk CPU0 (TensorMap.mk "positions" (list_to_map attrs)).

Definition scene_source : PointCloud.t :=
  scene_cloud [("positions", scene_tensor 0); ("colors", scene_tensor 4)].

Definition scene_target : PointCloud.t :=
  scene_cloud [("positions", scene_tensor 1); ("normals", scene_tensor 2);
               ("colors", scene_tensor 5); ("color_gradients", scene_tensor 6)].

(** A target with positions only. *)
Definition scene_bare_target : PointCloud.t :=
  scene_cloud [("positions", scene_tensor 1)].

Definition scene_corr : Tensor.t := Tensor.mk 3 Int64 CPU0.

(** The same correspondence array on another device, and as Int32. *)
Definition scene_corr_cuda : Tensor.t := Tensor.mk 3 Int64 CUDA0.
Definition scene_corr_int32 : Tensor.t := Tensor.mk 3 Int32 CPU0.

(** A target with positions and colors; one with all but color gradients. *)
Definition scene_target_without_normals : PointCloud.t :=
  scene_cloud [("positions", scene_tensor 1); ("colors", scene_tensor 5)].

Definition scene_target_without_gradients : PointCloud.t :=
  scene_cloud [("positions", scene_tensor 1); ("normals", scene_tensor 2);
               ("colors", scene_tensor 5)].

(** A LineSet on CPU:0 whose points are the source points of the scene. *)
Definition scene_lines : LineSet.t :=
  LineSet.mk CPU0 (TensorMap.mk "positions" (list_to_map [("positions", scene_tensor 0)]))
    (TensorMap.mk "indices" ∅).

(** "RtToTransformation(R, t): direct embedding". *)
Definition embed_rt (R t : Arr F) : result (Arr F) :=
  match R, t with
  | A2 3 [r1; r2; r3], A1 [t1; t2; t3] =>
      Ok (A2 4 [r1 ++ [t1]; r2 ++ [t2]; r3 ++ [t3]; [fzero; fzero; fzero; fone]])
  | _, _ => Err (AssertShapeFailed (arr_shape R))
  end.

Definition identity3 : Arr F :=
  A2 3 [[fone; fzero; fzero]; [fzero; fone; fzero]; [fzero; fzero; fone]].

(** Solvers that answer the identity motion whatever they are given. *)
Definition identity_solvers : Solvers F := {|
  Loss := unit;
  SolveRt := λ _ _, Ok (identity3, A1 [fzero; fzero; fzero]);
  SolvePosePointToPlane := λ _ _ _ _, Ok (A1 (replicate 6 fzero));
  SolvePoseColoredICP := λ _ _ _ _ _ _ _ _, Ok (A1 (replicate 6 fzero));
  EmbedRt := embed_rt;
  EmbedPose := λ _, embed_rt identity3 (A1 [fzero; fzero; fzero]);
|}.

End scene.

(** The correspondences of the scene once more, as a column in buffer 7. *)
Definition scene_corr_column : Tensor.t := Tensor.mk 7 Int64 CPU0.

(** ** A scene in single precision

    Float32 positions and normals on CPU:0.  [f03] and [f01] are 0.3f and
    0.1f, the Float32 values nearest to 0.3 and 0.1.  The first source
    point is matched with the third target point and the third with the
    first, the second with none; the points of a pair are 0.3f − 0.1f
    apart, along the normal of the target point. *)
Definition f03 : float := 0x1.333334p-2.
Definition f01 : float := 0x1.99999ap-4.

Definition single_S : list (list float) := [[f03; 0; 0]; [7; 7; 7]; [1; 2; f01]]%float.
Definition single_T : list (list float) := [[1; 2; f03]; [5; 5; 5]; [f01; 0; 0]]%float.
Definition single_N : list (list float) := [[0; 0; 1]; [0; 1; 0]; [1; 0; 0]]%float.
Definition single_C : list Z := [2; -1; 0]%Z.

(** Buffers 0 to 3: source positions, target positions, target normals,
    correspondences. *)
Definition single_store : heap float :=
  [DF (A2 3 single_S); DF (A2 3 single_T); DF (A2 3 single_N); DI (A1 single_C)].

Definition single_tensor (blob : nat) : Tensor.t := Tensor.mk blob Float32 CPU0.

Definition single_source : PointCloud.t :=
  scene_cloud [("positions", single_tensor 0)].

Definition single_target : PointCloud.t :=
  scene_cloud [("positions", single_tensor 1); ("normals", single_tensor 2)].

(** The matched points of the scene alone, in the order of their pairs:
    two source points, and the two target points with their normals, the
    first source point matched with the first target point and the second
    with the second. *)
Definition packed_S : list (list float) := [[f03; 0; 0]; [1; 2; f01]]%float.
Definition packed_T : list (list float) := [[f01; 0; 0]; [1; 2; f03]]%float.
Definition packed_N : list (list float) := [[1; 0; 0]; [0; 0; 1]]%float.
Definition packed_C : list Z := [0; 1]%Z.

Definition packed_store : heap float :=
  [DF (A2 3 packed_S); DF (A2 3 packed_T); DF (A2 3 packed_N); DI (A1 packed_C)].

(** Source points at the place of the target points they are matched with:
    the first with the third target point, the second with the first. *)
Definition placed_S : list (list float) := [[f01; 0; 0]; [1; 2; f03]]%float.
Definition placed_C : list Z := [2; 0]%Z.

Definition placed_store : heap float :=
  [DF (A2 3 placed_S); DF (A2 3 single_T); DF (A2 3 single_N); DI (A1 placed_C)].

(** Clouds on CUDA:0 whose positions are Float32 and Float64, and a cloud
    without attributes. *)
Definition single_target_cuda : PointCloud.t :=
  PointCloud.mk CUDA0
    (TensorMap.mk "positions" (list_to_map [("positions", Tensor.mk 1 Float32 CUDA0)])).

Definition scene_target_cuda : PointCloud.t :=
  PointCloud.mk CUDA0
    (TensorMap.mk "positions" (list_to_map [("positions", Tensor.mk 1 Float64 CUDA0)])).

Definition scene_cloud_without_positions : PointCloud.t := scene_cloud [].

(* ===================================================================== *)
(** * Reasoning about the store monad *)

Section monad_rules.
Context {F : Type}.

Lemma bind_Ok {A B} (m : M F A) (k : A → M F B) h a h' :
  m h = (Ok a, h') → (m ≫= k) h = k a h'.
Proof. intros E. unfold mbind, M_bind. by rewrite E. Qed.

Lemma bind_Err {A B} (m : M F A) (k : A → M F B) h e h' :
  m h = (Err e, h') → (m ≫= k) h = (Err e, h').
Proof. intros E. unfold mbind, M_bind. by rewrite E. Qed.

Lemma lift_Ok {A} (r : result A) (a : A) (h : heap F) :
  r = Ok a → lift r h = (Ok a, h).
Proof. by intros ->. Qed.

Lemma reading_Ok {A} (f : heap F → result A) (a : A) (h : heap F) :
  f h = Ok a → reading f h = (Ok a, h).
Proof. unfold reading. by intros ->. Qed.

(** [preserves n m Q]: run from a store with at least [n] buffers, [m]
    leaves the first [n] buffers as they were, whether it returns or
    throws, and a returned value satisfies [Q]. *)
Definition preserves {A} (n : nat) (m : M F A) (Q : A → Prop) : Prop :=
  ∀ h : heap F, n ≤ length h →
    n ≤ length (m h).2 ∧
    (∀ l, l < n → (m h).2 !! l = h !! l) ∧
    (∀ a, (m h).1 = Ok a → Q a).

Lemma preserves_weaken {A} n (m : M F A) (Q R : A → Prop) :
  preserves n m Q → (∀ a, Q a → R a) → preserves n m R.
Proof.
  intros Hm HQR h Hn. destruct (Hm h Hn) as (H1 & H2 & H3).
  repeat split; auto.
Qed.

Lemma preserves_ret {A} n (a : A) (Q : A → Prop) :
  Q a → preserves n (mret a : M F A) Q.
Proof.
  intros HQ h Hn. unfold mret, M_ret. simpl. repeat split; auto.
  intros ? [= <-]. exact HQ.
Qed.

Lemma preserves_bind {A B} n (m : M F A) (k : A → M F B) Q R :
  preserves n m Q → (∀ a, Q a → preserves n (k a) R) →
  preserves n (m ≫= k) R.
Proof.
  intros Hm Hk h Hn. destruct (Hm h Hn) as (H1 & H2 & H3).
  unfold mbind, M_bind. destruct (m h) as [[a|e] h'] eqn:E; simpl in *.
  - destruct (Hk a (H3 a eq_refl) h' H1) as (K1 & K2 & K3).
    repeat split; auto. intros l Hl. rewrite K2 by done. by apply H2.
  - repeat split; auto. intros ? [=].
Qed.

Lemma preserves_lift {A} n (r : result A) :
  preserves n (lift r : M F A) (λ a, r = Ok a).
Proof. intros h Hn. unfold lift. simpl. repeat split; auto. Qed.

Lemma preserves_reading {A} n (f : heap F → result A) :
  preserves n (reading f) (λ _, True).
Proof. intros h Hn. unfold reading. simpl. repeat split; auto. Qed.

Lemma preserves_LogError_if n cond fmt args :
  preserves n (LogError_if (F:=F) cond fmt args) (λ _, True).
Proof.
  intros h Hn. unfold LogError_if. destruct cond; simpl; repeat split; auto.
Qed.

(** An allocation returns a tensor whose buffer is none of the first [n]. *)
Lemma preserves_allocating n dtype device (f : heap F → result (Data F)) :
  preserves n (Tensor.allocating dtype device f) (λ x, n ≤ Tensor.blob_ x).
Proof.
  intros h Hn. unfold Tensor.allocating. destruct (f h) as [d|e]; simpl.
  - rewrite length_app. repeat split; [lia| |].
    + intros l Hl. apply lookup_app_l. lia.
    + intros ? [= <-]. simpl. lia.
  - repeat split; auto. intros ? [=].
Qed.

(** An in-place step on a tensor allocated during the call. *)
Lemma preserves_updating n x (f : heap F → result (Data F)) :
  n ≤ Tensor.blob_ x →
  preserves n (Tensor.updating x f) (λ y, n ≤ Tensor.blob_ y).
Proof.
  intros Hx h Hn. unfold Tensor.updating. destruct (f h) as [d|e]; simpl.
  - rewrite length_insert. repeat split; [lia| |].
    + intros l Hl. apply list_lookup_insert_ne. lia.
    + by intros ? [= <-].
  - repeat split; auto. intros ? [=].
Qed.

End monad_rules.

(** * Gathering along the correspondence array *)

Section gather_lemmas.
Context {A : Type}.
Implicit Types (S T : list A) (C : list Z).

Lemma gather_nil (l : list A) : Tensor.gather [] l = Ok [].
Proof. done. Qed.

Lemma gather_cons i (ix : list nat) (l : list A) x ys :
  l !! i = Some x → Tensor.gather ix l = Ok ys →
  Tensor.gather (i :: ix) l = Ok (x :: ys).
Proof.
  unfold Tensor.gather. intros Hx Hys. cbn [Tensor.traverse].
  rewrite Hx, Hys. done.
Qed.

Lemma gather_lookup (ix : list nat) (l : list A) :
  Forall (λ i, i < length l) ix →
  Tensor.gather ix l = Ok (omap (λ i, l !! i) ix).
Proof.
  induction 1 as [|i ix Hi _ IH]; [done|].
  destruct (lookup_lt_is_Some_2 l i Hi) as [x Hx].
  cbn [omap list_omap]. rewrite Hx. by apply gather_cons.
Qed.

Lemma gather_NonZero_from (pre S : list A) C :
  length C ≤ length S →
  Tensor.gather (Tensor.NonZero_from (length pre) (map (λ z, negb (z =? -1)%Z) C)) (pre ++ S)
  = Ok (valid_sources S C).
Proof.
  revert pre S. induction C as [|c C IH]; intros pre S Hlen.
  - by destruct S.
  - destruct S as [|p S]; simpl in Hlen; [lia|].
    specialize (IH (pre ++ [p]) S ltac:(lia)).
    rewrite length_app in IH. simpl in IH. rewrite Nat.add_1_r, <- app_assoc in IH.
    simpl in IH. unfold valid_sources. cbn [zip zip_with map Tensor.NonZero_from].
    rewrite filter_cons. cbn [snd].
    unfold sentinel. destruct (Z.eqb_spec c (-1)) as [->|Hc]; cbn [negb app].
    + rewrite decide_False by (intros ?; done). exact IH.
    + rewrite decide_True by done. cbn [fmap list_fmap fst].
      apply gather_cons; [by rewrite list_lookup_middle|exact IH].
Qed.

Lemma gather_NonZero S C :
  length C ≤ length S →
  Tensor.gather (Tensor.NonZero (map (λ z, negb (z =? -1)%Z) C)) S = Ok (valid_sources S C).
Proof. intros. by apply (gather_NonZero_from [] S C). Qed.

Lemma valid_sources_self C : valid_sources C C = valid_indices C.
Proof.
  unfold valid_sources, valid_indices. induction C as [|c C IH]; [done|].
  cbn [zip zip_with]. rewrite !filter_cons. cbn [snd]. case_decide; cbn; by rewrite IH.
Qed.

Lemma valid_sources_length S C :
  length C ≤ length S → length (valid_sources S C) = n_valid C.
Proof.
  unfold valid_sources, n_valid, valid_indices. revert S.
  induction C as [|c C IH]; intros S Hlen; [by destruct S|].
  destruct S as [|p S]; simpl in Hlen; [lia|]. cbn [zip zip_with].
  rewrite !filter_cons. cbn [snd]. case_decide; cbn; rewrite IH; auto; lia.
Qed.

Lemma valid_indices_in_range len C :
  in_range len C → Forall (λ c, (0 ≤ c < Z.of_nat len)%Z) (valid_indices C).
Proof.
  unfold in_range, valid_indices. induction 1 as [|c C Hc _ IH]; [constructor|].
  rewrite filter_cons. case_decide; [|done]. constructor; [|done].
  by destruct Hc.
Qed.

Lemma index_at_Ok len (c : Z) :
  (0 ≤ c < Z.of_nat len)%Z → Tensor.index_at len c = Ok (Z.to_nat c).
Proof. intros. unfold Tensor.index_at. by rewrite decide_True. Qed.

Lemma traverse_index_at len (zs : list Z) :
  Forall (λ c, (0 ≤ c < Z.of_nat len)%Z) zs →
  Tensor.traverse (Tensor.index_at len) zs = Ok (Z.to_nat <$> zs).
Proof.
  induction 1 as [|c zs Hc _ IH]; [done|]. cbn [Tensor.traverse].
  rewrite index_at_Ok by done.
  rewrite IH. done.
Qed.

Lemma gather_targets T C :
  in_range (length T) C →
  Tensor.gather (Z.to_nat <$> valid_indices C) T = Ok (valid_targets T C).
Proof.
  intros H%valid_indices_in_range. rewrite gather_lookup.
  - unfold valid_targets. f_equal. clear H. induction (valid_indices C) as [|c l IH]; [done|].
    cbn. by rewrite IH.
  - apply Forall_fmap. eapply Forall_impl; [exact H|]. simpl. intros; lia.
Qed.

Lemma valid_targets_length T C :
  in_range (length T) C → length (valid_targets T C) = n_valid C.
Proof.
  intros H%valid_indices_in_range. unfold valid_targets, n_valid.
  induction H as [|c l Hc _ IH]; [done|]. cbn.
  destruct (lookup_lt_is_Some_2 T (Z.to_nat c)) as [x ->]; [lia|].
  cbn. by rewrite IH.
Qed.

Lemma valid_sources_Forall (P : A → Prop) S C :
  Forall P S → Forall P (valid_sources S C).
Proof.
  unfold valid_sources. intros H. revert C.
  induction H as [|p S Hp _ IH]; intros [|c C]; cbn [zip zip_with]; try constructor.
  rewrite filter_cons. case_decide; cbn; [constructor|]; auto.
Qed.

Lemma valid_targets_Forall (P : A → Prop) T C :
  Forall P T → Forall P (valid_targets T C).
Proof.
  unfold valid_targets. intros H. induction (valid_indices C) as [|c l IH]; [constructor|].
  cbn. destruct (T !! Z.to_nat c) as [x|] eqn:E; [|done].
  cbn. constructor; [|done]. exact (Forall_lookup_1 _ _ _ _ H E).
Qed.

(** Entries appended with the sentinel, and the source rows under them. *)
Lemma valid_indices_app_sentinel C k :
  valid_indices (C ++ replicate k sentinel) = valid_indices C.
Proof.
  unfold valid_indices. rewrite filter_app.
  assert (filter (λ c, c ≠ sentinel) (replicate k sentinel) = []) as ->.
  { induction k as [|k IH]; [done|]. cbn [replicate]. rewrite filter_cons.
    by rewrite decide_False by (intros ?; done). }
  by rewrite app_nil_r.
Qed.

Lemma valid_sources_app_sentinel S S' C :
  length C = length S →
  valid_sources (S ++ S') (C ++ replicate (length S') sentinel) = valid_sources S C.
Proof.
  unfold valid_sources. intros Hlen.
  rewrite zip_with_app by done. rewrite filter_app, fmap_app.
  assert (filter (λ pc : A * Z, pc.2 ≠ sentinel) (zip S' (replicate (length S') sentinel)) = []) as ->.
  { induction S' as [|p S' IH]; [done|]. cbn [length replicate zip zip_with].
    rewrite filter_cons. cbn [snd].
    by rewrite decide_False by (intros ?; done). }
  by rewrite app_nil_r.
Qed.

Lemma valid_targets_app_sentinel T C k :
  valid_targets T (C ++ replicate k sentinel) = valid_targets T C.
Proof. unfold valid_targets. by rewrite valid_indices_app_sentinel. Qed.

Lemma n_valid_app_sentinel C k : n_valid (C ++ replicate k sentinel) = n_valid C.
Proof. unfold n_valid. by rewrite valid_indices_app_sentinel. Qed.

Lemma in_range_app_sentinel len C k :
  in_range len C → in_range len (C ++ replicate k sentinel).
Proof.
  unfold in_range. intros H. apply Forall_app. split; [done|].
  apply Forall_replicate. by left.
Qed.

(** No valid entry. *)
Lemma valid_indices_none C : Forall (λ c, c = sentinel) C → valid_indices C = [].
Proof.
  unfold valid_indices. induction 1 as [|c C Hc _ IH]; [done|].
  rewrite filter_cons. by rewrite decide_False by (intros ?; done).
Qed.

Lemma valid_sources_none S C : Forall (λ c, c = sentinel) C → valid_sources S C = [].
Proof.
  unfold valid_sources. intros H. revert S.
  induction H as [|c C Hc _ IH]; intros [|p S]; try done.
  cbn [zip zip_with]. rewrite filter_cons. cbn [snd].
  rewrite decide_False by (intros ?; done). apply IH.
Qed.

Lemma in_range_none len C : Forall (λ c, c = sentinel) C → in_range len C.
Proof. unfold in_range. intros H. eapply Forall_impl; [exact H|]. by left. Qed.

End gather_lemmas.

(** * Broadcasting and sums *)

Section broadcast.
Context {F : Type} `{!Scalar F}.

Lemma broadcast_dim_same a : Tensor.broadcast_dim a a = Some a.
Proof. unfold Tensor.broadcast_dim. by rewrite decide_True. Qed.

Lemma broadcast_rev_same s : Tensor.broadcast_rev s s = Some s.
Proof.
  induction s as [|a s IH]; [done|]. cbn [Tensor.broadcast_rev].
  rewrite broadcast_dim_same, IH. done.
Qed.

Lemma BroadcastedShape_same s : Tensor.BroadcastedShape s s = Some s.
Proof.
  unfold Tensor.BroadcastedShape. rewrite broadcast_rev_same. cbn.
  by rewrite reverse_involutive.
Qed.

Lemma expand_list_same {A} (l : list A) : Tensor.expand_list (length l) l = l.
Proof. by destruct l as [|x [|y l]]. Qed.

Lemma expand_self {A} (a : Arr A) :
  arr_wf a → Tensor.expand (arr_shape a) a = Some a.
Proof.
  destruct a as [x|v|c rows]; cbn.
  - done.
  - intros _. by rewrite expand_list_same.
  - intros Hwf. do 2 f_equal.
    assert (map (Tensor.expand_list c) rows = rows) as ->.
    { induction Hwf as [|r rows Hr _ IH]; [done|]. cbn. rewrite IH. f_equal.
      subst c. apply expand_list_same. }
    apply expand_list_same.
Qed.

Lemma BinaryEW_rows dtype (f : F → F → F) c (X Y : list (list F)) :
  Forall (λ r, length r = c) X → Forall (λ r, length r = c) Y →
  length X = length Y →
  Tensor.BinaryEW dtype f (DF (A2 c X)) (DF (A2 c Y))
  = Ok (DF (A2 c (zip_with (zip_with (rounded dtype f)) X Y))).
Proof.
  intros HX HY Hlen. unfold Tensor.BinaryEW. cbn [arr_shape]. rewrite <- Hlen.
  rewrite BroadcastedShape_same.
  pose proof (expand_self (A2 c X) HX) as EX. cbn [arr_shape] in EX.
  pose proof (expand_self (A2 c Y) HY) as EY. cbn [arr_shape] in EY.
  rewrite <- Hlen in EY. rewrite EX, EY. done.
Qed.

Lemma BinaryEW_vec dtype (f : F → F → F) (u v : list F) :
  length u = length v →
  Tensor.BinaryEW dtype f (DF (A1 u)) (DF (A1 v))
  = Ok (DF (A1 (zip_with (rounded dtype f) u v))).
Proof.
  intros Hlen. unfold Tensor.BinaryEW. cbn [arr_shape]. rewrite <- Hlen.
  rewrite BroadcastedShape_same.
  pose proof (expand_self (A1 u) I) as EX. cbn [arr_shape] in EX.
  pose proof (expand_self (A1 v) I) as EY. cbn [arr_shape] in EY.
  rewrite <- Hlen in EY. rewrite EX, EY. done.
Qed.

(** A vector of [n] elements against [n] rows of three: the shapes [n] and
    [n; 3] are aligned at the last dimension, [n] against 3. *)
Lemma BroadcastedShape_vec_rows n c :
  Tensor.BroadcastedShape [n] [n; c] =
  if decide (n = c) then Some [n; c]
  else if decide (n = 1) then Some [n; c]
  else if decide (c = 1) then Some [n; n]
  else None.
Proof.
  unfold Tensor.BroadcastedShape. cbn. unfold Tensor.broadcast_dim.
  repeat case_decide; subst; done.
Qed.

Lemma BinaryEW_vec_rows_Err dtype (f : F → F → F) (v : list F) c (rows : list (list F)) :
  length v = length rows → length v ≠ c → length v ≠ 1 → c ≠ 1 →
  Tensor.BinaryEW dtype f (DF (A1 v)) (DF (A2 c rows))
  = Err (BroadcastError [length v] [length rows; c]).
Proof.
  intros Hlen H1 H2 H3. unfold Tensor.BinaryEW. cbn [arr_shape]. rewrite <- Hlen.
  rewrite BroadcastedShape_vec_rows. by rewrite !decide_False.
Qed.

Lemma zip_with_rows_Forall {A B C} (f : A → B → C) c (X : list (list A)) (Y : list (list B)) :
  Forall (λ r, length r = c) X → Forall (λ r, length r = c) Y →
  Forall (λ r, length r = c) (zip_with (zip_with f) X Y).
Proof.
  intros HX. revert Y. induction HX as [|p X Hp _ IH]; intros Y HY; [constructor|].
  destruct HY as [|q Y Hq HY]; [constructor|]. cbn. constructor; [|by apply IH].
  rewrite length_zip_with. lia.
Qed.

End broadcast.

Section sums.
Context {F : Type} `{!Scalar F}.

(** The sum reduction of the squared differences of the rows adds the
    squared distances of the pairs, one after the other. *)
Lemma foldl_squared_distance dtype acc (p q : list F) :
  foldl (rounded dtype fadd) acc
    (zip_with (rounded dtype fmul)
       (zip_with (rounded dtype fsub) p q) (zip_with (rounded dtype fsub) p q))
  = add_squared_distance dtype acc p q.
Proof.
  revert acc q. induction p as [|a p IH]; intros acc [|b q]; try done.
  cbn. by rewrite IH.
Qed.

Lemma fsum_squared_distances dtype (X Y : list (list F)) :
  Tensor.fsum dtype
    (concat (zip_with (zip_with (rounded dtype fmul))
       (zip_with (zip_with (rounded dtype fsub)) X Y)
       (zip_with (zip_with (rounded dtype fsub)) X Y)))
  = add_squared_distances dtype fzero X Y.
Proof.
  unfold Tensor.fsum. generalize (fzero (F:=F)). intros acc.
  revert acc Y. induction X as [|p X IH]; intros acc [|q Y]; try done.
  cbn [zip_with concat add_squared_distances].
  by rewrite foldl_app, foldl_squared_distance, IH.
Qed.

Lemma foldl_squared_components dtype acc (p q n : list F) :
  foldl (rounded dtype fadd) acc
    (zip_with (rounded dtype fmul)
       (zip_with (rounded dtype fmul) (zip_with (rounded dtype fsub) p q) n)
       (zip_with (rounded dtype fmul) (zip_with (rounded dtype fsub) p q) n))
  = add_squared_components dtype acc p q n.
Proof.
  revert acc q n. induction p as [|a p IH]; intros acc [|b q] [|c n]; try done.
  cbn. by rewrite IH.
Qed.

Lemma fsum_squared_components dtype (X Y N : list (list F)) :
  Tensor.fsum dtype
    (concat (zip_with (zip_with (rounded dtype fmul))
       (zip_with (zip_with (rounded dtype fmul))
          (zip_with (zip_with (rounded dtype fsub)) X Y) N)
       (zip_with (zip_with (rounded dtype fmul))
          (zip_with (zip_with (rounded dtype fsub)) X Y) N)))
  = add_squared_components_all dtype fzero X Y N.
Proof.
  unfold Tensor.fsum. generalize (fzero (F:=F)). intros acc.
  revert acc Y N. induction X as [|p X IH]; intros acc [|q Y] [|n N]; try done.
  cbn [zip_with concat add_squared_components_all].
  by rewrite foldl_app, foldl_squared_components, IH.
Qed.
End sums.

(** * Running the tensor primitives

    During a call the store is [h ++ l]: the caller's buffers [h] followed by
    the temporaries [l] allocated so far. *)

Section run.
Context {F : Type} `{!Scalar F}.
Implicit Types (h l : heap F) (x y : Tensor.t).

Lemma bind_run {A B} (m : M F A) (k : A → M F B) h a h' r :
  m h = (Ok a, h') → k a h' = r → (m ≫= k) h = r.
Proof. intros E <-. by apply bind_Ok. Qed.

Lemma bind_value {A B} (m : M F A) (k : A → M F B) h a h' r :
  m h = (Ok a, h') → (k a h').1 = r → ((m ≫= k) h).1 = r.
Proof. intros E <-. by rewrite (bind_Ok _ _ _ _ _ E). Qed.

Lemma bind_throws {A B} (m : M F A) (k : A → M F B) h e h' :
  m h = (Err e, h') → ((m ≫= k) h).1 = Err e.
Proof. intros E. by rewrite (bind_Err _ _ _ _ _ E). Qed.

Lemma deref_old x h l d : Tensor.deref x h = Ok d → Tensor.deref x (h ++ l) = Ok d.
Proof.
  unfold Tensor.deref. destruct (h !! Tensor.blob_ x) as [d'|] eqn:E; [|done].
  intros [= <-]. by rewrite (lookup_app_l_Some _ _ _ _ E).
Qed.

Lemma deref_new h l i dtype device d :
  l !! i = Some d →
  Tensor.deref (Tensor.mk (length h + i) dtype device) (h ++ l) = Ok d.
Proof.
  intros E. unfold Tensor.deref. cbn [Tensor.blob_].
  rewrite lookup_app_r by lia. replace (length h + i - length h) with i by lia.
  by rewrite E.
Qed.

Lemma allocating_run dtype device (f : heap F → result (Data F)) h l d :
  f (h ++ l) = Ok d →
  Tensor.allocating dtype device f (h ++ l)
  = (Ok (Tensor.mk (length h + length l) dtype device), h ++ (l ++ [d])).
Proof.
  intros E. unfold Tensor.allocating. rewrite E, length_app, app_assoc. done.
Qed.

Lemma allocating_fail dtype device (f : heap F → result (Data F)) h e :
  f h = Err e → Tensor.allocating dtype device f h = (Err e, h).
Proof. intros E. unfold Tensor.allocating. by rewrite E. Qed.

Lemma updating_run i dtype device (f : heap F → result (Data F)) h l d :
  f (h ++ l) = Ok d →
  Tensor.updating (Tensor.mk (length h + i) dtype device) f (h ++ l)
  = (Ok (Tensor.mk (length h + i) dtype device), h ++ <[i := d]> l).
Proof.
  intros E. unfold Tensor.updating. rewrite E. cbn [Tensor.blob_].
  by rewrite insert_app_r.
Qed.

(** Readers on known buffers *)

Lemma not_equal_idx x v h (zs : list Z) :
  Tensor.deref x h = Ok (DI (A1 zs)) →
  Tensor.not_equal x v h = Ok (DB (A1 (map (λ z, negb (z =? v)%Z) zs))).
Proof. intros E. unfold Tensor.not_equal. by rewrite E. Qed.

Lemma index_get_mask_rows x index h c (rows : list (list F)) C :
  Tensor.deref x h = Ok (DF (A2 c rows)) →
  Tensor.deref index h = Ok (DB (A1 (map (λ z, negb (z =? -1)%Z) C))) →
  length C ≤ length rows →
  Tensor.index_get x index h = Ok (DF (A2 c (valid_sources rows C))).
Proof.
  intros Hx Hi Hlen. unfold Tensor.index_get, Tensor.indices.
  rewrite Hx. cbn. rewrite Hi. cbn.
  by rewrite gather_NonZero.
Qed.

Lemma index_get_mask_idx x index h C :
  Tensor.deref x h = Ok (DI (A1 C)) →
  Tensor.deref index h = Ok (DB (A1 (map (λ z, negb (z =? -1)%Z) C))) →
  Tensor.index_get x index h = Ok (DI (A1 (valid_indices C))).
Proof.
  intros Hx Hi. unfold Tensor.index_get, Tensor.indices.
  rewrite Hx. cbn. rewrite Hi. cbn.
  rewrite gather_NonZero by done. by rewrite valid_sources_self.
Qed.

Lemma index_get_idx_rows x index h c (rows : list (list F)) C :
  Tensor.dtype_ index = Int64 →
  Tensor.deref x h = Ok (DF (A2 c rows)) →
  Tensor.deref index h = Ok (DI (A1 (valid_indices C))) →
  in_range (length rows) C →
  Tensor.index_get x index h = Ok (DF (A2 c (valid_targets rows C))).
Proof.
  intros Hdt Hx Hi Hr. unfold Tensor.index_get, Tensor.indices.
  rewrite Hx. cbn. rewrite Hi. cbn.
  rewrite decide_True by done.
  rewrite traverse_index_at by by apply valid_indices_in_range.
  cbn. by rewrite gather_targets.
Qed.

Lemma binary_rows (f : F → F → F) x y h c (X Y : list (list F)) :
  Tensor.device_ x = Tensor.device_ y →
  Tensor.dtype_ x = Tensor.dtype_ y →
  Tensor.deref x h = Ok (DF (A2 c X)) →
  Tensor.deref y h = Ok (DF (A2 c Y)) →
  Forall (λ r, length r = c) X → Forall (λ r, length r = c) Y →
  length X = length Y →
  Tensor.binary f x y h
  = Ok (DF (A2 c (zip_with (zip_with (rounded (Tensor.dtype_ x) f)) X Y))).
Proof.
  intros Hdev Hdt Hx Hy HX HY Hlen. unfold Tensor.binary.
  rewrite !decide_True by done. rewrite Hx, Hy. cbn [mbind result_bind].
  by apply BinaryEW_rows.
Qed.

Lemma binary__rows (f : F → F → F) x y h c (X Y : list (list F)) :
  Tensor.device_ x = Tensor.device_ y →
  Tensor.dtype_ x = Tensor.dtype_ y →
  Tensor.deref x h = Ok (DF (A2 c X)) →
  Tensor.deref y h = Ok (DF (A2 c Y)) →
  Forall (λ r, length r = c) X → Forall (λ r, length r = c) Y →
  length X = length Y →
  Tensor.binary_ f x y h
  = Ok (DF (A2 c (zip_with (zip_with (rounded (Tensor.dtype_ x) f)) X Y))).
Proof.
  intros Hdev Hdt Hx Hy HX HY Hlen. unfold Tensor.binary_.
  rewrite (binary_rows f x y h c X Y) by done. cbn. rewrite Hx. cbn.
  rewrite decide_True; [done|]. rewrite length_zip_with. f_equal. lia.
Qed.

Lemma reduced_all (g : list F → F) x h c (rows : list (list F)) :
  Tensor.deref x h = Ok (DF (A2 c rows)) →
  Tensor.reduced g x [0; 1] h = Ok (DF (A0 (g (concat rows)))).
Proof. intros Hx. unfold Tensor.reduced. rewrite Hx. done. Qed.

Lemma item_scalar x h (v : F) :
  Tensor.dtype_ x = Float64 →
  Tensor.deref x h = Ok (DF (A0 v)) →
  Tensor.item x h = Ok v.
Proof.
  intros Hdt Hx. unfold Tensor.item, Tensor.AssertDtype. rewrite Hx. cbn.
  by rewrite decide_True.
Qed.

Lemma Reshape_vector x h d :
  Tensor.deref x h = Ok d → length (shape d) = 1 →
  Tensor.Reshape x h = (Ok x, h).
Proof. intros Hx Hs. unfold Tensor.Reshape. rewrite Hx. by rewrite decide_True. Qed.

(** [.To(Float64).Item<double>()] of a 0-dimensional floating tensor:
    the copy [To] makes when the dtype differs is the only new buffer. *)
Lemma To_Item_run {B} x h l (v : F) (k : F → M F B) :
  Tensor.deref x (h ++ l) = Ok (DF (A0 v)) →
  ∃ l', (Tensor.To x Float64 ≫= λ s, Tensor.Item s ≫= k) (h ++ l)
        = k v (h ++ (l ++ l')).
Proof.
  intros Hx. unfold Tensor.To. case_decide as Hdt.
  - exists []. rewrite app_nil_r.
    eapply bind_run; [reflexivity|].
    eapply bind_run; [|reflexivity].
    apply reading_Ok. by apply item_scalar.
  - exists [DF (A0 v)].
    eapply bind_run.
    { apply allocating_run. unfold Tensor.converted. rewrite Hx. reflexivity. }
    eapply bind_run; [|reflexivity].
    apply reading_Ok. apply item_scalar; [done|].
    rewrite app_assoc. unfold Tensor.deref. cbn [Tensor.blob_].
    rewrite <- length_app. by rewrite list_lookup_middle.
Qed.

Lemma GetLength_idx x h (zs : list Z) :
  Tensor.deref x h = Ok (DI (A1 zs)) → Tensor.GetLength x h = Ok (length zs).
Proof. intros Hx. unfold Tensor.GetLength. by rewrite Hx. Qed.

End run.

Section more_runs.
Context {F : Type} `{!Scalar F}.
Implicit Types (h : heap F) (x y : Tensor.t).

Lemma expand_list_length {A} n (l : list A) :
  length l = n ∨ length l = 1 → length (Tensor.expand_list n l) = n.
Proof.
  intros [<-|H1]; [by rewrite expand_list_same|].
  destruct l as [|a [|b l]]; try done. cbn. by rewrite length_replicate.
Qed.

Lemma binary_vec_rows (f : F → F → F) x y h (v : list F) (rows : list (list F)) :
  Tensor.device_ x = Tensor.device_ y →
  Tensor.dtype_ x = Tensor.dtype_ y →
  Tensor.deref x h = Ok (DF (A1 v)) →
  Tensor.deref y h = Ok (DF (A2 3 rows)) →
  Forall (λ r, length r = 3) rows →
  length v = length rows →
  length v = 3 ∨ length v = 1 →
  Tensor.binary f x y h
  = Ok (DF (A2 3 (zip_with (zip_with (rounded (Tensor.dtype_ x) f))
                    (replicate (length rows) (Tensor.expand_list 3 v)) rows))).
Proof.
  intros Hdev Hdt Hx Hy Hrows Hlen Hn. unfold Tensor.binary.
  rewrite !decide_True by done. rewrite Hx, Hy. cbn [mbind result_bind].
  unfold Tensor.BinaryEW. cbn [arr_shape]. rewrite Hlen.
  rewrite BroadcastedShape_vec_rows.
  pose proof (expand_self (A2 3 rows) Hrows) as E. cbn [arr_shape] in E.
  rewrite Hlen in Hn.
  destruct Hn as [Hn|Hn]; rewrite Hn in *.
  - rewrite decide_True by done. rewrite E. done.
  - rewrite decide_False by done. rewrite decide_True by done.
    rewrite E. done.
Qed.

Lemma binary_vec_rows_Err (f : F → F → F) x y h (v : list F) (rows : list (list F)) :
  Tensor.device_ x = Tensor.device_ y →
  Tensor.dtype_ x = Tensor.dtype_ y →
  Tensor.deref x h = Ok (DF (A1 v)) →
  Tensor.deref y h = Ok (DF (A2 3 rows)) →
  length v = length rows →
  length v ≠ 3 → length v ≠ 1 →
  Tensor.binary f x y h = Err (BroadcastError [length v] [length rows; 3]).
Proof.
  intros Hdev Hdt Hx Hy Hlen H3 H1. unfold Tensor.binary.
  rewrite !decide_True by done. rewrite Hx, Hy. cbn [mbind result_bind].
  by apply BinaryEW_vec_rows_Err.
Qed.

Lemma binary_vec (f : F → F → F) x y h (u v : list F) :
  Tensor.device_ x = Tensor.device_ y →
  Tensor.dtype_ x = Tensor.dtype_ y →
  Tensor.deref x h = Ok (DF (A1 u)) →
  Tensor.deref y h = Ok (DF (A1 v)) →
  length u = length v →
  Tensor.binary f x y h = Ok (DF (A1 (zip_with (rounded (Tensor.dtype_ x) f) u v))).
Proof.
  intros Hdev Hdt Hx Hy Hlen. unfold Tensor.binary.
  rewrite !decide_True by done. rewrite Hx, Hy. cbn [mbind result_bind].
  by apply BinaryEW_vec.
Qed.

Lemma reduced_rows (g : list F → F) x h c (rows : list (list F)) :
  Tensor.deref x h = Ok (DF (A2 c rows)) →
  Tensor.reduced g x [1] h = Ok (DF (A1 (map g rows))).
Proof. intros Hx. unfold Tensor.reduced. rewrite Hx. done. Qed.

(** A 1-dimensional tensor has no dimension 1. *)
Lemma reduced_vec_dim1 (g : list F → F) x h (v : list F) :
  Tensor.deref x h = Ok (DF (A1 v)) →
  Tensor.reduced g x [1] h = Err (DimOutOfRange 1 1).
Proof. intros Hx. unfold Tensor.reduced. rewrite Hx. done. Qed.

Lemma scaled_vec x (a : F) h (v : list F) :
  Tensor.deref x h = Ok (DF (A1 v)) →
  Tensor.scaled x a h
  = Ok (DF (A1 (map (λ e, rounded (Tensor.dtype_ x) fmul e (round_to (Tensor.dtype_ x) a)) v))).
Proof. intros Hx. unfold Tensor.scaled. rewrite Hx. done. Qed.

Lemma replicate_rows_Forall {A} n c (e : list A) :
  length e = c → Forall (λ r, length r = c) (replicate n e).
Proof. intros. by apply Forall_replicate. Qed.

End more_runs.

Ltac deref_tac :=
  first [ eapply deref_new; reflexivity | eapply deref_old; eassumption ].

Ltac side_tac :=
  try deref_tac; try (cbn; congruence); try done.

Ltac rows_tac :=
  try solve
    [ repeat first [ assumption
                   | apply zip_with_rows_Forall
                   | apply valid_sources_Forall
                   | apply valid_targets_Forall
                   | apply replicate_rows_Forall ]
    | repeat first [ rewrite length_zip_with
                   | rewrite length_map
                   | rewrite length_replicate
                   | rewrite valid_sources_length by (done || lia)
                   | rewrite valid_targets_length by (done || lia) ];
      lia ].

(** One step of a run: [tac] proves what the step returns. *)
Ltac step tac :=
  eapply bind_value; [ tac | cbn [length app insert list_insert Tensor.dtype_ Tensor.device_] ].

Ltac step_lift := step ltac:(apply lift_Ok; first [ eassumption | side_tac ]).
Ltac step_assert :=
  step ltac:(apply lift_Ok; unfold Tensor.AssertDtype, Tensor.AssertDevice, Tensor.GetDtype, Tensor.GetDevice;
             rewrite decide_True by (cbn; congruence); reflexivity).
Tactic Notation "step_alloc" uconstr(lem) :=
  step ltac:(eapply allocating_run; eapply lem; side_tac; rows_tac).
Tactic Notation "step_update" uconstr(lem) :=
  step ltac:(eapply updating_run; eapply lem; side_tac; rows_tac).
Ltac step_reshape := step ltac:(eapply Reshape_vector; [side_tac | done]).
Ltac step_no_error :=
  step ltac:(unfold LogError_if;
             first [ rewrite bool_decide_eq_false_2 by (intros ?; done) | idtac ];
             reflexivity).


(** * What the three ComputeRMSE return *)

Section runs.
Context {F : Type} `{!Scalar F} `{!Kernels F}.

Lemma point_to_point_value h source target corr sp tp S T C :
  PointToPointInput h source target corr sp tp S T C →
  (TransformationEstimationPointToPoint.ComputeRMSE source target corr h).1
  = Ok (rmse_point_to_point (Tensor.dtype_ sp) S T C).
Proof.
  intros [[] [] ? ? ? ? ? ? ?].
  rewrite <- (app_nil_r h).
  unfold TransformationEstimationPointToPoint.ComputeRMSE, PointCloud.GetPoints.
  step_lift. step_lift. step_assert. step_no_error.
  step_alloc not_equal_idx. step_reshape.
  step_alloc index_get_mask_idx. step_reshape.
  step_alloc index_get_mask_rows.
  step_alloc index_get_idx_rows.
  step_alloc binary_rows.
  step_update binary__rows.
  step_alloc reduced_all.
  edestruct (To_Item_run (B:=F)) as [l' ->]; [side_tac|].
  step ltac:(apply reading_Ok; eapply GetLength_idx; side_tac).
  unfold rmse_point_to_point. by rewrite <- fsum_squared_distances.
Qed.

Lemma in_range_length {A B} (T : list A) (N : list B) C :
  length N = length T → in_range (length T) C → in_range (length N) C.
Proof. by intros ->. Qed.

Lemma point_to_plane_value this h source target corr sp tp tn S T N C :
  PointToPlaneInput h source target corr sp tp tn S T N C →
  (TransformationEstimationPointToPlane.ComputeRMSE this source target corr h).1
  = Ok (rmse_squared_components (Tensor.dtype_ sp) S T N C).
Proof.
  intros [[[] [] ? ? ? ? ? ? ?] Hn [] HN ?].
  pose proof (in_range_length _ _ _ HN ltac:(eassumption)) as HrN.
  rewrite <- (app_nil_r h).
  unfold TransformationEstimationPointToPlane.ComputeRMSE,
    PointCloud.GetPoints, PointCloud.GetPointNormals.
  step ltac:(apply reading_Ok; rewrite app_nil_r; exact Hn).
  step_no_error.
  step_lift. step_assert. step_assert. step_lift. step_assert.
  step_lift. step_assert. step_assert.
  step_alloc not_equal_idx. step_reshape.
  step_alloc index_get_mask_idx. step_reshape.
  step_alloc index_get_mask_rows.
  step_alloc index_get_idx_rows.
  step_alloc index_get_idx_rows.
  step_alloc binary_rows.
  step_update binary__rows.
  step_update binary__rows.
  step_alloc reduced_all.
  edestruct (To_Item_run (B:=F)) as [l' ->]; [side_tac|].
  step ltac:(apply reading_Ok; eapply GetLength_idx; side_tac).
  unfold rmse_squared_components. by rewrite <- fsum_squared_components.
Qed.

Lemma check_attributes_run (h : heap F) source target corr sp sc tp tn tc tg S SC T N TC G C :
  ColoredICPInput h source target corr sp sc tp tn tc tg S SC T N TC G C →
  TransformationEstimationForColoredICP.check_attributes source target h = (Ok (), h).
Proof.
  intros [[? Hn ? ? ?] Hsc Htc Hg ? ? ? ? ? ? ? ? ?].
  unfold TransformationEstimationForColoredICP.check_attributes.
  eapply bind_run; [by apply reading_Ok|].
  eapply bind_run; [by apply reading_Ok|].
  eapply bind_run; [reflexivity|].
  eapply bind_run; [by apply reading_Ok|].
  eapply bind_run; [reflexivity|].
  eapply bind_run; [by apply reading_Ok|].
  reflexivity.
Qed.

(** What ColoredICP::ComputeRMSE raises on validated inputs. *)
Definition colored_error (n : nat) : error :=
  if decide (n = 3 ∨ n = 1) then DimOutOfRange 1 1
  else BroadcastError [n] [n; 3].

Lemma colored_icp_value this h source target corr sp sc tp tn tc tg S SC T N TC G C :
  ColoredICPInput h source target corr sp sc tp tn tc tg S SC T N TC G C →
  (TransformationEstimationForColoredICP.ComputeRMSE this source target corr h).1
  = Err (colored_error (n_valid C)).
Proof.
  intros Hin. pose proof (check_attributes_run _ _ _ _ _ _ _ _ _ _ _ _ _ _ _ _ _ Hin) as Hchk.
  destruct Hin as [[[[] [] ? ? ? ? ? ? ?] Hn [] HN ?] Hsc Htc Hg [] [] [] HSC HTC HG ? ? ?].
  pose proof (in_range_length _ _ _ HN ltac:(eassumption)) as HrN.
  pose proof (in_range_length _ _ _ HTC ltac:(eassumption)) as HrTC.
  pose proof (in_range_length _ _ _ HG ltac:(eassumption)) as HrG.
  rewrite <- (app_nil_r h).
  unfold TransformationEstimationForColoredICP.ComputeRMSE,
    PointCloud.GetPoints, PointCloud.GetPointNormals, PointCloud.GetPointColors.
  step ltac:(rewrite app_nil_r; exact Hchk). rewrite <- (app_nil_r h).
  step_lift. step_lift. step_assert. step_assert.
  step_lift. step_assert. step_assert.
  step_lift. step_assert. step_lift. step_assert. step_lift. step_assert. step_assert.
  step_alloc not_equal_idx. step_reshape.
  step_alloc index_get_mask_idx. step_reshape.
  step_alloc index_get_mask_rows.
  step_alloc index_get_mask_rows.
  step_alloc index_get_idx_rows.
  step_alloc index_get_idx_rows.
  step_alloc index_get_idx_rows.
  step_alloc index_get_idx_rows.
  step_alloc binary_rows.
  step_alloc binary_rows.
  step_alloc reduced_rows.
  set (d := map (Tensor.fsum _) _).
  assert (length d = n_valid C) as Hd by (subst d; rows_tac).
  unfold colored_error. case_decide as Hcase.
  - (* [d.Mul(nt)] broadcasts [n] against [n; 3]; [d.Mul(..).Sum({1})] fails *)
    assert (length (Tensor.expand_list 3 d) = 3) as Hexp.
    { apply expand_list_length. rewrite Hd. destruct Hcase as [->| ->]; auto. }
    step ltac:(eapply allocating_run; eapply binary_vec_rows; side_tac; rows_tac;
               by rewrite Hd).
    step_alloc binary_rows.
    step_alloc reduced_rows.
    step_alloc reduced_rows.
    step_alloc binary_rows.
    step_alloc binary_rows.
    step_alloc reduced_rows.
    step_alloc binary_vec.
    step_alloc scaled_vec.
    eapply bind_throws. eapply allocating_fail. eapply reduced_vec_dim1. side_tac.
  - (* [d.Mul(nt)]: [n] against [n; 3] does not broadcast *)
    eapply bind_throws. eapply allocating_fail.
    erewrite binary_vec_rows_Err; side_tac; rows_tac.
    by rewrite Hd, valid_targets_length.
Qed.
End runs.

(** * ComputeTransformation over the kernels of the spec *)

Section data_rules.
Context {F : Type}.

Lemma bind_assoc {A B C} (m : M F A) (f : A → M F B) (g : B → M F C) (h : heap F) :
  ((m ≫= f) ≫= g) h = (m ≫= λ a, f a ≫= g) h.
Proof. unfold mbind, M_bind. by destruct (m h) as [[a|e] h']. Qed.

Lemma bind_data {A} (m : M F A) (k : A → M F Tensor.t) h a h' r :
  m h = (Ok a, h') → value_of (k a h') = r → value_of ((m ≫= k) h) = r.
Proof. intros E <-. by rewrite (bind_Ok _ _ _ _ _ E). Qed.

Lemma bind_throws_data {A} (m : M F A) (k : A → M F Tensor.t) h e h' :
  m h = (Err e, h') → value_of ((m ≫= k) h) = Err e.
Proof. intros E. by rewrite (bind_Err _ _ _ _ _ E). Qed.

End data_rules.

Ltac dstep tac :=
  rewrite ?bind_assoc;
  eapply bind_data; [ tac | cbn [length app insert list_insert Tensor.dtype_ Tensor.device_ fst snd] ].

Ltac dstep_lift := dstep ltac:(apply lift_Ok; first [ eassumption | side_tac ]).
Ltac dstep_assert :=
  dstep ltac:(apply lift_Ok; unfold Tensor.AssertDtype, Tensor.AssertDevice, Tensor.GetDtype, Tensor.GetDevice;
              rewrite decide_True by (cbn; congruence); reflexivity).
Tactic Notation "dstep_alloc" uconstr(lem) :=
  dstep ltac:(eapply allocating_run; eapply lem; side_tac; rows_tac).
Ltac dstep_reshape := dstep ltac:(eapply Reshape_vector; [side_tac | done]).
Ltac dstep_no_error :=
  dstep ltac:(unfold LogError_if;
              first [ rewrite bool_decide_eq_false_2 by (intros ?; done) | idtac ];
              reflexivity).
Ltac dstep_read := dstep ltac:(apply reading_Ok; erewrite deref_new by reflexivity; reflexivity).
Ltac dstep_fresh := dstep ltac:(eapply allocating_run; reflexivity).

Section transform_runs.
Context {F : Type} `{!Scalar F} (solvers : Solvers F).

Lemma point_to_point_transform h source target corr sp tp S T C :
  PointToPointInput h source target corr sp tp S T C →
  value_of (TransformationEstimationPointToPoint.ComputeTransformation
              (Kernels0 := spec_kernels solvers) source target corr h)
  = transform_point_to_point solvers S T C.
Proof.
  intros [[] [] ? ? ? ? ? ? ?].
  rewrite <- (app_nil_r h).
  unfold TransformationEstimationPointToPoint.ComputeTransformation,
    PointCloud.GetPoints, transform_point_to_point.
  cbn [ComputeRtPointToPoint RtToTransformation spec_kernels].
  unfold spec_ComputeRtPointToPoint, spec_RtToTransformation, validate, gather_step,
    rows_of, floats_of, fresh.
  dstep_lift. dstep_lift.
  dstep_assert. dstep_assert. dstep_assert. dstep_assert.
  dstep_alloc not_equal_idx. dstep_reshape.
  dstep_alloc index_get_mask_idx. dstep_reshape.
  dstep ltac:(reflexivity).
  dstep_alloc index_get_mask_rows.
  dstep_alloc index_get_idx_rows.
  dstep_read. dstep_read.
  destruct (SolveRt solvers _ _) as [[R t]|e] eqn:ERt; cbn [mbind result_bind].
  - dstep ltac:(apply lift_Ok; reflexivity).
    dstep_fresh. dstep_fresh. dstep ltac:(reflexivity).
    dstep_read. dstep_read.
    destruct (EmbedRt solvers R t) as [X|e] eqn:EX; cbn [fmap result_fmap].
    + dstep ltac:(apply lift_Ok; reflexivity).
      unfold value_of, Tensor.allocating. cbn [fst snd].
      unfold Tensor.deref. cbn [Tensor.blob_]. by rewrite list_lookup_middle.
    + rewrite ?bind_assoc. eapply bind_throws_data. reflexivity.
  - rewrite ?bind_assoc. eapply bind_throws_data. reflexivity.
Qed.

Lemma point_to_plane_transform this h source target corr sp tp tn S T N C :
  PointToPlaneInput h source target corr sp tp tn S T N C →
  value_of (TransformationEstimationPointToPlane.ComputeTransformation
              (Kernels0 := spec_kernels solvers) this source target corr h)
  = transform_point_to_plane solvers
      (TransformationEstimationPointToPlane.kernel_ this) S T N C.
Proof.
  intros [[[] [] ? ? ? ? ? ? ?] Hn [] HN ?].
  pose proof (in_range_length _ _ _ HN ltac:(eassumption)) as HrN.
  rewrite <- (app_nil_r h).
  unfold TransformationEstimationPointToPlane.ComputeTransformation,
    PointCloud.GetPoints, PointCloud.GetPointNormals, transform_point_to_plane.
  cbn [ComputePosePointToPlane PoseToTransformation spec_kernels].
  unfold spec_ComputePosePointToPlane, spec_PoseToTransformation, validate, gather_step,
    rows_of, floats_of, fresh.
  dstep ltac:(apply reading_Ok; rewrite app_nil_r; exact Hn).
  dstep_no_error.
  dstep_lift. dstep_lift. dstep_lift.
  dstep_assert. dstep_assert. dstep_assert. dstep_assert. dstep_assert.
  dstep_alloc not_equal_idx. dstep_reshape.
  dstep_alloc index_get_mask_idx. dstep_reshape.
  dstep ltac:(reflexivity).
  dstep_alloc index_get_mask_rows.
  dstep_alloc index_get_idx_rows.
  dstep_alloc index_get_idx_rows.
  dstep_read. dstep_read. dstep_read.
  destruct (SolvePosePointToPlane solvers _ _ _ _) as [pose|e] eqn:EP; cbn [mbind result_bind].
  - dstep ltac:(apply lift_Ok; reflexivity).
    dstep_fresh. dstep_read.
    destruct (EmbedPose solvers pose) as [X|e] eqn:EX; cbn [fmap result_fmap].
    + dstep ltac:(apply lift_Ok; reflexivity).
      unfold value_of, Tensor.allocating. cbn [fst snd].
      unfold Tensor.deref. cbn [Tensor.blob_]. by rewrite list_lookup_middle.
    + rewrite ?bind_assoc. eapply bind_throws_data. reflexivity.
  - rewrite ?bind_assoc. eapply bind_throws_data. reflexivity.
Qed.

Lemma colored_icp_transform this h source target corr sp sc tp tn tc tg
    S SC T N TC G C :
  ColoredICPInput h source target corr sp sc tp tn tc tg S SC T N TC G C →
  value_of (TransformationEstimationForColoredICP.ComputeTransformation
              (Kernels0 := spec_kernels solvers) this source target corr h)
  = transform_colored_icp solvers
      (TransformationEstimationForColoredICP.kernel_ this)
      (TransformationEstimationForColoredICP.lambda_geometric_ this)
      S SC T N TC G C.
Proof.
  intros Hin. pose proof (check_attributes_run _ _ _ _ _ _ _ _ _ _ _ _ _ _ _ _ _ Hin) as Hchk.
  destruct Hin as [[[[] [] ? ? ? ? ? ? ?] Hn [] HN ?] Hsc Htc Hg [] [] [] HSC HTC HG ? ? ?].
  pose proof (in_range_length _ _ _ HN ltac:(eassumption)) as HrN.
  pose proof (in_range_length _ _ _ HTC ltac:(eassumption)) as HrTC.
  pose proof (in_range_length _ _ _ HG ltac:(eassumption)) as HrG.
  rewrite <- (app_nil_r h).
  unfold TransformationEstimationForColoredICP.ComputeTransformation,
    PointCloud.GetPoints, PointCloud.GetPointNormals, PointCloud.GetPointColors,
    transform_colored_icp.
  cbn [ComputePoseColoredICP PoseToTransformation spec_kernels].
  unfold spec_ComputePoseColoredICP, spec_PoseToTransformation, validate, gather_step,
    rows_of, floats_of, fresh.
  dstep ltac:(rewrite app_nil_r; exact Hchk). rewrite <- (app_nil_r h).
  dstep_lift. dstep_lift. dstep_lift. dstep_lift. dstep_lift. dstep_lift.
  dstep_assert. dstep_assert. dstep_assert. dstep_assert.
  dstep_assert. dstep_assert. dstep_assert. dstep_assert.
  dstep_alloc not_equal_idx. dstep_reshape.
  dstep_alloc index_get_mask_idx. dstep_reshape.
  dstep ltac:(reflexivity).
  dstep_alloc index_get_mask_rows.
  dstep_alloc index_get_mask_rows.
  dstep_alloc index_get_idx_rows.
  dstep_alloc index_get_idx_rows.
  dstep_alloc index_get_idx_rows.
  dstep_alloc index_get_idx_rows.
  dstep_read. dstep_read. dstep_read. dstep_read. dstep_read. dstep_read.
  destruct (SolvePoseColoredICP solvers _ _ _ _ _ _ _ _) as [pose|e] eqn:EP;
    cbn [mbind result_bind].
  - dstep ltac:(apply lift_Ok; reflexivity).
    dstep_fresh. dstep_read.
    destruct (EmbedPose solvers pose) as [X|e] eqn:EX; cbn [fmap result_fmap].
    + dstep ltac:(apply lift_Ok; reflexivity).
      unfold value_of, Tensor.allocating. cbn [fst snd].
      unfold Tensor.deref. cbn [Tensor.blob_]. by rewrite list_lookup_middle.
    + rewrite ?bind_assoc. eapply bind_throws_data. reflexivity.
  - rewrite ?bind_assoc. eapply bind_throws_data. reflexivity.
Qed.
End transform_runs.

(** * In-place arithmetic and the caller's buffers *)

Section frame.
Context {F : Type} `{!Scalar F}.
Implicit Types (x y : Tensor.t) (n : nat).

Definition fresh_from (n : nat) (x : Tensor.t) : Prop := n ≤ Tensor.blob_ x.

Lemma preserves_Ne n x v : preserves n (Tensor.Ne (F:=F) x v) (fresh_from n).
Proof. apply preserves_allocating. Qed.
Lemma preserves_IndexGet n x y : preserves n (Tensor.IndexGet (F:=F) x y) (fresh_from n).
Proof. apply preserves_allocating. Qed.
Lemma preserves_Add n x y : preserves n (Tensor.Add (F:=F) x y) (fresh_from n).
Proof. apply preserves_allocating. Qed.
Lemma preserves_Sub n x y : preserves n (Tensor.Sub (F:=F) x y) (fresh_from n).
Proof. apply preserves_allocating. Qed.
Lemma preserves_Mul n x y : preserves n (Tensor.Mul (F:=F) x y) (fresh_from n).
Proof. apply preserves_allocating. Qed.
Lemma preserves_MulScalar n x (a : F) : preserves n (Tensor.MulScalar x a) (fresh_from n).
Proof. apply preserves_allocating. Qed.
Lemma preserves_Sum n x dims : preserves n (Tensor.Sum (F:=F) x dims) (fresh_from n).
Proof. apply preserves_allocating. Qed.
Lemma preserves_Mean n x dims : preserves n (Tensor.Mean (F:=F) x dims) (fresh_from n).
Proof. apply preserves_allocating. Qed.

(** The in-place operations write to their receiver only. *)
Lemma preserves_Mul_ n x y :
  fresh_from n x → preserves n (Tensor.Mul_ (F:=F) x y) (fresh_from n).
Proof. apply preserves_updating. Qed.
Lemma preserves_Add_ n x y :
  fresh_from n x → preserves n (Tensor.Add_ (F:=F) x y) (fresh_from n).
Proof. apply preserves_updating. Qed.

Lemma preserves_Reshape n x : preserves n (Tensor.Reshape (F:=F) x) (λ _, True).
Proof.
  intros h Hn. unfold Tensor.Reshape. destruct (Tensor.deref x h) as [d|e]; simpl.
  - case_decide; simpl; [by repeat split|].
    rewrite length_app. split; [lia|]. split; [|done].
    intros l Hl. apply lookup_app_l. lia.
  - by repeat split.
Qed.

Lemma preserves_To n x dtype : preserves n (Tensor.To (F:=F) x dtype) (λ _, True).
Proof.
  unfold Tensor.To. case_decide.
  - by apply preserves_ret.
  - eapply preserves_weaken; [apply preserves_allocating|done].
Qed.

Lemma preserves_Item n x : preserves n (Tensor.Item (F:=F) x) (λ _, True).
Proof. apply preserves_reading. Qed.

End frame.

(** One statement of a method: its rule, then the binding of its result. *)
Ltac preserves_step :=
  lazymatch goal with
  | |- preserves _ (lift _) _ => apply preserves_lift
  | |- preserves _ (reading _) _ => apply preserves_reading
  | |- preserves _ (LogError_if _ _ _) _ => apply preserves_LogError_if
  | |- preserves _ (Tensor.Ne _ _) _ => apply preserves_Ne
  | |- preserves _ (Tensor.IndexGet _ _) _ => apply preserves_IndexGet
  | |- preserves _ (Tensor.Add _ _) _ => apply preserves_Add
  | |- preserves _ (Tensor.Sub _ _) _ => apply preserves_Sub
  | |- preserves _ (Tensor.Mul _ _) _ => apply preserves_Mul
  | |- preserves _ (Tensor.MulScalar _ _) _ => apply preserves_MulScalar
  | |- preserves _ (Tensor.Sum _ _) _ => apply preserves_Sum
  | |- preserves _ (Tensor.Mean _ _) _ => apply preserves_Mean
  | |- preserves _ (Tensor.Mul_ _ _) _ => apply preserves_Mul_; assumption
  | |- preserves _ (Tensor.Add_ _ _) _ => apply preserves_Add_; assumption
  | |- preserves _ (Tensor.Reshape _) _ => apply preserves_Reshape
  | |- preserves _ (Tensor.To _ _) _ => apply preserves_To
  | |- preserves _ (Tensor.Item _) _ => apply preserves_Item
  | |- preserves _ (mret _) _ => apply preserves_ret; exact I
  end.

Ltac preserves_run :=
  repeat (lazymatch goal with
          | |- preserves _ (_ ≫= _) _ =>
              eapply preserves_bind; [ preserves_step | intros ? ? ]
          end);
  try first [ preserves_step
            | eapply preserves_weaken; [ preserves_step | done ] ].

Section frame_estimators.
Context {F : Type} `{!Scalar F} `{!Kernels F}.

Lemma preserves_point_to_point_rmse n source target corr :
  preserves n (TransformationEstimationPointToPoint.ComputeRMSE (F:=F) source target corr)
    (λ _, True).
Proof. unfold TransformationEstimationPointToPoint.ComputeRMSE. preserves_run. Qed.

Lemma preserves_point_to_plane_rmse n this source target corr :
  preserves n (TransformationEstimationPointToPlane.ComputeRMSE (F:=F) this source target corr)
    (λ _, True).
Proof. unfold TransformationEstimationPointToPlane.ComputeRMSE. preserves_run. Qed.

Lemma preserves_check_attributes n source target :
  preserves n (TransformationEstimationForColoredICP.check_attributes (F:=F) source target)
    (λ _, True).
Proof.
  unfold TransformationEstimationForColoredICP.check_attributes.
  eapply preserves_bind; [preserves_step|intros tc _].
  eapply preserves_bind.
  { destruct tc; [apply preserves_reading|apply (preserves_ret _ _ (λ _, True) I)]. }
  intros ? _. preserves_run.
Qed.

Lemma preserves_colored_icp_rmse n this source target corr :
  preserves n (TransformationEstimationForColoredICP.ComputeRMSE (F:=F) this source target corr)
    (λ _, True).
Proof.
  unfold TransformationEstimationForColoredICP.ComputeRMSE.
  eapply preserves_bind; [apply preserves_check_attributes|intros ? _].
  preserves_run.
Qed.

End frame_estimators.

(** The kernels write to none of the buffers they are given (spec, section
    3: "kernels allocate new tensors for intermediate gathered subsets and
    the final transform"). *)
Class KernelsReadOnly (F : Type) `{!Kernels F} : Prop := {
  ComputeRtPointToPoint_read_only n a b c :
    preserves n (ComputeRtPointToPoint (F:=F) a b c) (λ _, True);
  RtToTransformation_read_only n R t :
    preserves n (RtToTransformation (F:=F) R t) (λ _, True);
  ComputePosePointToPlane_read_only n a b c d k :
    preserves n (ComputePosePointToPlane (F:=F) a b c d k) (λ _, True);
  ComputePoseColoredICP_read_only n a b c d e f g k lambda :
    preserves n (ComputePoseColoredICP (F:=F) a b c d e f g k lambda) (λ _, True);
  PoseToTransformation_read_only n pose :
    preserves n (PoseToTransformation (F:=F) pose) (λ _, True);
}.

Section frame_transformations.
Context {F : Type} `{!Scalar F} `{!Kernels F} `{!KernelsReadOnly F}.

Lemma preserves_point_to_point_transformation n source target corr :
  preserves n
    (TransformationEstimationPointToPoint.ComputeTransformation (F:=F) source target corr)
    (λ _, True).
Proof.
  unfold TransformationEstimationPointToPoint.ComputeTransformation.
  eapply preserves_bind; [preserves_step|intros ? ?].
  eapply preserves_bind; [preserves_step|intros ? ?].
  eapply preserves_bind; [apply ComputeRtPointToPoint_read_only|intros ? ?].
  apply RtToTransformation_read_only.
Qed.

Lemma preserves_point_to_plane_transformation n this source target corr :
  preserves n
    (TransformationEstimationPointToPlane.ComputeTransformation (F:=F) this source target corr)
    (λ _, True).
Proof.
  unfold TransformationEstimationPointToPlane.ComputeTransformation.
  do 5 (eapply preserves_bind; [preserves_step|intros ? ?]).
  eapply preserves_bind; [apply ComputePosePointToPlane_read_only|intros ? ?].
  apply PoseToTransformation_read_only.
Qed.

Lemma preserves_colored_icp_transformation n this source target corr :
  preserves n
    (TransformationEstimationForColoredICP.ComputeTransformation (F:=F) this source target corr)
    (λ _, True).
Proof.
  unfold TransformationEstimationForColoredICP.ComputeTransformation.
  eapply preserves_bind; [apply preserves_check_attributes|intros ? _].
  do 6 (eapply preserves_bind; [preserves_step|intros ? ?]).
  eapply preserves_bind; [apply ComputePoseColoredICP_read_only|intros ? ?].
  apply PoseToTransformation_read_only.
Qed.

End frame_transformations.

Section frame_spec_kernels.
Context {F : Type} `{!Scalar F} (solvers : Solvers F).

Lemma preserves_fresh n dtype device (a : Arr F) :
  preserves n (fresh dtype device a) (fresh_from n).
Proof. apply preserves_allocating. Qed.

Lemma preserves_gather_step n corr :
  preserves n (gather_step (F:=F) corr) (λ _, True).
Proof. unfold gather_step. preserves_run. Qed.

Lemma preserves_validate n a b c : preserves n (validate (F:=F) a b c) (λ _, True).
Proof.
  unfold validate. preserves_run.
Qed.

Ltac kernel_step :=
  lazymatch goal with
  | |- preserves _ (fresh _ _ _) _ => apply preserves_fresh
  | |- preserves _ (gather_step _) _ => apply preserves_gather_step
  | |- preserves _ (validate _ _ _) _ => apply preserves_validate
  | |- _ => preserves_step
  end.

Ltac kernel_run :=
  repeat (lazymatch goal with
          | |- preserves _ (_ ≫= _) _ =>
              eapply preserves_bind; [ kernel_step | intros ? ? ]
          end);
  try kernel_step;
  try (eapply preserves_weaken; [kernel_step|done]).

#[export] Instance spec_kernels_read_only : KernelsReadOnly F (Kernels0 := spec_kernels solvers).
Proof.
  split; intros; cbn [ComputeRtPointToPoint RtToTransformation ComputePosePointToPlane
                        ComputePoseColoredICP PoseToTransformation spec_kernels].
  - unfold spec_ComputeRtPointToPoint, rows_of. kernel_run.
  - unfold spec_RtToTransformation, floats_of. kernel_run.
  - unfold spec_ComputePosePointToPlane, rows_of. kernel_run.
  - unfold spec_ComputePoseColoredICP, rows_of. kernel_run.
  - unfold spec_PoseToTransformation, floats_of. kernel_run.
Qed.

End frame_spec_kernels.

(** * LineSet *)

Section lineset.
Context {F : Type}.
Implicit Types (ls : LineSet.t) (h : heap F) (key : string) (value x : Tensor.t).

Lemma Contains_true (m : TensorMap.t) key :
  TensorMap.Contains m key = true ↔ ∃ x, TensorMap.map_ m !! key = Some x.
Proof. unfold TensorMap.Contains. rewrite bool_decide_eq_true. done. Qed.

(** The states in which the check throws instead of answering. *)
Lemma HasPointAttr_throws ls key x n h :
  TensorMap.map_ (LineSet.point_attr_ ls) !! key = Some x →
  Tensor.GetLength x h = Ok n → 0 < n →
  TensorMap.map_ (LineSet.point_attr_ ls) !! "positions" = None →
  LineSet.HasPointAttr ls key h = Err (KeyNotFound "positions").
Proof.
  intros Hx Hlen Hn Hp.
  unfold LineSet.HasPointAttr, LineSet.GetPointPositions, LineSet.GetPointAttr,
    TensorMap.at_, TensorMap.Contains.
  rewrite bool_decide_eq_true_2 by eauto. rewrite Hx. cbn. rewrite Hlen. cbn.
  rewrite bool_decide_eq_true_2 by done. by rewrite Hp.
Qed.

Lemma SetPointAttr_Ok ls key value ls' :
  LineSet.SetPointAttr ls key value = Ok ls' →
  Tensor.device_ value = LineSet.device_ ls ∧
  ls' = LineSet.mk (LineSet.device_ ls)
          (TensorMap.assign (LineSet.point_attr_ ls) key value) (LineSet.line_attr_ ls).
Proof.
  unfold LineSet.SetPointAttr, Tensor.AssertDevice. case_decide; [|done].
  by intros [= <-].
Qed.

Lemma SetLineAttr_Ok ls key value ls' :
  LineSet.SetLineAttr ls key value = Ok ls' →
  Tensor.device_ value = LineSet.device_ ls ∧
  ls' = LineSet.mk (LineSet.device_ ls) (LineSet.point_attr_ ls)
          (TensorMap.assign (LineSet.line_attr_ ls) key value).
Proof.
  unfold LineSet.SetLineAttr, Tensor.AssertDevice. case_decide; [|done].
  by intros [= <-].
Qed.

Lemma SetPointAttr_rejects ls key value :
  Tensor.device_ value ≠ LineSet.device_ ls →
  LineSet.SetPointAttr ls key value
  = Err (AssertDeviceFailed (Tensor.device_ value) (LineSet.device_ ls)).
Proof.
  intros Hne. unfold LineSet.SetPointAttr, Tensor.AssertDevice.
  by rewrite decide_False.
Qed.

Lemma SetLineAttr_rejects ls key value :
  Tensor.device_ value ≠ LineSet.device_ ls →
  LineSet.SetLineAttr ls key value
  = Err (AssertDeviceFailed (Tensor.device_ value) (LineSet.device_ ls)).
Proof.
  intros Hne. unfold LineSet.SetLineAttr, Tensor.AssertDevice.
  by rewrite decide_False.
Qed.

Lemma on_device_SetPointAttr ls key value ls' :
  LineSet.on_device ls → LineSet.SetPointAttr ls key value = Ok ls' →
  LineSet.on_device ls'.
Proof.
  intros [Hp Hl] [Hdev ->]%SetPointAttr_Ok. split; cbn; [|done].
  intros k x. destruct (decide (key = k)) as [->|Hk].
  - rewrite lookup_insert_eq. by intros [= <-].
  - rewrite lookup_insert_ne by done. apply Hp.
Qed.

Lemma on_device_SetLineAttr ls key value ls' :
  LineSet.on_device ls → LineSet.SetLineAttr ls key value = Ok ls' →
  LineSet.on_device ls'.
Proof.
  intros [Hp Hl] [Hdev ->]%SetLineAttr_Ok. split; cbn; [done|].
  intros k x. destruct (decide (key = k)) as [->|Hk].
  - rewrite lookup_insert_eq. by intros [= <-].
  - rewrite lookup_insert_ne by done. apply Hl.
Qed.

(** A convenience setter is its shape assertion followed by the general
    setter: when it returns, the general setter returned the same. *)
Lemma after_assertion {A} (r : result unit) (k : result A) (a : A) :
  (r ≫= λ _, k) = Ok a → k = Ok a.
Proof. by destruct r. Qed.

Lemma on_device_Remove ls key ls' :
  LineSet.on_device ls →
  LineSet.RemovePointAttr ls key = Ok ls' ∨ LineSet.RemoveLineAttr ls key = Ok ls' →
  LineSet.on_device ls'.
Proof.
  intros [Hp Hl] [H|H]; revert H;
    unfold LineSet.RemovePointAttr, LineSet.RemoveLineAttr, TensorMap.Erase;
    case_decide; cbn; try done; intros [= <-]; split; cbn; try done.
  - intros k x [_ Hx]%lookup_delete_Some. by eapply Hp.
  - intros k x [_ Hx]%lookup_delete_Some. by eapply Hl.
Qed.

Lemma on_device_Clear ls : LineSet.on_device (LineSet.Clear ls).
Proof. split; cbn; intros k x; by rewrite lookup_empty. Qed.

Lemma on_device_empty device : LineSet.on_device (LineSet.empty device).
Proof. split; cbn; intros k x; by rewrite lookup_empty. Qed.

End lineset.

(** * The scene is a validated input *)

Ltac in_range_tac :=
  unfold in_range, sentinel;
  repeat (apply Forall_cons; split; [first [left; reflexivity | right; cbn; lia]|]);
  apply Forall_nil.

Ltac scene_tac :=
  repeat match goal with
         | |- attribute _ _ _ _ _ => split
         | |- PointToPointInput _ _ _ _ _ _ _ _ _ => split
         | |- PointToPlaneInput _ _ _ _ _ _ _ _ _ _ _ => split
         | |- ColoredICPInput _ _ _ _ _ _ _ _ _ _ _ _ _ _ _ _ _ => split
         | |- in_range _ _ => in_range_tac
         | |- Forall _ _ => repeat constructor
         | |- _ = _ => reflexivity
         | |- _ = _ => vm_compute; reflexivity
         | |- True => exact I
         end.

Section scene_inputs.
Context {F : Type} `{!Scalar F}.

Lemma scene_input :
  ColoredICPInput (scene_store scene_S scene_SC [0; -1]%Z)
    scene_source scene_target scene_corr
    (scene_tensor 0) (scene_tensor 4) (scene_tensor 1) (scene_tensor 2)
    (scene_tensor 5) (scene_tensor 6)
    (scene_S (F:=F)) scene_SC scene_T scene_N scene_TC scene_G [0; -1]%Z.
Proof. scene_tac. Qed.

Lemma scene_input_appended :
  ColoredICPInput (scene_store (scene_S ++ scene_S') (scene_SC ++ scene_SC') [0; -1; -1]%Z)
    scene_source scene_target scene_corr
    (scene_tensor 0) (scene_tensor 4) (scene_tensor 1) (scene_tensor 2)
    (scene_tensor 5) (scene_tensor 6)
    (scene_S (F:=F) ++ scene_S') (scene_SC ++ scene_SC') scene_T scene_N scene_TC scene_G
    ([0; -1] ++ replicate (length (scene_S' (F:=F))) sentinel)%Z.
Proof. scene_tac. Qed.

Lemma scene_input_unmatched :
  ColoredICPInput (scene_store scene_S scene_SC [-1; -1]%Z)
    scene_source scene_target scene_corr
    (scene_tensor 0) (scene_tensor 4) (scene_tensor 1) (scene_tensor 2)
    (scene_tensor 5) (scene_tensor 6)
    (scene_S (F:=F)) scene_SC scene_T scene_N scene_TC scene_G [-1; -1]%Z.
Proof. scene_tac. Qed.
End scene_inputs.

Lemma single_input :
  PointToPlaneInput single_store single_source single_target scene_corr
    (single_tensor 0) (single_tensor 1) (single_tensor 2)
    single_S single_T single_N single_C.
Proof. scene_tac. Qed.

Lemma packed_input :
  PointToPlaneInput packed_store single_source single_target scene_corr
    (single_tensor 0) (single_tensor 1) (single_tensor 2)
    packed_S packed_T packed_N packed_C.
Proof. scene_tac. Qed.

Lemma placed_input :
  PointToPlaneInput placed_store single_source single_target scene_corr
    (single_tensor 0) (single_tensor 1) (single_tensor 2)
    placed_S single_T single_N placed_C.
Proof. scene_tac. Qed.

(** * Attribute checks *)

Section attribute_checks.
Context {F : Type} `{!Scalar F} `{!Kernels F}.
Implicit Types (h : heap F) (source target : PointCloud.t).

Lemma check_attributes_colors h source target :
  PointCloud.HasPointColors target h = Ok false ∨
  (PointCloud.HasPointColors target h = Ok true ∧
   PointCloud.HasPointColors source h = Ok false) →
  TransformationEstimationForColoredICP.check_attributes source target h
  = (Err missing_colors, h).
Proof.
  unfold TransformationEstimationForColoredICP.check_attributes.
  intros [Ht|[Ht Hs]].
  - eapply bind_run; [by apply reading_Ok|].
    eapply bind_run; [reflexivity|]. reflexivity.
  - eapply bind_run; [by apply reading_Ok|].
    eapply bind_run; [by apply reading_Ok|]. reflexivity.
Qed.

Lemma check_attributes_normals h source target :
  PointCloud.HasPointColors target h = Ok true →
  PointCloud.HasPointColors source h = Ok true →
  PointCloud.HasPointNormals target h = Ok false →
  TransformationEstimationForColoredICP.check_attributes source target h
  = (Err missing_normals, h).
Proof.
  unfold TransformationEstimationForColoredICP.check_attributes.
  intros Ht Hs Hn.
  eapply bind_run; [by apply reading_Ok|].
  eapply bind_run; [by apply reading_Ok|].
  eapply bind_run; [reflexivity|].
  eapply bind_run; [by apply reading_Ok|]. reflexivity.
Qed.

Lemma check_attributes_gradients h source target :
  PointCloud.HasPointColors target h = Ok true →
  PointCloud.HasPointColors source h = Ok true →
  PointCloud.HasPointNormals target h = Ok true →
  PointCloud.HasPointAttr target "color_gradients" h = Ok false →
  TransformationEstimationForColoredICP.check_attributes source target h
  = (Err missing_color_gradients, h).
Proof.
  unfold TransformationEstimationForColoredICP.check_attributes.
  intros Ht Hs Hn Hg.
  eapply bind_run; [by apply reading_Ok|].
  eapply bind_run; [by apply reading_Ok|].
  eapply bind_run; [reflexivity|].
  eapply bind_run; [by apply reading_Ok|].
  eapply bind_run; [reflexivity|].
  eapply bind_run; [by apply reading_Ok|]. reflexivity.
Qed.

(** Both methods of the colored estimator start with the checks. *)
Lemma colored_icp_check_fails this h source target corr e :
  TransformationEstimationForColoredICP.check_attributes source target h = (Err e, h) →
  TransformationEstimationForColoredICP.ComputeRMSE this source target corr h = (Err e, h) ∧
  TransformationEstimationForColoredICP.ComputeTransformation this source target corr h
  = (Err e, h).
Proof.
  intros E. split.
  - unfold TransformationEstimationForColoredICP.ComputeRMSE. by apply bind_Err.
  - unfold TransformationEstimationForColoredICP.ComputeTransformation. by apply bind_Err.
Qed.

Lemma point_to_plane_check_fails this h source target corr :
  PointCloud.HasPointNormals target h = Ok false →
  TransformationEstimationPointToPlane.ComputeRMSE this source target corr h
  = (Err missing_normals, h) ∧
  TransformationEstimationPointToPlane.ComputeTransformation this source target corr h
  = (Err missing_normals, h).
Proof.
  intros Hn. split.
  - unfold TransformationEstimationPointToPlane.ComputeRMSE.
    eapply bind_run; [by apply reading_Ok|]. reflexivity.
  - unfold TransformationEstimationPointToPlane.ComputeTransformation.
    eapply bind_run; [by apply reading_Ok|]. reflexivity.
Qed.

End attribute_checks.

(** * The claims *)


(** C3: on validated inputs the point-to-point ComputeRMSE returns
    sqrt(Σ‖p_i − q_i‖² / n_valid), the sum ranging over the source rows
    with a non-sentinel correspondence and the target rows they name, and
    n_valid being their number.  The differences, the squares and the sum
    are computed in the dtype of the points, the sum in the order of the
    pairs; the quotient and the square root in double precision. *)
Theorem point_to_point_rmse {F : Type} `{!Scalar F}
    (h : heap F) (source target : PointCloud.t) (correspondences sp tp : Tensor.t)
    (S T : list (list F)) (C : list Z) :
  PointToPointInput h source target correspondences sp tp S T C →
  (TransformationEstimationPointToPoint.ComputeRMSE source target correspondences h).1
  = Ok (rmse_point_to_point (Tensor.dtype_ sp) S T C).
Proof. apply point_to_point_value. Qed.

Lemma point_to_point_rmse_witness :
  (TransformationEstimationPointToPoint.ComputeRMSE single_source single_target scene_corr
     single_store).1
  = Ok (rmse_point_to_point Float32 single_S single_T single_C) ∧
  rmse_point_to_point Float32 single_S single_T single_C = 0x1.99999bcccccb5p-3%float ∧
  rmse_point_to_point Float64 single_S single_T single_C = 0x1.99999bp-3%float.
Proof.
  split; [|split; vm_compute; reflexivity].
  apply (point_to_point_rmse single_store single_source single_target scene_corr
           (single_tensor 0) (single_tensor 1)).
  apply single_input.
Defined.

(** C1 (as amended): with no valid correspondence the point-to-point and
    the point-to-plane ComputeRMSE raise nothing on validated inputs: both
    return the square root of the quotient 0 / 0. *)
Theorem rmse_without_valid_correspondence {F : Type} `{!Scalar F} `{!Kernels F}
    (h : heap F) (source target : PointCloud.t) (correspondences sp tp tn : Tensor.t)
    (S T N : list (list F)) (C : list Z)
    (this : TransformationEstimationPointToPlane.t) :
  Forall (λ c, c = sentinel) C →
  (PointToPointInput h source target correspondences sp tp S T C →
   (TransformationEstimationPointToPoint.ComputeRMSE source target correspondences h).1
   = Ok (fsqrt (fdiv fzero (of_int 0)))) ∧
  (PointToPlaneInput h source target correspondences sp tp tn S T N C →
   (TransformationEstimationPointToPlane.ComputeRMSE this source target correspondences h).1
   = Ok (fsqrt (fdiv fzero (of_int 0)))).
Proof.
  intros Hnone. split; intros Hin.
  - rewrite (point_to_point_value _ _ _ _ _ _ _ _ _ Hin).
    unfold rmse_point_to_point, n_valid, valid_targets.
    rewrite valid_sources_none, valid_indices_none by done.
    reflexivity.
  - rewrite (point_to_plane_value _ _ _ _ _ _ _ _ _ _ _ _ Hin).
    unfold rmse_squared_components, n_valid, valid_targets.
    rewrite valid_sources_none, valid_indices_none by done.
    reflexivity.
Qed.

Lemma rmse_without_valid_correspondence_witness :
  (TransformationEstimationPointToPoint.ComputeRMSE (F:=Z) scene_source scene_target
     scene_corr (scene_store scene_S scene_SC [-1; -1]%Z)).1 = Ok 0%Z ∧
  (TransformationEstimationPointToPlane.ComputeRMSE (F:=Z)
     (TransformationEstimationPointToPlane.mk (Kernels0 := spec_kernels identity_solvers) ())
     scene_source scene_target scene_corr (scene_store scene_S scene_SC [-1; -1]%Z)).1
  = Ok 0%Z.
Proof.
  destruct (rmse_without_valid_correspondence (F:=Z)
              (scene_store scene_S scene_SC [-1; -1]%Z) scene_source scene_target scene_corr
              (scene_tensor 0) (scene_tensor 1) (scene_tensor 2)
              scene_S scene_T scene_N [-1; -1]%Z
              (TransformationEstimationPointToPlane.mk
                 (Kernels0 := spec_kernels identity_solvers) ()))
    as [H1 H2].
  - repeat constructor.
  - split; [apply H1|apply H2]; apply scene_input_unmatched.
Defined.

(** C1, the claim as stated: on IEEE doubles, with every entry of the
    correspondence array the sentinel, the point-to-point ComputeRMSE
    returns NaN where the claim has it fail. *)
Lemma empty_correspondence_returns_nan :
  Forall (λ c, c = sentinel) [-1; -1]%Z ∧
  ∃ v : float,
    (TransformationEstimationPointToPoint.ComputeRMSE (F:=float) scene_source scene_target
       scene_corr (scene_store scene_S scene_SC [-1; -1]%Z)).1 = Ok v ∧
    PrimFloat.is_nan v = true.
Proof.
  split; [repeat constructor|].
  eexists. split; vm_compute; reflexivity.
Qed.

(** X18: what the point-to-plane ComputeRMSE returns on validated inputs
    is sqrt(Σ_i Σ_j ((p_ij − q_ij) n_ij)² / n_valid): each product of a
    displacement component with a normal component is squared on its own,
    and the products are never added up into n_i · (p_i − q_i).  The
    differences, the products and the sum are computed in the dtype of the
    points, the sum in the order of the pairs; the quotient and the square
    root in double precision. *)
Theorem point_to_plane_rmse_squares_components {F : Type} `{!Scalar F}
    `{!Kernels F} (h : heap F) (source target : PointCloud.t)
    (correspondences sp tp tn : Tensor.t) (S T N : list (list F)) (C : list Z)
    (this : TransformationEstimationPointToPlane.t) :
  PointToPlaneInput h source target correspondences sp tp tn S T N C →
  (TransformationEstimationPointToPlane.ComputeRMSE this source target correspondences h).1
  = Ok (rmse_squared_components (Tensor.dtype_ sp) S T N C).
Proof. apply point_to_plane_value. Qed.

Lemma point_to_plane_rmse_squares_components_witness :
  (TransformationEstimationPointToPlane.ComputeRMSE
     (TransformationEstimationPointToPlane.mk (Kernels0 := spec_kernels identity_solvers) ())
     single_source single_target scene_corr single_store).1
  = Ok (rmse_squared_components Float32 single_S single_T single_N single_C) ∧
  rmse_squared_components Float32 single_S single_T single_N single_C
  = 0x1.99999bcccccb5p-3%float.
Proof.
  split; [|vm_compute; reflexivity].
  apply (point_to_plane_rmse_squares_components single_store single_source single_target
           scene_corr (single_tensor 0) (single_tensor 1) (single_tensor 2)).
  apply single_input.
Defined.

(** C2: the point-to-plane ComputeRMSE does not return sqrt(S / n_valid)
    with S the sum of the squared residuals (n_i · (p_i − q_i))².  On the
    scene, in IEEE doubles, the one matched pair has displacement (1, 1, 0)
    and normal (1, 1, 0): the residual is 2 and the claimed value
    sqrt(4 / 1) = 2, where the code returns sqrt(1 + 1). *)
Lemma point_to_plane_rmse_on_scene :
  (TransformationEstimationPointToPlane.ComputeRMSE (F:=float)
     (TransformationEstimationPointToPlane.mk (Kernels0 := spec_kernels identity_solvers) ())
     scene_source scene_target scene_corr (scene_store scene_S scene_SC [0; -1]%Z)).1
  = Ok (PrimFloat.sqrt 2) ∧
  rmse_point_to_plane (F:=float) scene_S scene_T scene_N [0; -1]%Z = 2%float ∧
  PrimFloat.sqrt 2 ≠ 2%float.
Proof.
  split; [vm_compute; reflexivity|]. split; [vm_compute; reflexivity|].
  intros E. assert (PrimFloat.eqb (PrimFloat.sqrt 2) 2 = true) as Heq
    by (rewrite E; vm_compute; reflexivity).
  vm_compute in Heq. discriminate.
Qed.

(** C4: on validated inputs the colored-ICP ComputeRMSE returns no value.
    [d], the row sums of (vs − vt)·nt, is 1-dimensional: multiplying it
    with the n×3 normals fails to broadcast unless n is 3 or 1, and then
    the reduction of [d] over dimension 1 fails. *)
Theorem colored_icp_rmse_raises {F : Type} `{!Scalar F} `{!Kernels F}
    (h : heap F) (source target : PointCloud.t)
    (correspondences sp sc tp tn tc tg : Tensor.t)
    (S SC T N TC G : list (list F)) (C : list Z)
    (this : TransformationEstimationForColoredICP.t) :
  ColoredICPInput h source target correspondences sp sc tp tn tc tg S SC T N TC G C →
  (TransformationEstimationForColoredICP.ComputeRMSE this source target correspondences h).1
  = Err (if decide (n_valid C = 3 ∨ n_valid C = 1) then DimOutOfRange 1 1
         else BroadcastError [n_valid C] [n_valid C; 3]).
Proof. intros Hin. by rewrite (colored_icp_value _ _ _ _ _ _ _ _ _ _ _ _ _ _ _ _ _ _ Hin). Qed.

Lemma colored_icp_rmse_raises_witness :
  (TransformationEstimationForColoredICP.ComputeRMSE (F:=float)
     (TransformationEstimationForColoredICP.mk
        (Kernels0 := spec_kernels identity_solvers) () 0.96875%float)
     scene_source scene_target scene_corr (scene_store scene_S scene_SC [0; -1]%Z)).1
  = Err (DimOutOfRange 1 1).
Proof.
  apply (colored_icp_rmse_raises (F:=float) _ _ _ _
           (scene_tensor 0) (scene_tensor 4) (scene_tensor 1) (scene_tensor 2)
           (scene_tensor 5) (scene_tensor 6)
           scene_S scene_SC scene_T scene_N scene_TC scene_G [0; -1]%Z).
  apply scene_input.
Defined.

(** C5: correspondences that the sibling estimators reject at once.  The
    point-to-plane ComputeRMSE fails on its assertions and leaves the store
    as it was.  The point-to-point ComputeRMSE has neither assertion: with
    the array on another device it computes and returns a value; with an
    Int32 array it computes the mask, the neighbour indices and the
    gathered source points (buffers 7, 8, 9) and fails only when it gathers
    the target points. *)
Lemma point_to_point_rmse_skips_correspondence_checks :
  let h : heap float := scene_store scene_S scene_SC [0; -1]%Z in
  let plane := TransformationEstimationPointToPlane.mk
                 (Kernels0 := spec_kernels identity_solvers) () in
  TransformationEstimationPointToPlane.ComputeRMSE plane
    scene_source scene_target scene_corr_cuda h
  = (Err (AssertDeviceFailed CUDA0 CPU0), h) ∧
  (TransformationEstimationPointToPoint.ComputeRMSE
     scene_source scene_target scene_corr_cuda h).1 = Ok (PrimFloat.sqrt 2) ∧
  TransformationEstimationPointToPlane.ComputeRMSE plane
    scene_source scene_target scene_corr_int32 h
  = (Err (AssertDtypeFailed Int32 Int64), h) ∧
  TransformationEstimationPointToPoint.ComputeRMSE
    scene_source scene_target scene_corr_int32 h
  = (Err (IndexDtypeError Int32),
     h ++ [DB (A1 [true; false]); DI (A1 [0%Z]); DF (A2 3 [row 1 1 0])]).
Proof.
  intros h plane. split; [vm_compute; reflexivity|].
  split; [vm_compute; reflexivity|]. split; vm_compute; reflexivity.
Qed.

(** C6 (as amended): where the target lacks valid normals both methods of
    the point-to-plane estimator fail with the error that names normals.
    The colored estimator checks colors, then normals, then color
    gradients, and both its methods fail with the error of the first
    check that finds its attribute missing.  The store is not touched. *)
Theorem missing_attribute_errors {F : Type} `{!Scalar F} `{!Kernels F}
    (h : heap F) (source target : PointCloud.t) (correspondences : Tensor.t)
    (plane : TransformationEstimationPointToPlane.t)
    (colored : TransformationEstimationForColoredICP.t) :
  (PointCloud.HasPointNormals target h = Ok false →
   TransformationEstimationPointToPlane.ComputeRMSE plane source target correspondences h
   = (Err missing_normals, h) ∧
   TransformationEstimationPointToPlane.ComputeTransformation plane source target
     correspondences h = (Err missing_normals, h)) ∧
  (PointCloud.HasPointColors target h = Ok false ∨
   (PointCloud.HasPointColors target h = Ok true ∧
    PointCloud.HasPointColors source h = Ok false) →
   TransformationEstimationForColoredICP.ComputeRMSE colored source target correspondences h
   = (Err missing_colors, h) ∧
   TransformationEstimationForColoredICP.ComputeTransformation colored source target
     correspondences h = (Err missing_colors, h)) ∧
  (PointCloud.HasPointColors target h = Ok true →
   PointCloud.HasPointColors source h = Ok true →
   PointCloud.HasPointNormals target h = Ok false →
   TransformationEstimationForColoredICP.ComputeRMSE colored source target correspondences h
   = (Err missing_normals, h) ∧
   TransformationEstimationForColoredICP.ComputeTransformation colored source target
     correspondences h = (Err missing_normals, h)) ∧
  (PointCloud.HasPointColors target h = Ok true →
   PointCloud.HasPointColors source h = Ok true →
   PointCloud.HasPointNormals target h = Ok true →
   PointCloud.HasPointAttr target "color_gradients" h = Ok false →
   TransformationEstimationForColoredICP.ComputeRMSE colored source target correspondences h
   = (Err missing_color_gradients, h) ∧
   TransformationEstimationForColoredICP.ComputeTransformation colored source target
     correspondences h = (Err missing_color_gradients, h)).
Proof.
  split; [|split; [|split]].
  - apply point_to_plane_check_fails.
  - intros Hc. by apply colored_icp_check_fails, check_attributes_colors.
  - intros Ht Hs Hn. by apply colored_icp_check_fails, check_attributes_normals.
  - intros Ht Hs Hn Hg. by apply colored_icp_check_fails, check_attributes_gradients.
Qed.

Lemma missing_attribute_errors_witness :
  let h : heap float := scene_store scene_S scene_SC [0; -1]%Z in
  let plane := TransformationEstimationPointToPlane.mk
                 (Kernels0 := spec_kernels identity_solvers) () in
  let colored := TransformationEstimationForColoredICP.mk
                   (Kernels0 := spec_kernels identity_solvers) () 0.96875%float in
  (TransformationEstimationPointToPlane.ComputeRMSE plane scene_source scene_bare_target
     scene_corr h).1 = Err missing_normals ∧
  (TransformationEstimationForColoredICP.ComputeRMSE colored scene_source scene_bare_target
     scene_corr h).1 = Err missing_colors ∧
  (TransformationEstimationForColoredICP.ComputeTransformation colored scene_source
     scene_target_without_normals scene_corr h).1 = Err missing_normals ∧
  (TransformationEstimationForColoredICP.ComputeRMSE colored scene_source
     scene_target_without_gradients scene_corr h).1 = Err missing_color_gradients.
Proof.
  intros h plane colored.
  destruct (missing_attribute_errors h scene_source scene_bare_target scene_corr
              plane colored) as (H1 & H2 & _ & _).
  destruct (missing_attribute_errors h scene_source scene_target_without_normals scene_corr
              plane colored) as (_ & _ & H3 & _).
  destruct (missing_attribute_errors h scene_source scene_target_without_gradients scene_corr
              plane colored) as (_ & _ & _ & H4).
  split; [|split; [|split]].
  - rewrite (proj1 (H1 eq_refl)). reflexivity.
  - rewrite (proj1 (H2 (or_introl eq_refl))). reflexivity.
  - rewrite (proj2 (H3 eq_refl eq_refl eq_refl)). reflexivity.
  - rewrite (proj1 (H4 eq_refl eq_refl eq_refl eq_refl)). reflexivity.
Defined.

(** C6, the claim as stated: a target with neither normals nor colors.
    The colored estimator fails with the error that names colors, not the
    one that names normals. *)
Lemma colored_icp_names_colors_first :
  let h : heap float := scene_store scene_S scene_SC [0; -1]%Z in
  let colored := TransformationEstimationForColoredICP.mk
                   (Kernels0 := spec_kernels identity_solvers) () 0.96875%float in
  PointCloud.HasPointNormals scene_bare_target h = Ok false ∧
  (TransformationEstimationForColoredICP.ComputeRMSE colored scene_source scene_bare_target
     scene_corr h).1 = Err missing_colors ∧
  (TransformationEstimationForColoredICP.ComputeTransformation colored scene_source
     scene_bare_target scene_corr h).1 = Err missing_colors ∧
  missing_colors ≠ missing_normals.
Proof.
  intros h colored. split; [vm_compute; reflexivity|].
  split; [vm_compute; reflexivity|]. split; [vm_compute; reflexivity|].
  discriminate.
Qed.

Section appended.
Context {F : Type} `{!Scalar F}.

(** Rows appended to a second source attribute are as many as the points. *)
Lemma appended_length {A B} (S S' : list A) (SC SC' : list B) :
  length SC = length S → length (SC ++ SC') = length (S ++ S') →
  length SC' = length S'.
Proof. rewrite !length_app. lia. Qed.

End appended.

(** C7: source points appended with the sentinel as their correspondence
    change neither the result of ComputeRMSE nor the transform of
    ComputeTransformation, for each of the three estimators, on validated
    inputs whose points have the dtype they had without the appended
    points; the kernels ComputeTransformation calls are those of the spec,
    over any solvers. *)
Theorem sentinel_exclusion {F : Type} `{!Scalar F} (solvers : Solvers F)
    (h h' : heap F) (source source' target target' : PointCloud.t)
    (corr corr' sp sp' sc sc' tp tp' tn tn' tc tc' tg tg' : Tensor.t)
    (S S' SC SC' T N TC G : list (list F)) (C : list Z)
    (plane : TransformationEstimationPointToPlane.t (Kernels0 := spec_kernels solvers))
    (colored : TransformationEstimationForColoredICP.t (Kernels0 := spec_kernels solvers)) :
  let C' := C ++ replicate (length S') sentinel in
  Tensor.dtype_ sp' = Tensor.dtype_ sp →
  (PointToPointInput h source target corr sp tp S T C →
   PointToPointInput h' source' target' corr' sp' tp' (S ++ S') T C' →
   (TransformationEstimationPointToPoint.ComputeRMSE source' target' corr' h').1
   = (TransformationEstimationPointToPoint.ComputeRMSE source target corr h).1 ∧
   value_of (TransformationEstimationPointToPoint.ComputeTransformation
               (Kernels0 := spec_kernels solvers) source' target' corr' h')
   = value_of (TransformationEstimationPointToPoint.ComputeTransformation
                 (Kernels0 := spec_kernels solvers) source target corr h)) ∧
  (PointToPlaneInput h source target corr sp tp tn S T N C →
   PointToPlaneInput h' source' target' corr' sp' tp' tn' (S ++ S') T N C' →
   (TransformationEstimationPointToPlane.ComputeRMSE plane source' target' corr' h').1
   = (TransformationEstimationPointToPlane.ComputeRMSE plane source target corr h).1 ∧
   value_of (TransformationEstimationPointToPlane.ComputeTransformation plane
               source' target' corr' h')
   = value_of (TransformationEstimationPointToPlane.ComputeTransformation plane
                 source target corr h)) ∧
  (ColoredICPInput h source target corr sp sc tp tn tc tg S SC T N TC G C →
   ColoredICPInput h' source' target' corr' sp' sc' tp' tn' tc' tg'
     (S ++ S') (SC ++ SC') T N TC G C' →
   (TransformationEstimationForColoredICP.ComputeRMSE colored source' target' corr' h').1
   = (TransformationEstimationForColoredICP.ComputeRMSE colored source target corr h).1 ∧
   value_of (TransformationEstimationForColoredICP.ComputeTransformation colored
               source' target' corr' h')
   = value_of (TransformationEstimationForColoredICP.ComputeTransformation colored
                 source target corr h)).
Proof.
  intros C' Hdtype. split; [|split].
  - intros Hin Hin'. pose proof (corr_length _ _ _ _ _ _ _ _ _ Hin) as Hlen.
    rewrite (point_to_point_value _ _ _ _ _ _ _ _ _ Hin),
      (point_to_point_value _ _ _ _ _ _ _ _ _ Hin'),
      (point_to_point_transform _ _ _ _ _ _ _ _ _ _ Hin),
      (point_to_point_transform _ _ _ _ _ _ _ _ _ _ Hin').
    unfold rmse_point_to_point, transform_point_to_point, C'.
    by rewrite Hdtype, valid_sources_app_sentinel, valid_targets_app_sentinel,
      n_valid_app_sentinel.
  - intros Hin Hin'.
    pose proof (corr_length _ _ _ _ _ _ _ _ _ (plane_points _ _ _ _ _ _ _ _ _ _ _ Hin))
      as Hlen.
    rewrite (point_to_plane_value _ _ _ _ _ _ _ _ _ _ _ _ Hin),
      (point_to_plane_value _ _ _ _ _ _ _ _ _ _ _ _ Hin'),
      (point_to_plane_transform _ _ _ _ _ _ _ _ _ _ _ _ _ Hin),
      (point_to_plane_transform _ _ _ _ _ _ _ _ _ _ _ _ _ Hin').
    unfold rmse_squared_components, transform_point_to_plane, C'.
    by rewrite Hdtype, valid_sources_app_sentinel, !valid_targets_app_sentinel,
      n_valid_app_sentinel.
  - intros Hin Hin'.
    pose proof (corr_length _ _ _ _ _ _ _ _ _
                  (plane_points _ _ _ _ _ _ _ _ _ _ _
                     (colored_points _ _ _ _ _ _ _ _ _ _ _ _ _ _ _ _ _ Hin))) as Hlen.
    pose proof (source_colors_length _ _ _ _ _ _ _ _ _ _ _ _ _ _ _ _ _ Hin) as HSC.
    pose proof (source_colors_length _ _ _ _ _ _ _ _ _ _ _ _ _ _ _ _ _ Hin') as HSC'.
    pose proof (appended_length _ _ _ _ HSC HSC') as Hextra.
    rewrite (colored_icp_value _ _ _ _ _ _ _ _ _ _ _ _ _ _ _ _ _ _ Hin),
      (colored_icp_value _ _ _ _ _ _ _ _ _ _ _ _ _ _ _ _ _ _ Hin'),
      (colored_icp_transform _ _ _ _ _ _ _ _ _ _ _ _ _ _ _ _ _ _ _ Hin),
      (colored_icp_transform _ _ _ _ _ _ _ _ _ _ _ _ _ _ _ _ _ _ _ Hin').
    unfold transform_colored_icp, C'.
    rewrite n_valid_app_sentinel, valid_sources_app_sentinel, !valid_targets_app_sentinel
      by done. rewrite <- Hextra.
    by rewrite valid_sources_app_sentinel by congruence.
Qed.

Lemma sentinel_exclusion_witness :
  let solvers := identity_solvers (F:=float) in
  let colored := TransformationEstimationForColoredICP.mk
                   (Kernels0 := spec_kernels solvers) () 0.96875%float in
  let plane := TransformationEstimationPointToPlane.mk
                 (Kernels0 := spec_kernels solvers) () in
  let h := scene_store scene_S scene_SC [0; -1]%Z in
  let h' := scene_store (scene_S ++ scene_S') (scene_SC ++ scene_SC') [0; -1; -1]%Z in
  (TransformationEstimationPointToPoint.ComputeRMSE scene_source scene_target scene_corr h').1
  = (TransformationEstimationPointToPoint.ComputeRMSE scene_source scene_target scene_corr h).1 ∧
  (TransformationEstimationPointToPlane.ComputeRMSE plane scene_source scene_target
     scene_corr h').1
  = (TransformationEstimationPointToPlane.ComputeRMSE plane scene_source scene_target
       scene_corr h).1 ∧
  value_of (TransformationEstimationForColoredICP.ComputeTransformation colored
              scene_source scene_target scene_corr h')
  = value_of (TransformationEstimationForColoredICP.ComputeTransformation colored
                scene_source scene_target scene_corr h).
Proof.
  intros solvers colored plane h h'.
  destruct (sentinel_exclusion solvers h h' scene_source scene_source
              scene_target scene_target scene_corr scene_corr
              (scene_tensor 0) (scene_tensor 0) (scene_tensor 4) (scene_tensor 4)
              (scene_tensor 1) (scene_tensor 1) (scene_tensor 2) (scene_tensor 2)
              (scene_tensor 5) (scene_tensor 5) (scene_tensor 6) (scene_tensor 6)
              scene_S scene_S' scene_SC scene_SC' scene_T scene_N scene_TC scene_G
              [0; -1]%Z plane colored eq_refl) as (H1 & H2 & H3).
  split; [|split].
  - apply H1; [apply scene_input|apply scene_input_appended].
  - apply H2; [apply scene_input|apply scene_input_appended].
  - apply H3; [apply scene_input|apply scene_input_appended].
Defined.

(** C8: a call of ComputeRMSE or ComputeTransformation of any estimator
    leaves every buffer of the caller's store as it was, whether the call
    returns or throws: the in-place products and sums write to tensors
    allocated during the call.  For ComputeTransformation the kernels must
    themselves be read-only. *)
Theorem inputs_unchanged {F : Type} `{!Scalar F} `{!Kernels F}
    (h : heap F) (source target : PointCloud.t) (correspondences : Tensor.t)
    (plane : TransformationEstimationPointToPlane.t)
    (colored : TransformationEstimationForColoredICP.t) (l : nat) :
  l < length h →
  ((TransformationEstimationPointToPoint.ComputeRMSE source target correspondences h).2 !! l
   = h !! l ∧
   (TransformationEstimationPointToPlane.ComputeRMSE plane source target correspondences h).2
     !! l = h !! l ∧
   (TransformationEstimationForColoredICP.ComputeRMSE colored source target
      correspondences h).2 !! l = h !! l) ∧
  (KernelsReadOnly F →
   (TransformationEstimationPointToPoint.ComputeTransformation source target
      correspondences h).2 !! l = h !! l ∧
   (TransformationEstimationPointToPlane.ComputeTransformation plane source target
      correspondences h).2 !! l = h !! l ∧
   (TransformationEstimationForColoredICP.ComputeTransformation colored source target
      correspondences h).2 !! l = h !! l).
Proof.
  intros Hl. split; [|intros Hro].
  - split; [|split].
    + by apply (preserves_point_to_point_rmse (length h) source target correspondences h).
    + by apply (preserves_point_to_plane_rmse (length h) plane source target
                  correspondences h).
    + by apply (preserves_colored_icp_rmse (length h) colored source target
                  correspondences h).
  - split; [|split].
    + by apply (preserves_point_to_point_transformation (length h) source target
                  correspondences h).
    + by apply (preserves_point_to_plane_transformation (length h) plane source target
                  correspondences h).
    + by apply (preserves_colored_icp_transformation (length h) colored source target
                  correspondences h).
Qed.

Lemma inputs_unchanged_witness :
  let solvers := identity_solvers (F:=float) in
  let plane := TransformationEstimationPointToPlane.mk
                 (Kernels0 := spec_kernels solvers) () in
  let colored := TransformationEstimationForColoredICP.mk
                   (Kernels0 := spec_kernels solvers) () 0.96875%float in
  let h := scene_store scene_S scene_SC [0; -1]%Z in
  (TransformationEstimationPointToPlane.ComputeRMSE plane scene_source scene_target
     scene_corr h).2 !! 0 = Some (DF (A2 3 scene_S)) ∧
  (TransformationEstimationPointToPoint.ComputeTransformation
     (Kernels0 := spec_kernels solvers) scene_source scene_target scene_corr h).2 !! 3
  = Some (DI (A1 [0; -1]%Z)).
Proof.
  intros solvers plane colored h.
  split.
  - apply (proj1 (inputs_unchanged h scene_source scene_target scene_corr plane colored 0
                    ltac:(cbn; lia))).
  - apply (proj2 (inputs_unchanged h scene_source scene_target scene_corr plane colored 3
                    ltac:(cbn; lia)) (spec_kernels_read_only solvers)).
Defined.

(** C9: HasPointAttr returns true exactly when the key is in the store,
    its tensor has a length, that length is positive, and "positions" is
    in the store with the same length. *)
Theorem HasPointAttr_true_iff {F : Type} (ls : LineSet.t) (key : string) (h : heap F) :
  LineSet.HasPointAttr ls key h = Ok true ↔
  ∃ x p n,
    TensorMap.map_ (LineSet.point_attr_ ls) !! key = Some x ∧
    Tensor.GetLength x h = Ok n ∧ 0 < n ∧
    TensorMap.map_ (LineSet.point_attr_ ls) !! "positions" = Some p ∧
    Tensor.GetLength p h = Ok n.
Proof.
  unfold LineSet.HasPointAttr, LineSet.GetPointPositions, LineSet.GetPointAttr,
    TensorMap.at_, TensorMap.Contains.
  split.
  - case_bool_decide as Hc; [|done]. destruct Hc as [x Hx]. rewrite Hx. cbn.
    destruct (Tensor.GetLength x h) as [n|e] eqn:Hlen; cbn; [|done].
    case_bool_decide as Hn; [|done].
    destruct (TensorMap.map_ (LineSet.point_attr_ ls) !! "positions") as [p|] eqn:Hp;
      cbn; [|done].
    destruct (Tensor.GetLength p h) as [m|e] eqn:Hm; cbn; [|done].
    intros [= Heq%bool_decide_eq_true]. subst m. by exists x, p, n.
  - intros (x & p & n & Hx & Hlen & Hn & Hp & Hm).
    rewrite bool_decide_eq_true_2 by eauto. rewrite Hx. cbn. rewrite Hlen. cbn.
    rewrite bool_decide_eq_true_2 by done. rewrite Hp. cbn. rewrite Hm. cbn.
    by rewrite bool_decide_eq_true_2.
Qed.

(** C10: every setter of LineSet.h rejects a tensor on another device, and
    every operation of LineSet.h that changes the attribute maps keeps all
    stored point and line attributes on the LineSet's device. *)
Theorem attributes_stay_on_device {F : Type} (ls ls' : LineSet.t) (key : string)
    (value : Tensor.t) (h : heap F) :
  (Tensor.device_ value ≠ LineSet.device_ ls →
   LineSet.SetPointAttr ls key value
   = Err (AssertDeviceFailed (Tensor.device_ value) (LineSet.device_ ls)) ∧
   LineSet.SetLineAttr ls key value
   = Err (AssertDeviceFailed (Tensor.device_ value) (LineSet.device_ ls)) ∧
   ¬ is_Ok (LineSet.SetPointPositions ls value h) ∧
   ¬ is_Ok (LineSet.SetLineIndices ls value h) ∧
   ¬ is_Ok (LineSet.SetLineColors ls value h)) ∧
  (LineSet.on_device ls →
   LineSet.SetPointAttr ls key value = Ok ls' ∨
   LineSet.SetLineAttr ls key value = Ok ls' ∨
   LineSet.SetPointPositions ls value h = Ok ls' ∨
   LineSet.SetLineIndices ls value h = Ok ls' ∨
   LineSet.SetLineColors ls value h = Ok ls' ∨
   LineSet.RemovePointAttr ls key = Ok ls' ∨
   LineSet.RemoveLineAttr ls key = Ok ls' ∨
   ls' = LineSet.Clear ls →
   LineSet.on_device ls').
Proof.
  split.
  - intros Hne. split; [by apply SetPointAttr_rejects|].
    split; [by apply SetLineAttr_rejects|].
    unfold LineSet.SetPointPositions, LineSet.SetLineIndices, LineSet.SetLineColors.
    rewrite !SetPointAttr_rejects, !SetLineAttr_rejects by done.
    repeat split; intros H; destruct (AssertShapeCompatible _ _ _); exact H.
  - intros Hinv [H|[H|[H|[H|[H|[H|[H| ->]]]]]]].
    + by eapply on_device_SetPointAttr.
    + by eapply on_device_SetLineAttr.
    + eapply on_device_SetPointAttr; [done|]. by eapply after_assertion.
    + eapply on_device_SetLineAttr; [done|]. by eapply after_assertion.
    + eapply on_device_SetLineAttr; [done|]. by eapply after_assertion.
    + eapply on_device_Remove; eauto.
    + eapply on_device_Remove; eauto.
    + apply on_device_Clear.
Qed.

Lemma scene_lines_on_device : LineSet.on_device scene_lines.
Proof.
  split; cbn; intros key x.
  - intros [[<- <-]|[]]%lookup_insert_Some; [done|]. by rewrite lookup_empty in *.
  - by rewrite lookup_empty.
Qed.

Lemma attributes_stay_on_device_witness :
  let h : heap float := scene_store scene_S scene_SC [0; -1]%Z in
  LineSet.SetPointAttr scene_lines "normals" scene_corr_cuda
  = Err (AssertDeviceFailed CUDA0 CPU0) ∧
  ∃ ls', LineSet.SetPointPositions scene_lines (scene_tensor 1) h = Ok ls' ∧
         LineSet.on_device ls'.
Proof.
  intros h. split.
  - apply (proj1 (attributes_stay_on_device (F:=float) scene_lines scene_lines "normals"
                    scene_corr_cuda h)). discriminate.
  - eexists. split; [reflexivity|].
    eapply (proj2 (attributes_stay_on_device scene_lines _ "positions" (scene_tensor 1) h)
              scene_lines_on_device).
    right; right; left. reflexivity.
Defined.

(** * More of LineSet.h *)

(** Case analysis on what a hypothesis says was stored. *)
Ltac stored_cases :=
  intros;
  repeat match goal with
         | H : _ ∨ _ |- _ => destruct H
         | H : _ ∧ _ |- _ => destruct H
         | H : ∃ _, _ |- _ => destruct H
         end;
  simplify_eq;
  repeat match goal with
         | H1 : ?a = Ok _, H2 : ?a = Ok _ |- _ => rewrite H1 in H2; simplify_eq
         end;
  try done; try lia; try congruence; eauto 10.

Section lineset_attributes.
Context {F : Type}.
Implicit Types (ls : LineSet.t) (h : heap F) (key : string) (value x : Tensor.t).

(** X1: HasLineAttr returns true exactly when the key is in the line
    attributes, its tensor has a positive length, and "indices" is in the
    line attributes with the same length. *)
Theorem HasLineAttr_true_iff ls key h :
  LineSet.HasLineAttr ls key h = Ok true ↔
  ∃ x p n,
    TensorMap.map_ (LineSet.line_attr_ ls) !! key = Some x ∧
    Tensor.GetLength x h = Ok n ∧ 0 < n ∧
    TensorMap.map_ (LineSet.line_attr_ ls) !! "indices" = Some p ∧
    Tensor.GetLength p h = Ok n.
Proof.
  unfold LineSet.HasLineAttr, LineSet.GetLineIndices, LineSet.GetLineAttr,
    TensorMap.at_, TensorMap.Contains.
  split.
  - case_bool_decide as Hc; [|done]. destruct Hc as [x Hx]. rewrite Hx. cbn.
    destruct (Tensor.GetLength x h) as [n|e] eqn:Hlen; cbn; [|done].
    case_bool_decide as Hn; [|done].
    destruct (TensorMap.map_ (LineSet.line_attr_ ls) !! "indices") as [p|] eqn:Hp;
      cbn; [|done].
    destruct (Tensor.GetLength p h) as [m|e] eqn:Hm; cbn; [|done].
    intros [= Heq%bool_decide_eq_true]. subst m. by exists x, p, n.
  - intros (x & p & n & Hx & Hlen & Hn & Hp & Hm).
    rewrite bool_decide_eq_true_2 by eauto. rewrite Hx. cbn. rewrite Hlen. cbn.
    rewrite bool_decide_eq_true_2 by done. rewrite Hp. cbn. rewrite Hm. cbn.
    by rewrite bool_decide_eq_true_2.
Qed.

Lemma GetLength_not_KeyNotFound x h k : Tensor.GetLength x h ≠ Err (KeyNotFound k).
Proof.
  unfold Tensor.GetLength, Tensor.deref, Tensor.shape_length.
  destruct (h !! Tensor.blob_ x) as [d|]; cbn; [|done]. by destruct (shape d).
Qed.

(** X2: When HasPointAttr answers false, and when it throws for want of
    "positions": the key is looked up first, then its length, and
    "positions" only for a key that is present with a positive length. *)
Theorem HasPointAttr_false_or_throws ls key h :
  (LineSet.HasPointAttr ls key h = Ok false ↔
   TensorMap.map_ (LineSet.point_attr_ ls) !! key = None ∨
   (∃ x, TensorMap.map_ (LineSet.point_attr_ ls) !! key = Some x ∧
         Tensor.GetLength x h = Ok 0) ∨
   (∃ x p n m,
      TensorMap.map_ (LineSet.point_attr_ ls) !! key = Some x ∧
      Tensor.GetLength x h = Ok n ∧ 0 < n ∧
      TensorMap.map_ (LineSet.point_attr_ ls) !! "positions" = Some p ∧
      Tensor.GetLength p h = Ok m ∧ n ≠ m)) ∧
  (LineSet.HasPointAttr ls key h = Err (KeyNotFound "positions") ↔
   ∃ x n,
     TensorMap.map_ (LineSet.point_attr_ ls) !! key = Some x ∧
     Tensor.GetLength x h = Ok n ∧ 0 < n ∧
     TensorMap.map_ (LineSet.point_attr_ ls) !! "positions" = None).
Proof.
  unfold LineSet.HasPointAttr, LineSet.GetPointPositions, LineSet.GetPointAttr,
    TensorMap.at_, TensorMap.Contains.
  destruct (TensorMap.map_ (LineSet.point_attr_ ls) !! key) as [x|] eqn:Hx.
  2:{ rewrite bool_decide_eq_false_2 by (by intros [? ?]).
      split; split; stored_cases. }
  rewrite bool_decide_eq_true_2 by eauto. cbn.
  pose proof (GetLength_not_KeyNotFound x h "positions") as Hkx.
  destruct (Tensor.GetLength x h) as [n|e] eqn:Hlen; cbn.
  2:{ split; split; stored_cases. }
  case_bool_decide as Hn.
  2:{ assert (n = 0) as -> by lia. split; split; stored_cases. }
  destruct (TensorMap.map_ (LineSet.point_attr_ ls) !! "positions") as [p|] eqn:Hp; cbn.
  2:{ split; split; stored_cases. }
  pose proof (GetLength_not_KeyNotFound p h "positions") as Hkp.
  destruct (Tensor.GetLength p h) as [m|e] eqn:Hm; cbn.
  2:{ split; split; stored_cases. }
  case_bool_decide; split; split; stored_cases.
  right; right. by exists x, p, n, m.
Qed.

(** X3: IsEmpty looks at "positions" alone: it answers false exactly when
    "positions" is stored with a positive length, true exactly when it is
    missing or has length 0, and, unlike HasPointAttr on another key, it
    never throws for a missing key. *)
Theorem IsEmpty_iff ls h :
  (LineSet.IsEmpty ls h = Ok false ↔
   ∃ p n, TensorMap.map_ (LineSet.point_attr_ ls) !! "positions" = Some p ∧
          Tensor.GetLength p h = Ok n ∧ 0 < n) ∧
  (LineSet.IsEmpty ls h = Ok true ↔
   TensorMap.map_ (LineSet.point_attr_ ls) !! "positions" = None ∨
   ∃ p, TensorMap.map_ (LineSet.point_attr_ ls) !! "positions" = Some p ∧
        Tensor.GetLength p h = Ok 0) ∧
  (∀ k, LineSet.IsEmpty ls h ≠ Err (KeyNotFound k)).
Proof.
  unfold LineSet.IsEmpty, LineSet.HasPointPositions, LineSet.HasPointAttr,
    LineSet.GetPointPositions, LineSet.GetPointAttr, TensorMap.at_, TensorMap.Contains.
  destruct (TensorMap.map_ (LineSet.point_attr_ ls) !! "positions") as [p|] eqn:Hp.
  2:{ rewrite bool_decide_eq_false_2 by (by intros [? ?]). cbn.
      split; [|split]; [split| split|]; stored_cases. }
  rewrite bool_decide_eq_true_2 by eauto. cbn.
  pose proof (GetLength_not_KeyNotFound p h) as Hk.
  destruct (Tensor.GetLength p h) as [n|e] eqn:Hlen; cbn.
  2:{ split; [|split]; [split| split|]; stored_cases. }
  case_bool_decide as Hn; cbn.
  - rewrite bool_decide_eq_true_2 by done. cbn.
    split; [|split]; [split| split|]; stored_cases.
  - assert (n = 0) as -> by lia. split; [|split]; [split| split|]; stored_cases.
Qed.

(** X4: What a general setter stored is what the getter of the same key
    returns; the other keys, the other attribute map and the device are as
    they were. *)
Theorem Set_then_Get ls ls' key value :
  (LineSet.SetPointAttr ls key value = Ok ls' →
   LineSet.GetPointAttr ls' key = Ok value ∧
   (∀ key', key' ≠ key → LineSet.GetPointAttr ls' key' = LineSet.GetPointAttr ls key') ∧
   (∀ key', LineSet.GetLineAttr ls' key' = LineSet.GetLineAttr ls key') ∧
   LineSet.GetDevice ls' = LineSet.GetDevice ls) ∧
  (LineSet.SetLineAttr ls key value = Ok ls' →
   LineSet.GetLineAttr ls' key = Ok value ∧
   (∀ key', key' ≠ key → LineSet.GetLineAttr ls' key' = LineSet.GetLineAttr ls key') ∧
   (∀ key', LineSet.GetPointAttr ls' key' = LineSet.GetPointAttr ls key') ∧
   LineSet.GetDevice ls' = LineSet.GetDevice ls).
Proof.
  split.
  - intros [_ ->]%SetPointAttr_Ok.
    unfold LineSet.GetPointAttr, LineSet.GetLineAttr, TensorMap.at_. cbn.
    rewrite lookup_insert_eq. repeat split; try done.
    intros key' Hne. by rewrite lookup_insert_ne.
  - intros [_ ->]%SetLineAttr_Ok.
    unfold LineSet.GetPointAttr, LineSet.GetLineAttr, TensorMap.at_. cbn.
    rewrite lookup_insert_eq. repeat split; try done.
    intros key' Hne. by rewrite lookup_insert_ne.
Qed.

Lemma Set_then_Get_witness :
  ∃ ls', LineSet.SetPointAttr scene_lines "labels" (scene_tensor 4) = Ok ls' ∧
         LineSet.GetPointAttr ls' "labels" = Ok (scene_tensor 4) ∧
         LineSet.GetPointAttr ls' "positions" = Ok (scene_tensor 0).
Proof.
  eexists. split; [reflexivity|].
  destruct (proj1 (Set_then_Get scene_lines _ "labels" (scene_tensor 4)) eq_refl)
    as (H1 & H2 & _).
  split; [exact H1|]. rewrite H2 by done. reflexivity.
Defined.

End lineset_attributes.

Section lineset_setters.
Context {F : Type} `{!Scalar F}.
Implicit Types (ls : LineSet.t) (h : heap F) (key : string) (value x : Tensor.t).

Lemma shape_compatible_rows (s : list nat) (c : nat) :
  shape_compatible s [None; Some c] = true ↔ ∃ n, s = [n; c].
Proof.
  destruct s as [|n [|m [|k s]]]; cbn; try (split; [done|by intros [? ?]]).
  - rewrite andb_true_r, bool_decide_eq_true. split.
    + intros ->. by exists n.
    + by intros [? [= _ ->]].
  - rewrite andb_false_r. split; [done|by intros [? ?]].
Qed.

Lemma AssertShapeCompatible_Ok value (c : nat) h :
  AssertShapeCompatible value [None; Some c] h = Ok () ↔
  ∃ n, Tensor.GetShape value h = Ok [n; c].
Proof.
  unfold AssertShapeCompatible.
  destruct (Tensor.GetShape value h) as [s|e]; cbn; [|split; [done|by intros [? ?]]].
  destruct (shape_compatible s [None; Some c]) eqn:E.
  - apply shape_compatible_rows in E as [n ->]. split; [by exists n|done].
  - split; [done|]. intros [n [= ->]].
    assert (shape_compatible [n; c] [None; Some c] = true) as E'
      by (apply shape_compatible_rows; by exists n).
    congruence.
Qed.

(** X5: A convenience setter succeeds exactly when the tensor is
    2-dimensional with the required number of columns and resides on the
    LineSet's device, whatever its dtype and its number of rows; it then
    stores the tensor under its key.  The shape is asserted before the
    device. *)
Theorem convenience_setters ls value h ls' :
  (LineSet.SetPointPositions ls value h = Ok ls' ↔
   (∃ n, Tensor.GetShape value h = Ok [n; 3]) ∧
   Tensor.device_ value = LineSet.device_ ls ∧
   ls' = LineSet.mk (LineSet.device_ ls)
           (TensorMap.assign (LineSet.point_attr_ ls) "positions" value)
           (LineSet.line_attr_ ls)) ∧
  (LineSet.SetLineIndices ls value h = Ok ls' ↔
   (∃ n, Tensor.GetShape value h = Ok [n; 2]) ∧
   Tensor.device_ value = LineSet.device_ ls ∧
   ls' = LineSet.mk (LineSet.device_ ls) (LineSet.point_attr_ ls)
           (TensorMap.assign (LineSet.line_attr_ ls) "indices" value)) ∧
  (LineSet.SetLineColors ls value h = Ok ls' ↔
   (∃ n, Tensor.GetShape value h = Ok [n; 3]) ∧
   Tensor.device_ value = LineSet.device_ ls ∧
   ls' = LineSet.mk (LineSet.device_ ls) (LineSet.point_attr_ ls)
           (TensorMap.assign (LineSet.line_attr_ ls) "colors" value)) ∧
  (∀ s, Tensor.GetShape value h = Ok s → (∀ n, s ≠ [n; 3]) →
        LineSet.SetPointPositions ls value h = Err (AssertShapeFailed s) ∧
        LineSet.SetLineColors ls value h = Err (AssertShapeFailed s)) ∧
  (∀ s, Tensor.GetShape value h = Ok s → (∀ n, s ≠ [n; 2]) →
        LineSet.SetLineIndices ls value h = Err (AssertShapeFailed s)).
Proof.
  unfold LineSet.SetPointPositions, LineSet.SetLineIndices, LineSet.SetLineColors.
  split; [|split; [|split; [|split]]].
  - pose proof (AssertShapeCompatible_Ok value 3 h) as Hs.
    destruct (AssertShapeCompatible value [None; Some 3] h) as [[]|e]; cbn.
    + split.
      * intros [? ->]%SetPointAttr_Ok. split; [by apply Hs|done].
      * intros (_ & Hdev & ->). unfold LineSet.SetPointAttr, Tensor.AssertDevice.
        by rewrite decide_True.
    + split; [done|]. intros (Hn & _). by apply Hs in Hn.
  - pose proof (AssertShapeCompatible_Ok value 2 h) as Hs.
    destruct (AssertShapeCompatible value [None; Some 2] h) as [[]|e]; cbn.
    + split.
      * intros [? ->]%SetLineAttr_Ok. split; [by apply Hs|done].
      * intros (_ & Hdev & ->). unfold LineSet.SetLineAttr, Tensor.AssertDevice.
        by rewrite decide_True.
    + split; [done|]. intros (Hn & _). by apply Hs in Hn.
  - pose proof (AssertShapeCompatible_Ok value 3 h) as Hs.
    destruct (AssertShapeCompatible value [None; Some 3] h) as [[]|e]; cbn.
    + split.
      * intros [? ->]%SetLineAttr_Ok. split; [by apply Hs|done].
      * intros (_ & Hdev & ->). unfold LineSet.SetLineAttr, Tensor.AssertDevice.
        by rewrite decide_True.
    + split; [done|]. intros (Hn & _). by apply Hs in Hn.
  - intros s Hs Hne. unfold AssertShapeCompatible. rewrite Hs. cbn.
    destruct (shape_compatible s [None; Some 3]) eqn:E; [|done].
    apply shape_compatible_rows in E as [n ->]. by destruct (Hne n).
  - intros s Hs Hne. unfold AssertShapeCompatible. rewrite Hs. cbn.
    destruct (shape_compatible s [None; Some 2]) eqn:E; [|done].
    apply shape_compatible_rows in E as [n ->]. by destruct (Hne n).
Qed.

(** X6: The setters never compare lengths.  Replacing "positions" leaves
    the other point attributes stored, and a point attribute of any length
    is accepted: afterwards HasPointAttr answers true for such an attribute
    exactly when its length is that of "positions". *)
Theorem setters_never_check_lengths ls key x h n m :
  key ≠ "positions" →
  Tensor.GetLength x h = Ok n → 0 < n →
  (∀ value ls',
     TensorMap.map_ (LineSet.point_attr_ ls) !! key = Some x →
     Tensor.GetLength value h = Ok m →
     LineSet.SetPointPositions ls value h = Ok ls' →
     LineSet.HasPointAttr ls' key h = Ok (bool_decide (n = m))) ∧
  (∀ p,
     TensorMap.map_ (LineSet.point_attr_ ls) !! "positions" = Some p →
     Tensor.GetLength p h = Ok m →
     Tensor.device_ x = LineSet.device_ ls →
     ∃ ls', LineSet.SetPointAttr ls key x = Ok ls' ∧
            LineSet.HasPointAttr ls' key h = Ok (bool_decide (n = m))).
Proof.
  intros Hkey Hx Hn. split.
  - intros value ls' Hstored Hm Hset.
    unfold LineSet.SetPointPositions in Hset.
    apply after_assertion in Hset. apply SetPointAttr_Ok in Hset as [_ ->].
    unfold LineSet.HasPointAttr, LineSet.GetPointPositions, LineSet.GetPointAttr,
      TensorMap.at_, TensorMap.Contains. cbn.
    rewrite lookup_insert_ne by done. rewrite lookup_insert_eq.
    rewrite bool_decide_eq_true_2 by eauto. rewrite Hstored. cbn. rewrite Hx. cbn.
    rewrite bool_decide_eq_true_2 by done. by rewrite Hm.
  - intros p Hp Hpm Hdev. eexists. split.
    { unfold LineSet.SetPointAttr, Tensor.AssertDevice. by rewrite decide_True. }
    unfold LineSet.HasPointAttr, LineSet.GetPointPositions, LineSet.GetPointAttr,
      TensorMap.at_, TensorMap.Contains. cbn.
    rewrite lookup_insert_eq. rewrite lookup_insert_ne by done.
    rewrite bool_decide_eq_true_2 by eauto. cbn. rewrite Hx. cbn.
    rewrite bool_decide_eq_true_2 by done. rewrite Hp. cbn. by rewrite Hpm.
Qed.

End lineset_setters.

(** Source colors stored as an attribute of the scene's points; positions
    replaced by the three target points. *)
Lemma setters_never_check_lengths_witness :
  let h : heap float := scene_store scene_S scene_SC [0; -1]%Z in
  let ls := LineSet.mk CPU0
              (TensorMap.mk "positions"
                 (list_to_map [("positions", scene_tensor 0); ("colors", scene_tensor 4)]))
              (TensorMap.mk "indices" ∅) in
  LineSet.HasPointAttr ls "colors" h = Ok true ∧
  ∃ ls', LineSet.SetPointPositions ls (scene_tensor 1) h = Ok ls' ∧
         LineSet.HasPointAttr ls' "colors" h = Ok false.
Proof.
  intros h ls. split; [reflexivity|]. eexists. split; [reflexivity|].
  apply (proj1 (setters_never_check_lengths ls "colors" (scene_tensor 4) h 2 3
                  ltac:(done) eq_refl ltac:(lia)) (scene_tensor 1));
    reflexivity.
Defined.

Section lineset_contents.
Context {F : Type} `{!Scalar F}.
Implicit Types (ls : LineSet.t) (h : heap F) (key : string) (value x : Tensor.t).

(** X7: RemovePointAttr refuses the primary key of the point attributes
    and removes any other key: afterwards the getter of that key throws,
    HasPointAttr answers false for it, and the other keys, the line
    attributes and the device are as they were.  Removing a key that is
    not stored returns the LineSet unchanged. *)
Theorem RemovePointAttr_then_Get ls key :
  (key = TensorMap.primary_key_ (LineSet.point_attr_ ls) →
   LineSet.RemovePointAttr ls key = Err (PrimaryKeyErase key)) ∧
  (key ≠ TensorMap.primary_key_ (LineSet.point_attr_ ls) →
   ∃ ls', LineSet.RemovePointAttr ls key = Ok ls' ∧
     LineSet.GetPointAttr ls' key = Err (KeyNotFound key) ∧
     (∀ h, LineSet.HasPointAttr ls' key h = Ok false) ∧
     (∀ key', key' ≠ key → LineSet.GetPointAttr ls' key' = LineSet.GetPointAttr ls key') ∧
     LineSet.line_attr_ ls' = LineSet.line_attr_ ls ∧
     LineSet.GetDevice ls' = LineSet.GetDevice ls ∧
     (TensorMap.map_ (LineSet.point_attr_ ls) !! key = None → ls' = ls)).
Proof.
  unfold LineSet.RemovePointAttr, TensorMap.Erase. split; intros Hk.
  - by rewrite decide_True.
  - rewrite decide_False by done. cbn. eexists. split; [reflexivity|].
    unfold LineSet.GetPointAttr, LineSet.HasPointAttr, TensorMap.at_, TensorMap.Contains.
    cbn. rewrite lookup_delete_eq. repeat split; try done.
    + intros key' Hne. by rewrite lookup_delete_ne.
    + intros Habs. rewrite delete_id by done.
      by destruct ls as [? [? ?] ?].
Qed.

(** X8: After Clear nothing is stored: IsEmpty answers true, HasPointAttr
    and HasLineAttr answer false for every key, every getter and GetCenter
    throw for the missing key; the device stays, and clearing twice is
    clearing once. *)
Theorem Clear_empties ls key h :
  LineSet.IsEmpty (LineSet.Clear ls) h = Ok true ∧
  LineSet.HasPointAttr (LineSet.Clear ls) key h = Ok false ∧
  LineSet.HasLineAttr (LineSet.Clear ls) key h = Ok false ∧
  LineSet.GetPointAttr (LineSet.Clear ls) key = Err (KeyNotFound key) ∧
  LineSet.GetLineAttr (LineSet.Clear ls) key = Err (KeyNotFound key) ∧
  LineSet.GetCenter (LineSet.Clear ls) h = (Err (KeyNotFound "positions"), h) ∧
  LineSet.GetDevice (LineSet.Clear ls) = LineSet.GetDevice ls ∧
  LineSet.Clear (LineSet.Clear ls) = LineSet.Clear ls.
Proof.
  unfold LineSet.IsEmpty, LineSet.HasPointPositions, LineSet.HasPointAttr,
    LineSet.HasLineAttr, LineSet.GetCenter, LineSet.GetPointPositions,
    LineSet.GetPointAttr, LineSet.GetLineAttr, TensorMap.at_, TensorMap.Contains.
  cbn. rewrite !lookup_empty.
  rewrite !bool_decide_eq_false_2 by (by intros [? ?]). done.
Qed.

Lemma omap_coordinate (j : nat) (f : F * F * F → F) (points : list (F * F * F)) :
  (∀ q, [q.1.1; q.1.2; q.2] !! j = Some (f q)) →
  omap (λ r : list F, r !! j) (map (λ q, [q.1.1; q.1.2; q.2]) points) = map f points.
Proof.
  intros Hj. induction points as [|q points IH]; [done|].
  cbn [map omap list_omap]. rewrite Hj. cbn [omap list_omap]. by rewrite <- IH.
Qed.

(** X9: GetCenter reduces over the points, dimension 0: for N×3 positions
    it returns a new tensor of three elements, the Mean reduction of the x,
    of the y and of the z coordinates in the dtype of the positions, and
    writes to no stored buffer.  With "positions" missing it throws for the
    missing key. *)
Theorem GetCenter_reduces_over_points ls h :
  (TensorMap.map_ (LineSet.point_attr_ ls) !! "positions" = None →
   LineSet.GetCenter ls h = (Err (KeyNotFound "positions"), h)) ∧
  (∀ p (points : list (F * F * F)),
     TensorMap.map_ (LineSet.point_attr_ ls) !! "positions" = Some p →
     Tensor.deref p h = Ok (DF (A2 3 (map (λ q, [q.1.1; q.1.2; q.2]) points))) →
     LineSet.GetCenter ls h
     = (Ok (Tensor.mk (length h) (Tensor.dtype_ p) (Tensor.device_ p)),
        h ++ [DF (A1 [Tensor.fmean (Tensor.dtype_ p) (map (λ q, q.1.1) points);
                      Tensor.fmean (Tensor.dtype_ p) (map (λ q, q.1.2) points);
                      Tensor.fmean (Tensor.dtype_ p) (map (λ q, q.2) points)])])).
Proof.
  unfold LineSet.GetCenter, LineSet.GetPointPositions, LineSet.GetPointAttr, TensorMap.at_.
  split.
  - by intros ->.
  - intros p points -> Hp. cbn [from_option].
    eapply bind_run; [reflexivity|].
    unfold Tensor.Mean, Tensor.reduction, Tensor.allocating, Tensor.reduced.
    rewrite Hp. cbn. unfold Tensor.columns. cbn.
    rewrite decide_False by lia.
    rewrite decide_False by (by intros ?%elem_of_nil).
    rewrite bool_decide_eq_true_2 by (by left).
    rewrite bool_decide_eq_false_2 by (by intros [?|?%elem_of_nil]%elem_of_cons).
    cbn.
    by rewrite (omap_coordinate 0 (λ q, q.1.1)), (omap_coordinate 1 (λ q, q.1.2)),
      (omap_coordinate 2 (λ q, q.2)).
Qed.

End lineset_contents.

Lemma RemovePointAttr_then_Get_witness :
  LineSet.RemovePointAttr scene_lines "positions" = Err (PrimaryKeyErase "positions") ∧
  LineSet.RemovePointAttr scene_lines "normals" = Ok scene_lines.
Proof.
  split.
  - apply (proj1 (RemovePointAttr_then_Get (F:=float) scene_lines "positions")). reflexivity.
  - destruct (proj2 (RemovePointAttr_then_Get (F:=float) scene_lines "normals") ltac:(done))
      as (ls' & -> & _ & _ & _ & _ & _ & Hsame).
    f_equal. by apply Hsame.
Defined.

Lemma GetCenter_reduces_over_points_witness :
  let h : heap float := scene_store scene_S scene_SC [0; -1]%Z in
  LineSet.GetCenter scene_lines h
  = (Ok (Tensor.mk 7 Float64 CPU0), h ++ [DF (A1 [1.5; 0.5; 0]%float)]).
Proof.
  intros h.
  rewrite (proj2 (GetCenter_reduces_over_points scene_lines h) (scene_tensor 0)
             [(1, 1, 0); (2, 0, 0)]%float eq_refl eq_refl).
  vm_compute. reflexivity.
Defined.

Section lineset_lines.
Context {F : Type} `{!Scalar F}.
Implicit Types (ls : LineSet.t) (h : heap F) (key : string) (value x : Tensor.t).

(** X19: RemoveLineAttr refuses the primary key of the line attributes and
    removes any other key: afterwards the getter of that key throws,
    HasLineAttr answers false for it, and the other keys, the point
    attributes and the device are as they were.  Removing a key that is
    not stored returns the LineSet unchanged. *)
Theorem RemoveLineAttr_then_Get ls key :
  (key = TensorMap.primary_key_ (LineSet.line_attr_ ls) →
   LineSet.RemoveLineAttr ls key = Err (PrimaryKeyErase key)) ∧
  (key ≠ TensorMap.primary_key_ (LineSet.line_attr_ ls) →
   ∃ ls', LineSet.RemoveLineAttr ls key = Ok ls' ∧
     LineSet.GetLineAttr ls' key = Err (KeyNotFound key) ∧
     (∀ h, LineSet.HasLineAttr ls' key h = Ok false) ∧
     (∀ key', key' ≠ key → LineSet.GetLineAttr ls' key' = LineSet.GetLineAttr ls key') ∧
     LineSet.point_attr_ ls' = LineSet.point_attr_ ls ∧
     LineSet.GetDevice ls' = LineSet.GetDevice ls ∧
     (TensorMap.map_ (LineSet.line_attr_ ls) !! key = None → ls' = ls)).
Proof.
  unfold LineSet.RemoveLineAttr, TensorMap.Erase. split; intros Hk.
  - by rewrite decide_True.
  - rewrite decide_False by done. cbn. eexists. split; [reflexivity|].
    unfold LineSet.GetLineAttr, LineSet.HasLineAttr, TensorMap.at_, TensorMap.Contains.
    cbn. rewrite lookup_delete_eq. repeat split; try done.
    + intros key' Hne. by rewrite lookup_delete_ne.
    + intros Habs. rewrite delete_id by done.
      by destruct ls as [? ? [? ?]].
Qed.

(** X20: HasLineIndices looks at "indices" alone: it answers true exactly
    when "indices" is stored with a positive length, false exactly when it
    is missing or has length 0, and it never throws for a missing key.
    HasLineColors throws for the missing "indices" when "colors" is stored
    with a positive length and "indices" is not. *)
Theorem HasLineIndices_iff ls h :
  (LineSet.HasLineIndices ls h = Ok true ↔
   ∃ p n, TensorMap.map_ (LineSet.line_attr_ ls) !! "indices" = Some p ∧
          Tensor.GetLength p h = Ok n ∧ 0 < n) ∧
  (LineSet.HasLineIndices ls h = Ok false ↔
   TensorMap.map_ (LineSet.line_attr_ ls) !! "indices" = None ∨
   ∃ p, TensorMap.map_ (LineSet.line_attr_ ls) !! "indices" = Some p ∧
        Tensor.GetLength p h = Ok 0) ∧
  (∀ k, LineSet.HasLineIndices ls h ≠ Err (KeyNotFound k)) ∧
  (∀ c n, TensorMap.map_ (LineSet.line_attr_ ls) !! "colors" = Some c →
          Tensor.GetLength c h = Ok n → 0 < n →
          TensorMap.map_ (LineSet.line_attr_ ls) !! "indices" = None →
          LineSet.HasLineColors ls h = Err (KeyNotFound "indices")).
Proof.
  assert (∀ c n, TensorMap.map_ (LineSet.line_attr_ ls) !! "colors" = Some c →
            Tensor.GetLength c h = Ok n → 0 < n →
            TensorMap.map_ (LineSet.line_attr_ ls) !! "indices" = None →
            LineSet.HasLineColors ls h = Err (KeyNotFound "indices")) as Hcolors.
  { intros c n Hc Hlen Hn Hi.
    unfold LineSet.HasLineColors, LineSet.HasLineAttr, LineSet.GetLineIndices,
      LineSet.GetLineAttr, TensorMap.at_, TensorMap.Contains.
    rewrite bool_decide_eq_true_2 by eauto.
    rewrite Hc. cbn. rewrite Hlen. cbn. rewrite bool_decide_eq_true_2 by done.
    by rewrite Hi. }
  unfold LineSet.HasLineIndices, LineSet.HasLineAttr,
    LineSet.GetLineIndices, LineSet.GetLineAttr, TensorMap.at_, TensorMap.Contains.
  destruct (TensorMap.map_ (LineSet.line_attr_ ls) !! "indices") as [p|] eqn:Hp.
  2:{ rewrite bool_decide_eq_false_2 by (by intros [? ?]). cbn.
      split; [|split; [|split; [|exact Hcolors]]]; [split| split|]; stored_cases. }
  rewrite bool_decide_eq_true_2 by eauto. cbn.
  pose proof (GetLength_not_KeyNotFound p h) as Hk.
  destruct (Tensor.GetLength p h) as [n|e] eqn:Hlen; cbn.
  2:{ split; [|split; [|split; [|exact Hcolors]]]; [split| split|]; stored_cases. }
  case_bool_decide as Hn; cbn.
  - rewrite bool_decide_eq_true_2 by done. cbn.
    split; [|split; [|split; [|exact Hcolors]]]; [split| split|]; stored_cases.
  - assert (n = 0) as -> by lia.
    split; [|split; [|split; [|exact Hcolors]]]; [split| split|]; stored_cases.
Qed.

End lineset_lines.

Lemma RemoveLineAttr_then_Get_witness :
  LineSet.RemoveLineAttr scene_lines "indices" = Err (PrimaryKeyErase "indices") ∧
  LineSet.RemoveLineAttr scene_lines "colors" = Ok scene_lines.
Proof.
  split.
  - apply (proj1 (RemoveLineAttr_then_Get (F:=float) scene_lines "indices")). reflexivity.
  - destruct (proj2 (RemoveLineAttr_then_Get (F:=float) scene_lines "colors") ltac:(done))
      as (ls' & -> & _ & _ & _ & _ & _ & Hsame).
    f_equal. by apply Hsame.
Defined.

(** * The checks the estimators start with *)

Section check_rules.
Context {F : Type}.

Lemma bind_lift_cases {A B} (r : result A) (k : A → M F B) (h : heap F) :
  (lift r ≫= k) h = match r with Ok a => k a h | Err e => (Err e, h) end.
Proof. by destruct r. Qed.

Lemma bind_reading_cases {A B} (f : heap F → result A) (k : A → M F B) (h : heap F) :
  (reading f ≫= k) h = match f h with Ok a => k a h | Err e => (Err e, h) end.
Proof. unfold reading, mbind, M_bind. by destruct (f h). Qed.

Lemma bind_LogError_if_cases {B} cond fmt args (k : unit → M F B) (h : heap F) :
  (LogError_if cond fmt args ≫= k) h
  = if cond then (Err (LogError fmt args), h) else k () h.
Proof. by destruct cond. Qed.

Lemma AssertDtype_Ok x dtype u : Tensor.AssertDtype x dtype = Ok u → Tensor.dtype_ x = dtype.
Proof. unfold Tensor.AssertDtype. by case_decide. Qed.

Lemma AssertDevice_Ok x device u :
  Tensor.AssertDevice x device = Ok u → Tensor.device_ x = device.
Proof. unfold Tensor.AssertDevice. by case_decide. Qed.

Lemma GetPoints_Err (pc : PointCloud.t) e :
  PointCloud.GetPoints pc = Err e → e = KeyNotFound "positions".
Proof.
  unfold PointCloud.GetPoints, PointCloud.GetPointAttr, TensorMap.at_.
  destruct (_ !! _); cbn; [done|]. by intros [= <-].
Qed.

End check_rules.

(** One check of a prefix of checks: either it fails, and so does the
    call, with the store as it was, or the run goes on. *)
Ltac check_step :=
  first [ rewrite bind_lift_cases | rewrite bind_reading_cases ];
  match goal with
  | |- context [match ?r with Ok _ => _ | Err _ => _ end] =>
      let E := fresh "E" in destruct r eqn:E; [|by right; eauto]
  end.

Ltac check_log :=
  rewrite bind_LogError_if_cases;
  match goal with
  | |- context [if ?c then _ else _] =>
      let E := fresh "E" in destruct c eqn:E; [by right; eauto|]
  end.

Section checks.
Context {F : Type} `{!Scalar F} `{!Kernels F}.
Implicit Types (h : heap F) (source target : PointCloud.t) (corr : Tensor.t).

(** X10: The checks of PointToPoint::ComputeRMSE, in their order.  A cloud
    without "positions" makes the call throw for the missing key.  With
    positions on both clouds, target positions of another dtype than the
    source positions fail the dtype assertion, whether or not the clouds
    are on one device; only with positions of one dtype do clouds on two
    devices give the device error, which names the target's and the
    source's device.  In each case the store is as it was, and the call
    returns a value only when no check has failed. *)
Theorem point_to_point_rmse_checks h source target corr :
  (PointCloud.GetPoints source = Err (KeyNotFound "positions") ∨
   PointCloud.GetPoints target = Err (KeyNotFound "positions") →
   TransformationEstimationPointToPoint.ComputeRMSE source target corr h
   = (Err (KeyNotFound "positions"), h)) ∧
  (∀ sp tp,
     PointCloud.GetPoints source = Ok sp → PointCloud.GetPoints target = Ok tp →
     (Tensor.dtype_ tp ≠ Tensor.dtype_ sp →
      TransformationEstimationPointToPoint.ComputeRMSE source target corr h
      = (Err (AssertDtypeFailed (Tensor.dtype_ tp) (Tensor.dtype_ sp)), h)) ∧
     (Tensor.dtype_ tp = Tensor.dtype_ sp →
      PointCloud.GetDevice target ≠ PointCloud.GetDevice source →
      TransformationEstimationPointToPoint.ComputeRMSE source target corr h
      = (Err (LogError "Target Pointcloud device {} != Source Pointcloud's device {}."
                [PointCloud.GetDevice target; PointCloud.GetDevice source]), h))) ∧
  (∀ v h',
     TransformationEstimationPointToPoint.ComputeRMSE source target corr h = (Ok v, h') →
     ∃ sp tp,
       PointCloud.GetPoints source = Ok sp ∧ PointCloud.GetPoints target = Ok tp ∧
       Tensor.dtype_ tp = Tensor.dtype_ sp ∧
       PointCloud.GetDevice target = PointCloud.GetDevice source).
Proof.
  unfold TransformationEstimationPointToPoint.ComputeRMSE.
  rewrite bind_lift_cases.
  destruct (PointCloud.GetPoints target) as [tp|e] eqn:Ht.
  2:{ apply GetPoints_Err in Ht as ->. split; [done|]. split; [done|]. by intros ? ? [=]. }
  rewrite bind_lift_cases.
  destruct (PointCloud.GetPoints source) as [sp|e] eqn:Hs.
  2:{ apply GetPoints_Err in Hs as ->. split; [done|]. split; [done|]. by intros ? ? [=]. }
  split; [by intros [[=]|[=]]|].
  rewrite bind_lift_cases. unfold Tensor.AssertDtype, Tensor.GetDtype.
  case_decide as Hdt.
  2:{ split; [|by intros ? ? [=]]. intros ? ? [= <-] [= <-]. by split. }
  rewrite bind_LogError_if_cases. case_bool_decide as Hdev.
  - split; [|by intros ? ? [=]]. intros ? ? [= <-] [= <-]. by split.
  - split; [intros ? ? [= <-] [= <-]; by split|].
    intros v h' _. exists sp, tp. repeat split; done.
Qed.

(** X11: PointToPlane::ComputeRMSE starts tensor work only after every
    check has passed: target normals valid, target positions and correspondences
    on the source cloud's device, target positions and normals of the
    dtype of the source positions, correspondences Int64.  When a check
    fails the call throws and the store is as it was. *)
Theorem point_to_plane_rmse_checks this h source target corr :
  (PointCloud.HasPointNormals target h = Ok true ∧
   ∃ sp tp tn,
     PointCloud.GetPoints source = Ok sp ∧ PointCloud.GetPoints target = Ok tp ∧
     PointCloud.GetPointNormals target = Ok tn ∧
     Tensor.device_ tp = PointCloud.GetDevice source ∧
     Tensor.device_ corr = PointCloud.GetDevice source ∧
     Tensor.dtype_ tp = Tensor.dtype_ sp ∧
     Tensor.dtype_ tn = Tensor.dtype_ sp ∧
     Tensor.dtype_ corr = Int64) ∨
  ∃ e, TransformationEstimationPointToPlane.ComputeRMSE this source target corr h
       = (Err e, h).
Proof.
  unfold TransformationEstimationPointToPlane.ComputeRMSE.
  check_step. check_log. apply negb_false_iff in E0. subst.
  check_step. check_step. check_step. check_step. check_step.
  check_step. check_step. check_step.
  left. split; [done|]. eexists _, _, _. repeat split; try done;
    eauto using AssertDtype_Ok, AssertDevice_Ok.
Qed.

(** The three attribute checks of the colored estimator either all pass or
    throw with the store as it was. *)
Lemma check_attributes_cases h source target :
  (TransformationEstimationForColoredICP.check_attributes source target h = (Ok (), h) ∧
   PointCloud.HasPointColors target h = Ok true ∧
   PointCloud.HasPointColors source h = Ok true ∧
   PointCloud.HasPointNormals target h = Ok true ∧
   PointCloud.HasPointAttr target "color_gradients" h = Ok true) ∨
  ∃ e, TransformationEstimationForColoredICP.check_attributes source target h = (Err e, h).
Proof.
  unfold TransformationEstimationForColoredICP.check_attributes.
  check_step. destruct a.
  - check_step. check_log. apply negb_false_iff in E1. subst.
    check_step. check_log. apply negb_false_iff in E2. subst.
    check_step. unfold LogError_if. destruct a; [by left|by right; eauto].
  - right. eexists. reflexivity.
Qed.

(** X12: ColoredICP::ComputeRMSE starts tensor work only after every check
    has passed: colors on both clouds, normals and color gradients on the
    target, target positions and correspondences on the device of the
    source positions, every attribute used of the dtype of the source
    positions, correspondences Int64.  When a check fails the call throws
    and the store is as it was. *)
Theorem colored_icp_rmse_checks this h source target corr :
  (PointCloud.HasPointColors target h = Ok true ∧
   PointCloud.HasPointColors source h = Ok true ∧
   PointCloud.HasPointNormals target h = Ok true ∧
   PointCloud.HasPointAttr target "color_gradients" h = Ok true ∧
   ∃ sp sc tp tn tc tg,
     PointCloud.GetPoints source = Ok sp ∧ PointCloud.GetPointColors source = Ok sc ∧
     PointCloud.GetPoints target = Ok tp ∧ PointCloud.GetPointNormals target = Ok tn ∧
     PointCloud.GetPointColors target = Ok tc ∧
     PointCloud.GetPointAttr target "color_gradients" = Ok tg ∧
     Tensor.device_ tp = Tensor.device_ sp ∧
     Tensor.device_ corr = Tensor.device_ sp ∧
     Tensor.dtype_ sc = Tensor.dtype_ sp ∧ Tensor.dtype_ tp = Tensor.dtype_ sp ∧
     Tensor.dtype_ tn = Tensor.dtype_ sp ∧ Tensor.dtype_ tc = Tensor.dtype_ sp ∧
     Tensor.dtype_ tg = Tensor.dtype_ sp ∧ Tensor.dtype_ corr = Int64) ∨
  ∃ e, TransformationEstimationForColoredICP.ComputeRMSE this source target corr h
       = (Err e, h).
Proof.
  unfold TransformationEstimationForColoredICP.ComputeRMSE.
  destruct (check_attributes_cases h source target) as [(Hc & ? & ? & ? & ?)|[e He]].
  2:{ right. exists e. by apply bind_Err. }
  rewrite (bind_Ok _ _ _ _ _ Hc).
  check_step. check_step. check_step. check_step. check_step. check_step.
  check_step. check_step. check_step. check_step. check_step. check_step.
  check_step. check_step.
  left. repeat (split; [done|]). eexists _, _, _, _, _, _. repeat split; try done;
    eauto using AssertDtype_Ok, AssertDevice_Ok.
Qed.

End checks.

Lemma point_to_point_rmse_checks_witness :
  let h : heap float := scene_store scene_S scene_SC [0; -1]%Z in
  TransformationEstimationPointToPoint.ComputeRMSE scene_source
    scene_cloud_without_positions scene_corr h
  = (Err (KeyNotFound "positions"), h) ∧
  TransformationEstimationPointToPoint.ComputeRMSE scene_source single_target_cuda
    scene_corr h
  = (Err (AssertDtypeFailed Float32 Float64), h) ∧
  TransformationEstimationPointToPoint.ComputeRMSE scene_source scene_target_cuda
    scene_corr h
  = (Err (LogError "Target Pointcloud device {} != Source Pointcloud's device {}."
            [CUDA0; CPU0]), h).
Proof.
  intros h. split; [|split].
  - apply (proj1 (point_to_point_rmse_checks h scene_source scene_cloud_without_positions
                    scene_corr)).
    right. reflexivity.
  - apply (proj1 (proj1 (proj2 (point_to_point_rmse_checks h scene_source
                                  single_target_cuda scene_corr))
                    (scene_tensor 0) (Tensor.mk 1 Float32 CUDA0) eq_refl eq_refl)).
    discriminate.
  - apply (proj2 (proj1 (proj2 (point_to_point_rmse_checks h scene_source
                                  scene_target_cuda scene_corr))
                    (scene_tensor 0) (Tensor.mk 1 Float64 CUDA0) eq_refl eq_refl)).
    + reflexivity.
    + discriminate.
Defined.

(** * Inputs in a store that has grown *)

Section grown.
Context {F : Type} `{!Scalar F}.
Implicit Types (h : heap F) (x : Tensor.t).

Lemma extends_app h l : extends h (h ++ l).
Proof. intros i Hi. by apply lookup_app_l. Qed.

Lemma deref_extends h h' x d :
  extends h h' → Tensor.deref x h = Ok d → Tensor.deref x h' = Ok d.
Proof.
  intros Hext. unfold Tensor.deref.
  destruct (h !! Tensor.blob_ x) as [d'|] eqn:E; [|done].
  by rewrite (Hext _ (lookup_lt_Some _ _ _ E)), E.
Qed.

Lemma GetLength_extends h h' x n :
  extends h h' → Tensor.GetLength x h = Ok n → Tensor.GetLength x h' = Ok n.
Proof.
  intros Hext. unfold Tensor.GetLength.
  destruct (Tensor.deref x h) as [d|] eqn:E; [|done].
  by rewrite (deref_extends _ _ _ _ Hext E).
Qed.

Lemma HasPointAttr_extends h h' pc key :
  extends h h' → PointCloud.HasPointAttr pc key h = Ok true →
  PointCloud.HasPointAttr pc key h' = Ok true.
Proof.
  intros Hext. unfold PointCloud.HasPointAttr.
  destruct (TensorMap.Contains _ _); [|done].
  destruct (PointCloud.GetPointAttr pc key) as [a|]; [|done]. cbn.
  destruct (Tensor.GetLength a h) as [n|] eqn:Ea; [|done].
  rewrite (GetLength_extends _ _ _ _ Hext Ea). cbn.
  destruct (bool_decide (0 < n)); [|done].
  destruct (PointCloud.GetPoints pc) as [p|]; [|done]. cbn.
  destruct (Tensor.GetLength p h) as [m|] eqn:Ep; [|done].
  by rewrite (GetLength_extends _ _ _ _ Hext Ep).
Qed.

Lemma attribute_extends h h' pc key x rows :
  extends h h' → attribute h pc key x rows → attribute h' pc key x rows.
Proof. intros Hext []. split; eauto using deref_extends. Qed.

Lemma PointToPointInput_extends h h' source target corr sp tp S T C :
  extends h h' →
  PointToPointInput h source target corr sp tp S T C →
  PointToPointInput h' source target corr sp tp S T C.
Proof. intros Hext []. split; eauto using deref_extends, attribute_extends. Qed.

Lemma PointToPlaneInput_extends h h' source target corr sp tp tn S T N C :
  extends h h' →
  PointToPlaneInput h source target corr sp tp tn S T N C →
  PointToPlaneInput h' source target corr sp tp tn S T N C.
Proof.
  intros Hext []. split;
    eauto using PointToPointInput_extends, attribute_extends, HasPointAttr_extends.
Qed.

Lemma preserves_extends {A} (m : M F A) (Q : A → Prop) h :
  preserves (length h) m Q → extends h (m h).2.
Proof. intros Hm l Hl. by apply (Hm h (le_n _)). Qed.

End grown.

Section repeated_calls.
Context {F : Type} `{!Scalar F} `{!Kernels F}.

(** X13: A second call of ComputeRMSE on the same arguments, in the store
    the first call left, returns what the first call returned: the
    temporaries of the first call, and its in-place products, are not seen
    again. *)
Theorem rmse_repeatable (h : heap F) (source target : PointCloud.t)
    (corr sp tp tn : Tensor.t) (S T N : list (list F)) (C : list Z)
    (this : TransformationEstimationPointToPlane.t) :
  (PointToPointInput h source target corr sp tp S T C →
   (TransformationEstimationPointToPoint.ComputeRMSE source target corr
      (TransformationEstimationPointToPoint.ComputeRMSE source target corr h).2).1
   = (TransformationEstimationPointToPoint.ComputeRMSE source target corr h).1) ∧
  (PointToPlaneInput h source target corr sp tp tn S T N C →
   (TransformationEstimationPointToPlane.ComputeRMSE this source target corr
      (TransformationEstimationPointToPlane.ComputeRMSE this source target corr h).2).1
   = (TransformationEstimationPointToPlane.ComputeRMSE this source target corr h).1).
Proof.
  split; intros Hin.
  - rewrite (point_to_point_value _ _ _ _ _ _ _ _ _ Hin).
    eapply point_to_point_value, PointToPointInput_extends, Hin.
    eapply preserves_extends, preserves_point_to_point_rmse.
  - rewrite (point_to_plane_value _ _ _ _ _ _ _ _ _ _ _ _ Hin).
    eapply point_to_plane_value, PointToPlaneInput_extends, Hin.
    eapply preserves_extends, preserves_point_to_plane_rmse.
Qed.

End repeated_calls.

Lemma rmse_repeatable_witness :
  let h : heap float := scene_store scene_S scene_SC [0; -1]%Z in
  let plane := TransformationEstimationPointToPlane.mk
                 (Kernels0 := spec_kernels identity_solvers) () in
  (TransformationEstimationPointToPoint.ComputeRMSE scene_source scene_target scene_corr
     (TransformationEstimationPointToPoint.ComputeRMSE scene_source scene_target scene_corr
        h).2).1
  = (TransformationEstimationPointToPoint.ComputeRMSE scene_source scene_target scene_corr h).1 ∧
  (TransformationEstimationPointToPlane.ComputeRMSE plane scene_source scene_target scene_corr
     (TransformationEstimationPointToPlane.ComputeRMSE plane scene_source scene_target
        scene_corr h).2).1
  = (TransformationEstimationPointToPlane.ComputeRMSE plane scene_source scene_target
       scene_corr h).1.
Proof.
  intros h plane.
  destruct (rmse_repeatable h scene_source scene_target scene_corr
              (scene_tensor 0) (scene_tensor 1) (scene_tensor 2)
              scene_S scene_T scene_N [0; -1]%Z plane) as [H1 H2].
  split; [apply H1|apply H2]; apply scene_input.
Defined.

(** * The matched pairs decide the result *)

Section matched.
Context {F : Type} `{!Scalar F} `{!Kernels F}.

Lemma zip_eq_inv {A B} (l l' : list A) (k k' : list B) :
  length l = length k → length l' = length k' → zip l' k' = zip l k →
  l' = l ∧ k' = k.
Proof.
  intros H1 H2 E. split.
  - rewrite <- (fst_zip l' k'), <- (fst_zip l k) by lia. by rewrite E.
  - rewrite <- (snd_zip l' k'), <- (snd_zip l k) by lia. by rewrite E.
Qed.

(** X14: PointToPoint::ComputeRMSE depends on its input only through the
    dtype of the points and the sequence of the matched pairs (source
    point, target point): two validated inputs with points of one dtype
    and the same pairs in the same order give the same result, wherever
    the matched points stand in their clouds and whatever the unmatched
    points are. *)
Theorem point_to_point_rmse_matched_pairs (h h' : heap F)
    (source source' target target' : PointCloud.t) (corr corr' sp sp' tp tp' : Tensor.t)
    (S S' T T' : list (list F)) (C C' : list Z) :
  PointToPointInput h source target corr sp tp S T C →
  PointToPointInput h' source' target' corr' sp' tp' S' T' C' →
  Tensor.dtype_ sp' = Tensor.dtype_ sp →
  zip (valid_sources S' C') (valid_targets T' C')
  = zip (valid_sources S C) (valid_targets T C) →
  (TransformationEstimationPointToPoint.ComputeRMSE source' target' corr' h').1
  = (TransformationEstimationPointToPoint.ComputeRMSE source target corr h).1.
Proof.
  intros Hin Hin' Hdtype Hp.
  rewrite (point_to_point_value _ _ _ _ _ _ _ _ _ Hin),
    (point_to_point_value _ _ _ _ _ _ _ _ _ Hin').
  destruct Hin as [_ _ _ _ _ HC HT _ _], Hin' as [_ _ _ _ _ HC' HT' _ _].
  pose proof (valid_sources_length S C ltac:(lia)) as HS.
  pose proof (valid_sources_length S' C' ltac:(lia)) as HS'.
  pose proof (valid_targets_length T C HT) as HTl.
  pose proof (valid_targets_length T' C' HT') as HTl'.
  apply zip_eq_inv in Hp as [ES ET]; [|congruence..].
  unfold rmse_point_to_point. rewrite Hdtype, ES, ET. do 4 f_equal. congruence.
Qed.

(** X15: PointToPlane::ComputeRMSE depends on its input only through the
    dtype of the points and the sequence of the matched triples (source
    point, target point, target normal): two validated inputs with points
    of one dtype and the same triples in the same order give the same
    result. *)
Theorem point_to_plane_rmse_matched_triples (h h' : heap F)
    (source source' target target' : PointCloud.t)
    (corr corr' sp sp' tp tp' tn tn' : Tensor.t)
    (S S' T T' N N' : list (list F)) (C C' : list Z)
    (this : TransformationEstimationPointToPlane.t) :
  PointToPlaneInput h source target corr sp tp tn S T N C →
  PointToPlaneInput h' source' target' corr' sp' tp' tn' S' T' N' C' →
  Tensor.dtype_ sp' = Tensor.dtype_ sp →
  zip (zip (valid_sources S' C') (valid_targets T' C')) (valid_targets N' C')
  = zip (zip (valid_sources S C) (valid_targets T C)) (valid_targets N C) →
  (TransformationEstimationPointToPlane.ComputeRMSE this source' target' corr' h').1
  = (TransformationEstimationPointToPlane.ComputeRMSE this source target corr h).1.
Proof.
  intros Hin Hin' Hdtype Hp.
  rewrite (point_to_plane_value _ _ _ _ _ _ _ _ _ _ _ _ Hin),
    (point_to_plane_value _ _ _ _ _ _ _ _ _ _ _ _ Hin').
  destruct Hin as [[_ _ _ _ _ HC HT _ _] _ _ HN _],
           Hin' as [[_ _ _ _ _ HC' HT' _ _] _ _ HN' _].
  pose proof (valid_sources_length S C ltac:(lia)) as HS.
  pose proof (valid_sources_length S' C' ltac:(lia)) as HS'.
  pose proof (valid_targets_length T C HT) as HTl.
  pose proof (valid_targets_length T' C' HT') as HTl'.
  pose proof (valid_targets_length N C ltac:(by rewrite HN)) as HNl.
  pose proof (valid_targets_length N' C' ltac:(by rewrite HN')) as HNl'.
  apply zip_eq_inv in Hp as [Hp EN];
    [|rewrite length_zip; lia|rewrite length_zip; lia].
  apply zip_eq_inv in Hp as [ES ET]; [|congruence..].
  unfold rmse_squared_components. rewrite Hdtype, ES, ET, EN. do 4 f_equal. congruence.
Qed.

End matched.

Lemma point_to_point_rmse_matched_pairs_witness :
  (TransformationEstimationPointToPoint.ComputeRMSE single_source single_target scene_corr
     packed_store).1
  = (TransformationEstimationPointToPoint.ComputeRMSE single_source single_target scene_corr
       single_store).1.
Proof.
  eapply (point_to_point_rmse_matched_pairs single_store packed_store _ _ _ _ _ _
            (single_tensor 0) (single_tensor 0) (single_tensor 1) (single_tensor 1)
            single_S packed_S single_T packed_T single_C packed_C).
  - apply single_input.
  - apply packed_input.
  - reflexivity.
  - vm_compute. reflexivity.
Defined.

Lemma point_to_plane_rmse_matched_triples_witness :
  let plane := TransformationEstimationPointToPlane.mk (F:=float)
                 (Kernels0 := spec_kernels identity_solvers) () in
  (TransformationEstimationPointToPlane.ComputeRMSE plane single_source single_target
     scene_corr packed_store).1
  = (TransformationEstimationPointToPlane.ComputeRMSE plane single_source single_target
       scene_corr single_store).1.
Proof.
  intros plane.
  eapply (point_to_plane_rmse_matched_triples single_store packed_store _ _ _ _ _ _
            (single_tensor 0) (single_tensor 0) (single_tensor 1) (single_tensor 1)
            (single_tensor 2) (single_tensor 2)
            single_S packed_S single_T packed_T single_N packed_N single_C packed_C).
  - apply single_input.
  - apply packed_input.
  - reflexivity.
  - vm_compute. reflexivity.
Defined.

(** * Correspondences given as a column *)

Section column_runs.
Context {F : Type} `{!Scalar F}.
Implicit Types (h l : heap F) (x : Tensor.t).

Lemma concat_singletons {A} (l : list A) : concat (map (λ a, [a]) l) = l.
Proof. induction l as [|a l IH]; [done|]. cbn. by rewrite IH. Qed.

Lemma valid_sources_singletons (C : list Z) :
  valid_sources (map (λ c, [c]) C) C = map (λ c, [c]) (valid_indices C).
Proof.
  unfold valid_sources, valid_indices.
  induction C as [|c C IH]; [done|]. cbn [map zip zip_with].
  rewrite !filter_cons. cbn [snd]. case_decide; cbn; by rewrite IH.
Qed.

Lemma not_equal_column x v h (zs : list Z) :
  Tensor.deref x h = Ok (DI (column zs)) →
  Tensor.not_equal x v h = Ok (DB (column (map (λ z, negb (z =? v)%Z) zs))).
Proof.
  intros E. unfold Tensor.not_equal, column. rewrite E. cbn. by rewrite !map_map.
Qed.

(** [Reshape({-1})] of a column: the flattened elements in a new buffer. *)
Lemma Reshape_column_mask x h l (bs : list bool) :
  Tensor.deref x (h ++ l) = Ok (DB (column bs)) →
  Tensor.Reshape x (h ++ l)
  = (Ok (Tensor.mk (length h + length l) (Tensor.dtype_ x) (Tensor.device_ x)),
     h ++ (l ++ [DB (A1 bs)])).
Proof.
  intros E. unfold Tensor.Reshape. rewrite E. cbn.
  rewrite decide_False by done. cbn. by rewrite concat_singletons, length_app, app_assoc.
Qed.

Lemma Reshape_column_idx x h l (zs : list Z) :
  Tensor.deref x (h ++ l) = Ok (DI (column zs)) →
  Tensor.Reshape x (h ++ l)
  = (Ok (Tensor.mk (length h + length l) (Tensor.dtype_ x) (Tensor.device_ x)),
     h ++ (l ++ [DI (A1 zs)])).
Proof.
  intros E. unfold Tensor.Reshape. rewrite E. cbn.
  rewrite decide_False by done. cbn. by rewrite concat_singletons, length_app, app_assoc.
Qed.

Lemma index_get_mask_column x index h C :
  Tensor.deref x h = Ok (DI (column C)) →
  Tensor.deref index h = Ok (DB (A1 (map (λ z, negb (z =? -1)%Z) C))) →
  Tensor.index_get x index h = Ok (DI (column (valid_indices C))).
Proof.
  intros Hx Hi. unfold Tensor.index_get, Tensor.indices, column.
  rewrite Hx. cbn. rewrite Hi. cbn.
  rewrite gather_NonZero by (by rewrite length_map). cbn.
  by rewrite valid_sources_singletons.
Qed.

End column_runs.

Section column_correspondences.
Context {F : Type} `{!Scalar F} `{!Kernels F}.

(** X16: PointToPoint and PointToPlane ComputeRMSE flatten the mask and
    the selected indices with Reshape({-1}): correspondences stored as an
    N×1 column give what the flat array of the same entries gives. *)
Theorem rmse_column_correspondences (h : heap F) (source target : PointCloud.t)
    (corr column_corr sp tp tn : Tensor.t) (S T N : list (list F)) (C : list Z)
    (this : TransformationEstimationPointToPlane.t) :
  Tensor.deref column_corr h = Ok (DI (column C)) →
  Tensor.dtype_ column_corr = Int64 →
  Tensor.device_ column_corr = PointCloud.GetDevice source →
  (PointToPointInput h source target corr sp tp S T C →
   (TransformationEstimationPointToPoint.ComputeRMSE source target column_corr h).1
   = (TransformationEstimationPointToPoint.ComputeRMSE source target corr h).1) ∧
  (PointToPlaneInput h source target corr sp tp tn S T N C →
   (TransformationEstimationPointToPlane.ComputeRMSE this source target column_corr h).1
   = (TransformationEstimationPointToPlane.ComputeRMSE this source target corr h).1).
Proof.
  intros Hcol Hdt Hdev. split; intros Hin.
  - rewrite (point_to_point_value _ _ _ _ _ _ _ _ _ Hin).
    destruct Hin as [[] [] ? ? ? ? ? ? ?].
    rewrite <- (app_nil_r h).
    unfold TransformationEstimationPointToPoint.ComputeRMSE, PointCloud.GetPoints.
    step_lift. step_lift. step_assert. step_no_error.
    step_alloc not_equal_column.
    step ltac:(eapply Reshape_column_mask; side_tac).
    step_alloc index_get_mask_column.
    step ltac:(eapply Reshape_column_idx; side_tac).
    step_alloc index_get_mask_rows.
    step_alloc index_get_idx_rows.
    step_alloc binary_rows.
    step_update binary__rows.
    step_alloc reduced_all.
    edestruct (To_Item_run (B:=F)) as [l' ->]; [side_tac|].
    step ltac:(apply reading_Ok; eapply GetLength_idx; side_tac).
    unfold rmse_point_to_point. by rewrite <- fsum_squared_distances.
  - rewrite (point_to_plane_value _ _ _ _ _ _ _ _ _ _ _ _ Hin).
    destruct Hin as [[[] [] ? ? ? ? ? ? ?] Hn [] HN ?].
    pose proof (in_range_length _ _ _ HN ltac:(eassumption)) as HrN.
    rewrite <- (app_nil_r h).
    unfold TransformationEstimationPointToPlane.ComputeRMSE,
      PointCloud.GetPoints, PointCloud.GetPointNormals.
    step ltac:(apply reading_Ok; rewrite app_nil_r; exact Hn).
    step_no_error.
    step_lift. step_assert. step_assert. step_lift. step_assert.
    step_lift. step_assert. step_assert.
    step_alloc not_equal_column.
    step ltac:(eapply Reshape_column_mask; side_tac).
    step_alloc index_get_mask_column.
    step ltac:(eapply Reshape_column_idx; side_tac).
    step_alloc index_get_mask_rows.
    step_alloc index_get_idx_rows.
    step_alloc index_get_idx_rows.
    step_alloc binary_rows.
    step_update binary__rows.
    step_update binary__rows.
    step_alloc reduced_all.
    edestruct (To_Item_run (B:=F)) as [l' ->]; [side_tac|].
    step ltac:(apply reading_Ok; eapply GetLength_idx; side_tac).
    unfold rmse_squared_components. by rewrite <- fsum_squared_components.
Qed.

End column_correspondences.

Lemma rmse_column_correspondences_witness :
  let h : heap float := scene_store scene_S scene_SC [0; -1]%Z ++ [DI (column [0; -1]%Z)] in
  let plane := TransformationEstimationPointToPlane.mk
                 (Kernels0 := spec_kernels identity_solvers) () in
  (TransformationEstimationPointToPoint.ComputeRMSE scene_source scene_target
     scene_corr_column h).1
  = (TransformationEstimationPointToPoint.ComputeRMSE scene_source scene_target scene_corr h).1 ∧
  (TransformationEstimationPointToPlane.ComputeRMSE plane scene_source scene_target
     scene_corr_column h).1
  = (TransformationEstimationPointToPlane.ComputeRMSE plane scene_source scene_target
       scene_corr h).1.
Proof.
  intros h plane.
  destruct (rmse_column_correspondences h scene_source scene_target scene_corr
              scene_corr_column (scene_tensor 0) (scene_tensor 1) (scene_tensor 2)
              scene_S scene_T scene_N [0; -1]%Z plane eq_refl eq_refl eq_refl) as [H1 H2].
  split; [apply H1|apply H2].
  - eapply PointToPointInput_extends; [apply extends_app|apply scene_input].
  - eapply PointToPlaneInput_extends; [apply extends_app|apply scene_input].
Defined.

(** * Matched points that coincide *)

Section coinciding.
Context {F : Type} `{!Scalar F} `{!Kernels F}.

Lemma add_squared_distance_self dtype (p : list F) :
  rounded dtype fmul fzero fzero = fzero → rounded dtype fadd fzero fzero = fzero →
  Forall (cancels dtype) p →
  add_squared_distance dtype fzero p p = fzero.
Proof.
  intros Hmul Hadd. induction 1 as [|a p Ha _ IH]; [done|].
  cbn. unfold cancels, rounded in *. by rewrite Ha, Hmul, Hadd.
Qed.

Lemma add_squared_distances_self dtype (P : list (list F)) :
  rounded dtype fmul fzero fzero = fzero → rounded dtype fadd fzero fzero = fzero →
  Forall (Forall (cancels dtype)) P →
  add_squared_distances dtype fzero P P = fzero.
Proof.
  intros Hmul Hadd. induction 1 as [|p P Hp _ IH]; [done|].
  cbn. by rewrite add_squared_distance_self.
Qed.

Lemma add_squared_components_self dtype (p n : list F) :
  rounded dtype fadd fzero fzero = fzero →
  Forall (cancels dtype) p → Forall (annihilated dtype) n →
  add_squared_components dtype fzero p p n = fzero.
Proof.
  intros Hadd Hp. revert n. induction Hp as [|a p Ha _ IH]; intros n Hn; [done|].
  destruct Hn as [|c n Hc Hn]; [done|].
  cbn. unfold cancels, annihilated, rounded in *. rewrite Ha, Hc, Hadd. by apply IH.
Qed.

Lemma add_squared_components_all_self dtype (P N : list (list F)) :
  rounded dtype fadd fzero fzero = fzero →
  Forall (Forall (cancels dtype)) P → Forall (Forall (annihilated dtype)) N →
  add_squared_components_all dtype fzero P P N = fzero.
Proof.
  intros Hadd HP. revert N. induction HP as [|p P Hp _ IH]; intros N HN; [done|].
  destruct HN as [|n N Hn HN]; [done|].
  cbn. rewrite add_squared_components_self by done. by apply IH.
Qed.

(** X17: When every matched source point coincides with its target point
    and has coordinates a with a − a = 0, the squares add up to zero and
    PointToPoint::ComputeRMSE returns sqrt(0 / n_valid); so does
    PointToPlane::ComputeRMSE when the square of 0 · c is 0 for the
    components c of the matched normals.  The arithmetic is that of the
    dtype of the points, in which 0 · 0 = 0 and 0 + 0 = 0. *)
Theorem rmse_of_coinciding_points (h : heap F) (source target : PointCloud.t)
    (corr sp tp tn : Tensor.t) (S T N : list (list F)) (C : list Z)
    (this : TransformationEstimationPointToPlane.t) :
  rounded (Tensor.dtype_ sp) fmul fzero fzero = fzero →
  rounded (Tensor.dtype_ sp) fadd fzero fzero = fzero →
  valid_sources S C = valid_targets T C →
  Forall (Forall (cancels (Tensor.dtype_ sp))) (valid_sources S C) →
  (PointToPointInput h source target corr sp tp S T C →
   (TransformationEstimationPointToPoint.ComputeRMSE source target corr h).1
   = Ok (fsqrt (fdiv fzero (of_int (Z.of_nat (n_valid C)))))) ∧
  (PointToPlaneInput h source target corr sp tp tn S T N C →
   Forall (Forall (annihilated (Tensor.dtype_ sp))) (valid_targets N C) →
   (TransformationEstimationPointToPlane.ComputeRMSE this source target corr h).1
   = Ok (fsqrt (fdiv fzero (of_int (Z.of_nat (n_valid C)))))).
Proof.
  intros Hmul Hadd Hsame Hfinite. split.
  - intros Hin. rewrite (point_to_point_value _ _ _ _ _ _ _ _ _ Hin).
    unfold rmse_point_to_point. rewrite <- Hsame.
    by rewrite add_squared_distances_self.
  - intros Hin Hnormals. rewrite (point_to_plane_value _ _ _ _ _ _ _ _ _ _ _ _ Hin).
    unfold rmse_squared_components. rewrite <- Hsame.
    by rewrite add_squared_components_all_self.
Qed.

End coinciding.

Lemma rmse_of_coinciding_points_witness :
  let plane := TransformationEstimationPointToPlane.mk (F:=float)
                 (Kernels0 := spec_kernels identity_solvers) () in
  (TransformationEstimationPointToPoint.ComputeRMSE single_source single_target scene_corr
     placed_store).1 = Ok 0%float ∧
  (TransformationEstimationPointToPlane.ComputeRMSE plane single_source single_target
     scene_corr placed_store).1 = Ok 0%float.
Proof.
  intros plane.
  destruct (rmse_of_coinciding_points placed_store single_source single_target scene_corr
              (single_tensor 0) (single_tensor 1) (single_tensor 2)
              placed_S single_T single_N placed_C plane) as [H1 H2].
  - vm_compute. reflexivity.
  - vm_compute. reflexivity.
  - vm_compute. reflexivity.
  - unfold cancels. repeat constructor.
  - split.
    + apply H1. apply placed_input.
    + apply H2; [apply placed_input|]. unfold annihilated. repeat constructor.
Defined.
